(** * Digitex bot framework: the market state reconciler

    A shallow embedding of [digitex_bot_framework/market.py] (class [Market])
    and of the mutable part of [currency_pair.py], followed by the properties
    of the order reconciler, the order-book merge and the notification
    coalescer.

    Python objects that are shared and mutated in place (orders, currency
    pairs) live in explicit stores and are referred to by address, so that a
    mutation through one reference is seen through every alias.  A handler is
    a computation in a state-and-exception monad: the mutations performed
    before an exception is raised persist, as they do in Python.

    The modules [order], [order_book], [trade], [trader], [enums] and [util]
    that market.py imports are not among the sources; what the handlers need
    of them is modelled from the specification and marked as such.
    [rounded_spot_price] and the table of markets at the end of market.py
    play no part in message handling and are left out. *)

From Stdlib Require Import ZArith QArith Qcanon.
From stdpp Require Import numbers strings gmap fin_maps list.

Open Scope Z_scope.

(** ** Values decoded from the wire *)

(** [decimal_from_proto] (util.py) yields a [decimal.Decimal]; decimals are
    compared and hashed by numeric value, which the canonical rationals
    reproduce: one numeric value, one inhabitant. *)
Abbreviation Decimal := Qc.

Definition dec (z : Z) : Decimal := Q2Qc (inject_Z z).

(** Python [bytes], one character per byte. *)
Abbreviation bytes := string.

(** [uuid.UUID(bytes=b)] raises [ValueError] unless [b] has 16 bytes; the
    identifier is then determined by these bytes. *)
Abbreviation UUID := string.

(** Modelled from the spec: the members of the enum [OrderStatus] (enums.py
    is not part of the sources at hand).  The spec names the live statuses
    ACCEPTED and PARTIAL and, among the others, filled, canceled and
    rejected; [UNLISTED] stands for any further member. *)
Inductive OrderStatus :=
  | ACCEPTED
  | PARTIAL
  | FILLED
  | CANCELED
  | REJECTED
  | UNLISTED (code : Z).

Global Instance OrderStatus_eq_dec : EqDecision OrderStatus.
Proof. solve_decision. Defined.

(** The members of [OrderSide], [OrderType], [OrderDuration] and
    [PositionType] are carried around and never inspected: they are kept as
    the code of the member. *)
Abbreviation OrderSide := Z.
Abbreviation OrderType := Z.
Abbreviation OrderDuration := Z.
Abbreviation PositionType := Z.

(** [statuses_to_keep = (OrderStatus.ACCEPTED, OrderStatus.PARTIAL)] *)
Definition statuses_to_keep : list OrderStatus := [ACCEPTED; PARTIAL].

(** ** Inbound messages *)

(** One level of the order book as decoded by [OrderBookEntry.from_proto]. *)
Module OrderBookEntry.
Record t := make { price : Decimal; quantity : Decimal }.
End OrderBookEntry.

(** The attributes of a message that [handle_order] and
    [create_order_from_message] read.  [status] is [None] when the message
    class has no attribute of that name ([hasattr(message, 'status')] is
    false), and otherwise holds [OrderStatus.from_proto(message.status)],
    taken to be a member of the enumeration.  A status attribute that
    [from_proto] decodes to no member has no counterpart here; that case is
    outside the model. *)
Module OrderMessage.
Record t := make {
    orig_client_id : bytes;
    status : option OrderStatus;
    price : Decimal;
    quantity : Decimal;
    orig_quantity : Decimal;
    dropped_quantity : Decimal;
    side : OrderSide;
    order_type : OrderType;
    duration : OrderDuration;
  }.
End OrderMessage.

(** An inner message.  The handlers are duck typed: each reads the attributes
    it needs from whatever message it is given, so one record carries every
    attribute read by some handler.  [order] groups the attributes that the
    message has when it is itself reconciled as an order report. *)
Module Payload.
Record t := make {
    trader_balance : Decimal;
    upnl : Decimal;
    pnl : Decimal;
    mark_price : Decimal;
    sell_price : Decimal;
    buy_price : Decimal;
    unreliable : Z;
    currency_pair_id : Z;
    last_trade_price : Decimal;
    last_trade_quantity : Decimal;
    last_trade_timestamp : Z;
    order_margin : Decimal;
    buy_order_margin : Decimal;
    sell_order_margin : Decimal;
    position_contracts : Decimal;
    position_volume : Decimal;
    position_liquidation_volume : Decimal;
    position_bankruptcy_volume : Decimal;
    position_type : PositionType;
    position_margin : Decimal;
    leverage : Z;
    order : OrderMessage.t;
    orders : list OrderMessage.t;
    bids : list OrderBookEntry.t;
    asks : list OrderBookEntry.t;
    bid_updates : list OrderBookEntry.t;
    ask_updates : list OrderBookEntry.t;
  }.
End Payload.

(** [message.WhichOneof('kontent')] together with the selected field. *)
Inductive Kontent :=
  | trader_status_msg (p : Payload.t)
  | trader_balance_msg (p : Payload.t)
  | exchange_rate_msg (p : Payload.t)
  | order_book_msg (p : Payload.t)
  | order_book_updated_msg (p : Payload.t)
  | order_status_msg (p : Payload.t)
  | order_filled_msg (p : Payload.t)
  | order_canceled_msg (p : Payload.t)
  | leverage_msg (p : Payload.t)
  | unhandled_msg.

(** The envelope. *)
Module Message.
Record t := make {
    kontent : Kontent;
    client_id : bytes;
    error_code : Z;
  }.
End Message.

(** ** Entities *)

Abbreviation addr := nat.

(** Modelled from the spec: the class [Order] (order.py is not part of the
    sources at hand): identity, price, remaining quantity, side, type,
    duration, status and an optional error code; a new order has neither
    status nor error code. *)
Module Order.
Record t := make {
    id : UUID;
    price : Decimal;
    quantity : Decimal;
    side : OrderSide;
    type : OrderType;
    duration : OrderDuration;
    status : option OrderStatus;
    error_code : option Z;
  }.

Definition set_status (st : option OrderStatus) (o : t) : t :=
    make (id o) (price o) (quantity o) (side o) (type o) (duration o) st (error_code o).
Definition set_error_code (e : option Z) (o : t) : t :=
    make (id o) (price o) (quantity o) (side o) (type o) (duration o) (status o) e.
Definition set_quantity (q : Decimal) (o : t) : t :=
    make (id o) (price o) q (side o) (type o) (duration o) (status o) (error_code o).
End Order.

(** [order.status in statuses_to_keep]; an order without status is not kept. *)
Definition is_kept (st : option OrderStatus) : bool :=
  match st with
  | Some st => bool_decide (st ∈ statuses_to_keep)
  | None => false
  end.

(** Modelled from the spec: the class [Orders], the registry of live orders
    (order.py is not part of the sources at hand): a mapping from identifier
    to order, and three margin figures supplied by the venue.  The mapping
    holds references to the order objects. *)
Module Orders.
Record t := make {
    by_id : gmap UUID addr;
    margin : option Decimal;
    buy_margin : option Decimal;
    sell_margin : option Decimal;
  }.
Definition empty : t := make ∅ None None None.
End Orders.

Module Position.
Record t := make {
    contracts : option Decimal;
    volume : option Decimal;
    liquidation_volume : option Decimal;
    bankruptcy_volume : option Decimal;
    type : option PositionType;
    margin : option Decimal;
  }.
Definition empty : t := make None None None None None None.
End Position.

Module Trader.
Record t := make {
    balance : option Decimal;
    upnl : option Decimal;
    pnl : option Decimal;
    leverage : option Z;
    position : Position.t;
    orders : Orders.t;
  }.
Definition empty : t := make None None None None Position.empty Orders.empty.
End Trader.

(** [bids] and [asks] are [None] until the first snapshot. *)
Module OrderBook.
Record t := make {
    bids : option (gmap Decimal OrderBookEntry.t);
    asks : option (gmap Decimal OrderBookEntry.t);
  }.
Definition empty : t := make None None.
End OrderBook.

Module Trade.
Record t := make {
    price : option Decimal;
    quantity : option Decimal;
    time : option Z;
  }.
Definition empty : t := make None None None.
End Trade.

(** currency_pair.py: identity and the market-observed attributes. *)
Module CurrencyPair.
Record t := make {
    id : Z;
    code : string;
    scale : Z;
    mark_price : option Decimal;
    sell_price : option Decimal;
    buy_price : option Decimal;
    unreliable : option bool;
  }.
Definition init (id : Z) (code : string) (scale : Z) : t :=
    make id code scale None None None None.
Definition set_mark_price (v : Decimal) (c : t) : t :=
    make (id c) (code c) (scale c) (Some v) (sell_price c) (buy_price c) (unreliable c).
Definition set_rates (m s b : Decimal) (u : bool) (c : t) : t :=
    make (id c) (code c) (scale c) (Some m) (Some s) (Some b) (Some u).
End CurrencyPair.

(** The part of the bot a market reaches: the currency pairs it tracks, by
    id, as references into the store of currency pairs. *)
Module Bot.
Record t := make { currency_pairs : gmap Z addr }.
End Bot.

(** ** Notifications *)

(** An event is a bound method: the receiving object and the hook.  Two
    reads of [x.on_update] compare equal exactly when they have the same
    receiver, which is what [event not in self.scheduled_events] tests. *)
Inductive Event :=
  | trader_on_update
  | position_on_update
  | orders_on_margins_update
  | order_on_update (a : addr)
  | last_trade_on_update
  | order_book_on_update
  | currency_pair_on_update (r : addr).

Global Instance Event_eq_dec : EqDecision Event.
Proof. solve_decision. Defined.

(** What a call of the hook returns: nothing, a coroutine, anything else. *)
Inductive Returned := ReturnsNone | ReturnsCoroutine | ReturnsOther.

(** What is handed to [asyncio.create_task]. *)
Inductive Task :=
  | order_book_request (market_id : Z)
  | reaction (e : Event).

Global Instance Task_eq_dec : EqDecision Task.
Proof. solve_decision. Defined.

(** ** The market *)

(** The attributes set by [Market.__init__], the two stores of shared
    objects, the reply of every hook, and the trace of what the market did to
    the outside: the hooks it called and the tasks it created. *)
Module Market.
Record t := make {
    id : Z;
    name : string;
    code : string;
    trader : Trader.t;
    order_book : OrderBook.t;
    bot : option Bot.t;
    currency_pair : addr;
    last_trade : option Trade.t;
    scheduled_events : list Event;
    order_store : list Order.t;
    pair_store : list CurrencyPair.t;
    hooks : Event -> Returned;
    called : list Event;
    tasks : list Task;
  }.

Definition set_trader (v : Trader.t) (s : t) : t :=
  make (id s) (name s) (code s) v (order_book s) (bot s) (currency_pair s)
    (last_trade s) (scheduled_events s) (order_store s) (pair_store s)
    (hooks s) (called s) (tasks s).
Definition set_order_book (v : OrderBook.t) (s : t) : t :=
  make (id s) (name s) (code s) (trader s) v (bot s) (currency_pair s)
    (last_trade s) (scheduled_events s) (order_store s) (pair_store s)
    (hooks s) (called s) (tasks s).
Definition set_last_trade (v : option Trade.t) (s : t) : t :=
  make (id s) (name s) (code s) (trader s) (order_book s) (bot s)
    (currency_pair s) v (scheduled_events s) (order_store s) (pair_store s)
    (hooks s) (called s) (tasks s).
Definition set_scheduled_events (v : list Event) (s : t) : t :=
  make (id s) (name s) (code s) (trader s) (order_book s) (bot s)
    (currency_pair s) (last_trade s) v (order_store s) (pair_store s)
    (hooks s) (called s) (tasks s).
Definition set_order_store (v : list Order.t) (s : t) : t :=
  make (id s) (name s) (code s) (trader s) (order_book s) (bot s)
    (currency_pair s) (last_trade s) (scheduled_events s) v (pair_store s)
    (hooks s) (called s) (tasks s).
Definition set_pair_store (v : list CurrencyPair.t) (s : t) : t :=
  make (id s) (name s) (code s) (trader s) (order_book s) (bot s)
    (currency_pair s) (last_trade s) (scheduled_events s) (order_store s) v
    (hooks s) (called s) (tasks s).
Definition set_called (v : list Event) (s : t) : t :=
  make (id s) (name s) (code s) (trader s) (order_book s) (bot s)
    (currency_pair s) (last_trade s) (scheduled_events s) (order_store s)
    (pair_store s) (hooks s) v (tasks s).
Definition set_tasks (v : list Task) (s : t) : t :=
  make (id s) (name s) (code s) (trader s) (order_book s) (bot s)
    (currency_pair s) (last_trade s) (scheduled_events s) (order_store s)
    (pair_store s) (hooks s) (called s) v.

(** [Market.__init__]: a fresh trader with an empty registry, an order book
    without sides, no bot, no last trade, nothing scheduled. *)
Definition init (id : Z) (name code : string) (currency_pair : addr)
    (pairs : list CurrencyPair.t) (hooks : Event -> Returned) : t :=
  make id name code Trader.empty OrderBook.empty None currency_pair None []
    [] pairs hooks [] [].

(** The registry of the market's trader. *)
Definition by_id (s : t) : gmap UUID addr := Orders.by_id (Trader.orders (trader s)).
End Market.

(** ** Handlers as computations *)

Inductive Exn := AttributeError | ValueError | TypeError | DanglingReference.

Inductive Outcome (A : Type) :=
  | Ok (a : A)
  | Raised (e : Exn).
Arguments Ok {A} a.
Arguments Raised {A} e.

(** A Python method of [Market]: it returns or raises, and leaves a state
    behind in both cases. *)
Definition M (A : Type) : Type := Market.t -> Outcome A * Market.t.

Definition ret {A} (a : A) : M A := fun s => (Ok a, s).
Definition raise {A} (e : Exn) : M A := fun s => (Raised e, s).
Definition bind {A B} (m : M A) (k : A -> M B) : M B :=
  fun s =>
    match m s with
    | (Ok a, s') => k a s'
    | (Raised e, s') => (Raised e, s')
    end.
Definition get : M Market.t := fun s => (Ok s, s).
Definition modify (f : Market.t -> Market.t) : M unit := fun s => (Ok tt, f s).

Notation "'let*' x ':=' m 'in' k" := (bind m (fun x => k))
  (at level 10, x pattern, m at level 100, k at level 200).
Notation "m '>>' k" := (bind m (fun _ => k))
  (at level 90, right associativity).

(** [for x in l: body(x)] *)
Fixpoint for_each {A} (body : A -> M unit) (l : list A) : M unit :=
  match l with
  | [] => ret tt
  | x :: rest => body x >> for_each body rest
  end.

Definition outcome {A} (r : Outcome A * Market.t) : Outcome A := fst r.
Definition state_after {A} (r : Outcome A * Market.t) : Market.t := snd r.

(** *** The notification coalescer *)

(** [schedule_event] *)
Definition schedule_event (event : Event) : M unit :=
  modify (fun s =>
    if bool_decide (event ∈ Market.scheduled_events s) then s
    else Market.set_scheduled_events (Market.scheduled_events s ++ [event]) s).

(** [asyncio.create_task] *)
Definition create_task (t : Task) : M unit :=
  modify (fun s => Market.set_tasks (Market.tasks s ++ [t]) s).

(** [emit_event]: call the hook, then look at what it returned.  (Building
    the message of the exception, [str + type], raises [TypeError] by itself,
    so a [TypeError] is what propagates either way.) *)
Definition emit_event (event : Event) : M unit :=
  let* res := (fun s => (Ok (Market.hooks s event),
                         Market.set_called (Market.called s ++ [event]) s)) in
  match res with
  | ReturnsNone => ret tt
  | ReturnsCoroutine => create_task (reaction event)
  | ReturnsOther => raise TypeError
  end.

(** The end of [handle_message]: the loop over [self.scheduled_events] and
    [self.scheduled_events.clear()]. *)
Definition flush : M unit :=
  let* s := get in
  for_each emit_event (Market.scheduled_events s) >>
  modify (Market.set_scheduled_events []).

(** *** Attribute updates shared by the handlers *)

Definition modify_trader (f : Trader.t -> Trader.t) : M unit :=
  modify (fun s => Market.set_trader (f (Market.trader s)) s).

(** [handle_balance] *)
Definition handle_balance (message : Payload.t) : M unit :=
  modify_trader (fun t =>
    Trader.make (Some (Payload.trader_balance message))
      (Some (Payload.upnl message)) (Some (Payload.pnl message))
      (Trader.leverage t) (Trader.position t) (Trader.orders t)) >>
  schedule_event trader_on_update.

(** [handle_leverage] *)
Definition handle_leverage (message : Payload.t) : M unit :=
  let leverage := Payload.leverage message in
  if bool_decide (leverage = 0) then ret tt
  else
    modify_trader (fun t =>
      Trader.make (Trader.balance t) (Trader.upnl t) (Trader.pnl t)
        (Some leverage) (Trader.position t) (Trader.orders t)) >>
    schedule_event trader_on_update.

(** [handle_position] *)
Definition handle_position (message : Payload.t) : M unit :=
  modify_trader (fun t =>
    Trader.make (Trader.balance t) (Trader.upnl t) (Trader.pnl t)
      (Trader.leverage t)
      (Position.make (Some (Payload.position_contracts message))
         (Some (Payload.position_volume message))
         (Some (Payload.position_liquidation_volume message))
         (Some (Payload.position_bankruptcy_volume message))
         (Some (Payload.position_type message))
         (Some (Payload.position_margin message)))
      (Trader.orders t)) >>
  schedule_event position_on_update.

(** [self.trader.position.margin = ...] in [handle_order_canceled_msg] *)
Definition set_position_margin (v : Decimal) : M unit :=
  modify_trader (fun t =>
    let p := Trader.position t in
    Trader.make (Trader.balance t) (Trader.upnl t) (Trader.pnl t)
      (Trader.leverage t)
      (Position.make (Position.contracts p) (Position.volume p)
         (Position.liquidation_volume p) (Position.bankruptcy_volume p)
         (Position.type p) (Some v))
      (Trader.orders t)).

Definition modify_orders (f : Orders.t -> Orders.t) : M unit :=
  modify_trader (fun t =>
    Trader.make (Trader.balance t) (Trader.upnl t) (Trader.pnl t)
      (Trader.leverage t) (Trader.position t) (f (Trader.orders t))).

(** [handle_order_margin] *)
Definition handle_order_margin (message : Payload.t) : M unit :=
  modify_orders (fun o =>
    Orders.make (Orders.by_id o) (Some (Payload.order_margin message))
      (Some (Payload.buy_order_margin message))
      (Some (Payload.sell_order_margin message))) >>
  schedule_event orders_on_margins_update.

(** [handle_mark_price]: the market's own currency pair is updated in the
    store, so every holder of that pair sees the new price. *)
Definition handle_mark_price (message : Payload.t) : M unit :=
  let* s := get in
  modify (fun s =>
    Market.set_pair_store
      (alter (CurrencyPair.set_mark_price (Payload.mark_price message))
         (Market.currency_pair s) (Market.pair_store s)) s) >>
  schedule_event (currency_pair_on_update (Market.currency_pair s)).

(** [handle_last_trade]: the [Trade] object is created on first use and
    overwritten afterwards. *)
Definition handle_last_trade (message : Payload.t) : M unit :=
  modify (fun s =>
    let s := match Market.last_trade s with
             | None => Market.set_last_trade (Some Trade.empty) s
             | Some _ => s
             end in
    Market.set_last_trade
      (Some (Trade.make (Some (Payload.last_trade_price message))
               (Some (Payload.last_trade_quantity message))
               (Some (Payload.last_trade_timestamp message)))) s) >>
  schedule_event last_trade_on_update.

(** *** The order registry and the order objects *)

(** Modelled from the spec: [Orders.look_up_by_id], [Orders.add] and
    [Orders.remove] (order.py is not part of the sources at hand): lookup,
    insertion and removal in the mapping from identifier to order. *)
Definition look_up_by_id (id : UUID) : M (option addr) :=
  let* s := get in ret (Market.by_id s !! id).

Definition Orders_add (id : UUID) (a : addr) : M unit :=
  modify_orders (fun o =>
    Orders.make (<[id := a]> (Orders.by_id o)) (Orders.margin o)
      (Orders.buy_margin o) (Orders.sell_margin o)).

Definition Orders_remove (id : UUID) : M unit :=
  modify_orders (fun o =>
    Orders.make (delete id (Orders.by_id o)) (Orders.margin o)
      (Orders.buy_margin o) (Orders.sell_margin o)).

(** Reading an attribute of the order at address [a].  A Python reference
    always leads to an object; [DanglingReference] is what the model answers
    when handed a store that does not contain the address. *)
Definition read_order (a : addr) : M Order.t :=
  let* s := get in
  match Market.order_store s !! a with
  | Some o => ret o
  | None => raise DanglingReference
  end.

(** Assigning to an attribute of the order at address [a]. *)
Definition update_order (a : addr) (f : Order.t -> Order.t) : M unit :=
  let* o := read_order a in
  modify (fun s => Market.set_order_store (<[a := f o]> (Market.order_store s)) s).

(** [uuid.UUID(bytes=b)] *)
Definition UUID_of_bytes (b : bytes) : M UUID :=
  if bool_decide (String.length b = 16%nat) then ret b else raise ValueError.

(** [create_order_from_message]: a new object at the next free address. *)
Definition create_order_from_message (message : OrderMessage.t) (id : UUID) : M addr :=
  let* s := get in
  let order :=
    Order.make id (OrderMessage.price message) (OrderMessage.quantity message)
      (OrderMessage.side message) (OrderMessage.order_type message)
      (OrderMessage.duration message) None None in
  modify (Market.set_order_store (Market.order_store s ++ [order])) >>
  ret (length (Market.order_store s)).

(** The first statement of [handle_order]: the identifier comes from the
    message when [orig_client_id] is not empty and from the envelope
    otherwise; without an envelope the attribute access fails. *)
Definition resolve_id (message : OrderMessage.t) (outer_message : option Message.t) : M UUID :=
  if bool_decide (OrderMessage.orig_client_id message ≠ EmptyString)
  then UUID_of_bytes (OrderMessage.orig_client_id message)
  else match outer_message with
       | Some outer => UUID_of_bytes (Message.client_id outer)
       | None => raise AttributeError
       end.

(** [handle_order] *)
Definition handle_order (message : OrderMessage.t)
    (outer_message : option Message.t) (forced_status : option OrderStatus)
    : M (addr * bool) :=
  let* id := resolve_id message outer_message in
  let* found := look_up_by_id id in
  let have_seen_this_order_before := bool_decide (is_Some found) in
  let* order := match found with
                | Some a => ret a
                | None => create_order_from_message message id
                end in
  (match OrderMessage.status message with
   | Some st => update_order order (Order.set_status (Some st))
   | None =>
     match forced_status with
     | Some st => update_order order (Order.set_status (Some st))
     | None =>
       if negb have_seen_this_order_before then
         let* o := read_order order in
         if bool_decide (OrderMessage.orig_quantity message ≠ Order.quantity o)
         then update_order order (Order.set_status (Some PARTIAL))
         else update_order order (Order.set_status (Some ACCEPTED))
       else ret tt
     end
   end) >>
  (match outer_message with
   | Some outer =>
     if bool_decide (Message.error_code outer ≠ 0)
     then update_order order (Order.set_error_code (Some (Message.error_code outer)))
     else ret tt
   | None => ret tt
   end) >>
  let* o := read_order order in
  (if have_seen_this_order_before && negb (is_kept (Order.status o))
   then Orders_remove (Order.id o)
   else if negb have_seen_this_order_before && is_kept (Order.status o)
   then Orders_add (Order.id o) order
   else ret tt) >>
  ret (order, have_seen_this_order_before).

(** *** Order reports *)

(** [handle_order_status_msg] *)
Definition handle_order_status_msg (message : Payload.t) (outer_message : Message.t) : M unit :=
  (if bool_decide (Message.error_code outer_message = 0) then
     handle_balance message >>
     handle_position message >>
     handle_order_margin message
   else ret tt) >>
  let* (order, have_seen_this_order_before) :=
    handle_order (Payload.order message) (Some outer_message) None in
  schedule_event (order_on_update order).

(** [handle_order_filled_message].  The subtractions are exact; those of
    the code round to the precision of the decimal context, 28 significant
    digits by default, so the two agree as long as the differences have no
    more digits than that. *)
Definition handle_order_filled_message (message : Payload.t) (outer_message : Message.t) : M unit :=
  handle_position message >>
  handle_balance message >>
  handle_order_margin message >>
  let* (order, have_seen_this_order_before) :=
    handle_order (Payload.order message) (Some outer_message) None in
  update_order order
    (fun o => Order.set_quantity (OrderMessage.orig_quantity (Payload.order message)) o) >>
  update_order order
    (fun o => Order.set_quantity
                (Order.quantity o - OrderMessage.quantity (Payload.order message))%Qc o) >>
  update_order order
    (fun o => Order.set_quantity
                (Order.quantity o - OrderMessage.dropped_quantity (Payload.order message))%Qc o) >>
  schedule_event (order_on_update order).

(** [handle_order_canceled_msg] *)
Definition handle_order_canceled_msg (message : Payload.t) (outer_message : Message.t) : M unit :=
  handle_order_margin message >>
  handle_mark_price message >>
  handle_balance message >>
  set_position_margin (Payload.position_margin message) >>
  schedule_event position_on_update >>
  let* status := match OrderMessage.status (Payload.order message) with
                 | Some st => ret st
                 | None => raise AttributeError
                 end in
  for_each (fun order_msg =>
      let* (order, have_seen_this_order_before) :=
        handle_order order_msg (Some outer_message) (Some status) in
      schedule_event (order_on_update order))
    (Payload.orders message).

(** [handle_leverage_msg] *)
Definition handle_leverage_msg (message : Payload.t) (outer_message : Message.t) : M unit :=
  handle_leverage message >>
  if bool_decide (Message.error_code outer_message = 0) then
    handle_balance message >>
    handle_position message >>
    handle_order_margin message >>
    handle_last_trade message
  else ret tt.

(** *** The order book *)

(** [populate_orderbook] on a dictionary. *)
Fixpoint populate_orderbook (target : gmap Decimal OrderBookEntry.t)
    (source : list OrderBookEntry.t) : gmap Decimal OrderBookEntry.t :=
  match source with
  | [] => target
  | entry :: rest =>
    populate_orderbook
      (if bool_decide (OrderBookEntry.quantity entry = 0%Qc)
          && bool_decide (is_Some (target !! OrderBookEntry.price entry))
       then delete (OrderBookEntry.price entry) target
       else <[OrderBookEntry.price entry := entry]> target)
      rest
  end.

(** [populate_orderbook] as it is called, on an attribute that may still be
    [None]: the first entry then fails, on [in] or on the item assignment. *)
Definition populate_side (target : option (gmap Decimal OrderBookEntry.t))
    (source : list OrderBookEntry.t) : M (option (gmap Decimal OrderBookEntry.t)) :=
  match target with
  | Some t => ret (Some (populate_orderbook t source))
  | None => match source with
            | [] => ret None
            | _ :: _ => raise TypeError
            end
  end.

Definition populate_bids (source : list OrderBookEntry.t) : M unit :=
  let* s := get in
  let* bids := populate_side (OrderBook.bids (Market.order_book s)) source in
  modify (fun s => Market.set_order_book
                     (OrderBook.make bids (OrderBook.asks (Market.order_book s))) s).

Definition populate_asks (source : list OrderBookEntry.t) : M unit :=
  let* s := get in
  let* asks := populate_side (OrderBook.asks (Market.order_book s)) source in
  modify (fun s => Market.set_order_book
                     (OrderBook.make (OrderBook.bids (Market.order_book s)) asks) s).

(** [handle_order_book_msg] *)
Definition handle_order_book_msg (message : Payload.t) : M unit :=
  let* s := get in
  (match OrderBook.bids (Market.order_book s) with
   | Some _ =>
     modify (fun s => Market.set_order_book
                        (OrderBook.make (Some ∅) (OrderBook.asks (Market.order_book s))) s) >>
     match OrderBook.asks (Market.order_book s) with
     | Some _ => modify (Market.set_order_book (OrderBook.make (Some ∅) (Some ∅)))
     | None => raise AttributeError
     end
   | None => modify (Market.set_order_book (OrderBook.make (Some ∅) (Some ∅)))
   end) >>
  populate_bids (Payload.bids message) >>
  populate_asks (Payload.asks message) >>
  handle_last_trade message >>
  handle_mark_price message >>
  schedule_event order_book_on_update.

(** [self.bot.client.order_book_request(market_id=self.id)]: without a bot
    the attribute access fails. *)
Definition order_book_request_of_bot : M Task :=
  let* s := get in
  match Market.bot s with
  | Some _ => ret (order_book_request (Market.id s))
  | None => raise AttributeError
  end.

(** [handle_order_book_updated_msg] *)
Definition handle_order_book_updated_msg (message : Payload.t) : M unit :=
  let* s := get in
  (match OrderBook.bids (Market.order_book s) with
   | Some _ =>
     populate_bids (Payload.bid_updates message) >>
     populate_asks (Payload.ask_updates message) >>
     schedule_event order_book_on_update
   | None =>
     let* request := order_book_request_of_bot in
     create_task request
   end) >>
  handle_last_trade message >>
  handle_last_trade message.

(** *** The remaining kinds *)

(** [handle_exchange_rate_msg] *)
Definition handle_exchange_rate_msg (message : Payload.t) : M unit :=
  let* s := get in
  match Market.bot s with
  | None => raise AttributeError
  | Some bot =>
    match Bot.currency_pairs bot !! Payload.currency_pair_id message with
    | None => ret tt
    | Some currency_pair =>
      modify (fun s =>
        Market.set_pair_store
          (alter (CurrencyPair.set_rates (Payload.mark_price message)
                    (Payload.sell_price message) (Payload.buy_price message)
                    (negb (bool_decide (Payload.unreliable message = 0))))
             currency_pair (Market.pair_store s)) s) >>
      schedule_event (currency_pair_on_update currency_pair)
    end
  end.

(** [handle_trader_status_msg] *)
Definition handle_trader_status_msg (message : Payload.t) : M unit :=
  handle_balance message >>
  handle_mark_price message >>
  handle_last_trade message >>
  handle_order_margin message >>
  handle_position message >>
  handle_leverage message >>
  for_each (fun order_msg =>
      let* (order, have_seen_this_order_before) := handle_order order_msg None None in
      schedule_event (order_on_update order))
    (Payload.orders message).

(** [handle_trader_balance_msg] *)
Definition handle_trader_balance_msg (message : Payload.t) : M unit :=
  handle_balance message >>
  handle_last_trade message >>
  handle_order_margin message >>
  handle_position message.

(** The [if]/[elif] chain of [handle_message]. *)
Definition dispatch (message : Message.t) : M unit :=
  match Message.kontent message with
  | trader_status_msg p => handle_trader_status_msg p
  | trader_balance_msg p => handle_trader_balance_msg p
  | exchange_rate_msg p => handle_exchange_rate_msg p
  | order_book_msg p => handle_order_book_msg p
  | order_book_updated_msg p => handle_order_book_updated_msg p
  | order_status_msg p => handle_order_status_msg p message
  | order_filled_msg p => handle_order_status_msg p message
  | order_canceled_msg p => handle_order_canceled_msg p message
  | leverage_msg p => handle_leverage_msg p message
  | unhandled_msg => ret tt
  end.

(** [handle_message] *)
Definition handle_message (message : Message.t) : M unit :=
  dispatch message >> flush.

(** ** Vocabulary of the properties *)

(** The state with the order at [a] replaced, and with another registry. *)
Definition put_order (a : addr) (o : Order.t) (s : Market.t) : Market.t :=
  Market.set_order_store (<[a := o]> (Market.order_store s)) s.

Definition set_by_id (r : gmap UUID addr) (s : Market.t) : Market.t :=
  let t := Market.trader s in
  let os := Trader.orders t in
  Market.set_trader
    (Trader.make (Trader.balance t) (Trader.upnl t) (Trader.pnl t)
       (Trader.leverage t) (Trader.position t)
       (Orders.make r (Orders.margin os) (Orders.buy_margin os) (Orders.sell_margin os)))
    s.

(** The order object at [a], as the holder of a reference sees it. *)
Definition order_at (s : Market.t) (a : addr) : option Order.t :=
  Market.order_store s !! a.

(** The order object at [a] is the one the registry holds under its id. *)
Definition registered (s : Market.t) (a : addr) (o : Order.t) : Prop :=
  Market.by_id s !! Order.id o = Some a.

(** Every reference held by the registry leads to an order object, filed
    under the identifier of that object. *)
Definition store_ok (s : Market.t) : Prop :=
  forall id a, Market.by_id s !! id = Some a ->
    exists o, order_at s a = Some o /\ Order.id o = id.

(** The membership invariant of the registry, over every order object. *)
Definition registry_invariant (s : Market.t) : Prop :=
  forall a o, order_at s a = Some o ->
    (registered s a o <-> is_kept (Order.status o) = true).

(** One call of [handle_order], and a sequence of calls; a call that raises
    leaves its state behind like any other. *)
Record Reconciliation := {
  rec_message : OrderMessage.t;
  rec_outer : option Message.t;
  rec_forced : option OrderStatus;
}.

Definition reconcile (c : Reconciliation) (s : Market.t) : Market.t :=
  state_after (handle_order (rec_message c) (rec_outer c) (rec_forced c) s).

Definition reconcile_all (cs : list Reconciliation) (s : Market.t) : Market.t :=
  foldl (fun s c => reconcile c s) s cs.

(** What [handle_order] leaves in the order it reconciles: the status by the
    three-way choice, then the error code of the envelope. *)
Definition assign_status (message : OrderMessage.t) (forced : option OrderStatus)
    (seen : bool) (o : Order.t) : Order.t :=
  match OrderMessage.status message with
  | Some st => Order.set_status (Some st) o
  | None =>
    match forced with
    | Some st => Order.set_status (Some st) o
    | None =>
      if seen then o
      else if bool_decide (OrderMessage.orig_quantity message ≠ Order.quantity o)
      then Order.set_status (Some PARTIAL) o
      else Order.set_status (Some ACCEPTED) o
    end
  end.

Definition attach_error (outer : option Message.t) (o : Order.t) : Order.t :=
  match outer with
  | Some outer =>
    if bool_decide (Message.error_code outer ≠ 0)
    then Order.set_error_code (Some (Message.error_code outer)) o
    else o
  | None => o
  end.

Definition reconciled (message : OrderMessage.t) (outer : option Message.t)
    (forced : option OrderStatus) (seen : bool) (o : Order.t) : Order.t :=
  attach_error outer (assign_status message forced seen o).

(** The order that [create_order_from_message] builds. *)
Definition order_of_message (message : OrderMessage.t) (id : UUID) : Order.t :=
  Order.make id (OrderMessage.price message) (OrderMessage.quantity message)
    (OrderMessage.side message) (OrderMessage.order_type message)
    (OrderMessage.duration message) None None.

(** The claim that a second delivery of the same message yields an order
    in the state the first delivery left: the order returned by the second
    call of [handle_order] equals the order returned by the first. *)
Definition redelivery_yields_same_order (message : OrderMessage.t)
    (outer : option Message.t) (forced : option OrderStatus) (s : Market.t) : Prop :=
  let r1 := handle_order message outer forced s in
  let r2 := handle_order message outer forced (state_after r1) in
  forall a1 seen1 a2 seen2,
    outcome r1 = Ok (a1, seen1) -> outcome r2 = Ok (a2, seen2) ->
    order_at (state_after r2) a2 = order_at (state_after r1) a1.

(** ** Sample data *)

(** Hooks left as the classes define them: [def on_update(self): pass]. *)
Definition quiet_hooks : Event -> Returned := fun _ => ReturnsNone.

(** [Market.BTC_USD], with [CurrencyPair.BTC_USD] at address 0 of the store
    of currency pairs. *)
Definition BTC_USD : Market.t :=
  Market.init 1 "BTC/USD" "BTCUSD" 0%nat [CurrencyPair.init 1 "BTC/USD" 4] quiet_hooks.

Definition sample_id : bytes := "0123456789abcdef".

(** An order report for [sample_id] at price 100. *)
Definition order_report (st : option OrderStatus) (quantity orig_quantity dropped_quantity : Z)
    : OrderMessage.t :=
  OrderMessage.make sample_id st (dec 100) (dec quantity) (dec orig_quantity)
    (dec dropped_quantity) 1 1 1.

(** A message whose account attributes are all zero. *)
Definition payload_of (o : OrderMessage.t) (orders : list OrderMessage.t) : Payload.t :=
  Payload.make (dec 0) (dec 0) (dec 0) (dec 0) (dec 0) (dec 0) 0 1 (dec 0) (dec 0) 0
    (dec 0) (dec 0) (dec 0) (dec 0) (dec 0) (dec 0) (dec 0) 0 (dec 0) 0 o orders
    [] [] [] [].

Definition envelope (k : Kontent) : Message.t := Message.make k EmptyString 0.

(** The market after the venue accepted an order of quantity 10. *)
Definition accept_report : Reconciliation :=
  {| rec_message := order_report (Some ACCEPTED) 10 10 0;
     rec_outer := Some (envelope (order_status_msg
                          (payload_of (order_report (Some ACCEPTED) 10 10 0) [])));
     rec_forced := None |}.

Definition with_accepted_order : Market.t := reconcile_all [accept_report] BTC_USD.

Definition accepted_order : Order.t :=
  Order.make sample_id (dec 100) (dec 10) 1 1 1 (Some ACCEPTED) None.

(** The fill of the spec: orig-quantity 10, quantity 4, dropped-quantity 1. *)
Definition sample_fill : Payload.t := payload_of (order_report (Some PARTIAL) 4 10 1) [].

(** A cancel report for the same order, remaining quantity 7. *)
Definition sample_cancel : OrderMessage.t := order_report (Some CANCELED) 7 10 0.

(** A report without status for an order already filled in part. *)
Definition partly_filled_report : OrderMessage.t := order_report None 4 10 0.

(** The market with an order in the registry that no report has given a
    status yet, as after an insertion from outside the handlers. *)
Definition with_unreported_order : Market.t :=
  set_by_id {[sample_id := 0%nat]}
    (Market.set_order_store [Order.make sample_id (dec 100) (dec 10) 1 1 1 None None]
       BTC_USD).

(** An embedded order record without client id. *)
Definition anonymous_report : OrderMessage.t :=
  OrderMessage.make EmptyString None (dec 100) (dec 10) (dec 10) (dec 0) 1 1 1.

(** [Market.BTC_USD] once a bot has taken it over. *)
Definition BTC_USD_attached : Market.t :=
  Market.make 1 "BTC/USD" "BTCUSD" Trader.empty OrderBook.empty
    (Some (Bot.make {[1 := 0%nat]})) 0%nat None [] []
    [CurrencyPair.init 1 "BTC/USD" 4] quiet_hooks [] [].

(** A snapshot with one level on each side, and the market after it. *)
Definition sample_snapshot : Payload.t :=
  Payload.make (dec 0) (dec 0) (dec 0) (dec 0) (dec 0) (dec 0) 0 1 (dec 0) (dec 0) 0
    (dec 0) (dec 0) (dec 0) (dec 0) (dec 0) (dec 0) (dec 0) 0 (dec 0) 0
    (order_report None 0 0 0) []
    [OrderBookEntry.make (dec 100) (dec 2)] [OrderBookEntry.make (dec 101) (dec 3)]
    [] [].

Definition BTC_USD_with_book : Market.t :=
  state_after (handle_order_book_msg sample_snapshot BTC_USD_attached).

(** An incremental update that consumes the bid level. *)
Definition sample_update : Payload.t :=
  Payload.make (dec 0) (dec 0) (dec 0) (dec 0) (dec 0) (dec 0) 0 1 (dec 99) (dec 1) 5
    (dec 0) (dec 0) (dec 0) (dec 0) (dec 0) (dec 0) (dec 0) 0 (dec 0) 0
    (order_report None 0 0 0) [] [] []
    [OrderBookEntry.make (dec 100) (dec 0)] [].

(** A position hook that returns a number. *)
Definition loud_hooks : Event -> Returned :=
  fun e => match e with
           | position_on_update => ReturnsOther
           | _ => ReturnsNone
           end.

Definition BTC_USD_loud : Market.t :=
  Market.init 1 "BTC/USD" "BTCUSD" 0%nat [CurrencyPair.init 1 "BTC/USD" 4] loud_hooks.

(** A market with two callbacks pending. *)
Definition BTC_USD_pending : Market.t :=
  state_after (handle_balance sample_fill
    (state_after (handle_position sample_fill BTC_USD))).

(** ** Properties of computations *)

(** Every run of [m] relates the state before to the state after. *)
Definition steps {A} (R : relation Market.t) (m : M A) : Prop :=
  forall s, R s (state_after (m s)).

(** [m] leaves the projection [f] of the state alone. *)
Definition keeps {A X} (f : Market.t -> X) (m : M A) : Prop :=
  steps (fun s s' => f s' = f s) m.

(** [m] never raises. *)
Definition returns {A} (m : M A) : Prop :=
  forall s, exists a, outcome (m s) = Ok a.

(** The pending list grows at its end and stays free of duplicates. *)
Definition extends_pending (s s' : Market.t) : Prop :=
  (exists l, Market.scheduled_events s' = Market.scheduled_events s ++ l) /\
  (NoDup (Market.scheduled_events s) -> NoDup (Market.scheduled_events s')).

(** No order object is lost and none has its error code changed; a new
    object has none. *)
Definition error_codes_kept (s s' : Market.t) : Prop :=
  (length (Market.order_store s) <= length (Market.order_store s'))%nat /\
  forall a o', order_at s' a = Some o' ->
    Order.error_code o' =
    match order_at s a with
    | Some o => Order.error_code o
    | None => None
    end.

(** The body of the loop of [handle_trader_status_msg]. *)
Definition reconcile_embedded (order_msg : OrderMessage.t) : M unit :=
  let* (order, have_seen_this_order_before) := handle_order order_msg None None in
  schedule_event (order_on_update order).

(** ** Vocabulary of further properties *)

(** The bytes [handle_order] reads the identifier of the order from: those
    of the message when it has any, else those of the envelope. *)
Definition id_bytes (message : OrderMessage.t) (outer : option Message.t) : option bytes :=
  if bool_decide (OrderMessage.orig_client_id message ≠ EmptyString)
  then Some (OrderMessage.orig_client_id message)
  else Message.client_id <$> outer.

(** Two states of an order that differ at most in status and error code. *)
Definition same_terms (o o' : Order.t) : Prop :=
  Order.id o' = Order.id o /\ Order.price o' = Order.price o /\
  Order.quantity o' = Order.quantity o /\ Order.side o' = Order.side o /\
  Order.type o' = Order.type o /\ Order.duration o' = Order.duration o.

(** Both sides of the order book are there, or neither. *)
Definition book_consistent (s : Market.t) : Prop :=
  is_Some (OrderBook.bids (Market.order_book s)) <->
  is_Some (OrderBook.asks (Market.order_book s)).

(** The account figures of the trader: everything but the registry. *)
Definition account (s : Market.t) :=
  let t := Market.trader s in
  (Trader.balance t, Trader.upnl t, Trader.pnl t, Trader.position t,
   (Orders.margin (Trader.orders t), Orders.buy_margin (Trader.orders t),
    Orders.sell_margin (Trader.orders t))).

(** The body of the loop of [handle_order_canceled_msg]. *)
Definition reconcile_canceled (outer : Message.t) (status : OrderStatus)
    (order_msg : OrderMessage.t) : M unit :=
  let* (order, have_seen_this_order_before) :=
    handle_order order_msg (Some outer) (Some status) in
  schedule_event (order_on_update order).

(** The kinds of message whose handler writes the order book, and those
    whose handler reconciles orders. *)
Definition is_book_message (k : Kontent) : bool :=
  match k with
  | order_book_msg _ | order_book_updated_msg _ => true
  | _ => false
  end.

Definition is_order_message (k : Kontent) : bool :=
  match k with
  | trader_status_msg _ | order_status_msg _ | order_filled_msg _
  | order_canceled_msg _ => true
  | _ => false
  end.

(** The object at [b] is held by the registry under an identifier that one
    of the order records of a message names. *)
Definition named_in (outer : Message.t) (l : list OrderMessage.t)
    (s : Market.t) (b : addr) : Prop :=
  exists x id, x ∈ l /\ id_bytes x (Some outer) = Some id /\
               Market.by_id s !! id = Some b.

(** The leverage of the trader. *)
Definition trader_leverage (s : Market.t) : option Z :=
  Trader.leverage (Market.trader s).

(** Some pending callback returns a value [emit_event] does not accept. *)
Definition poisoned (s : Market.t) : Prop :=
  exists e, e ∈ Market.scheduled_events s /\ Market.hooks s e = ReturnsOther.

(** ** More sample data *)

(** A report of a rejected order and an envelope that carries an error. *)
Definition rejected_report : OrderMessage.t := order_report (Some REJECTED) 10 10 0.

Definition error_envelope (k : Kontent) : Message.t := Message.make k EmptyString 42.

(** A cancel report naming the sample order. *)
Definition cancel_report : Payload.t :=
  payload_of (order_report (Some CANCELED) 0 0 0) [order_report None 7 10 0].

(** A leverage report, leverage 5. *)
Definition leverage_report : Payload.t :=
  Payload.make (dec 0) (dec 0) (dec 0) (dec 0) (dec 0) (dec 0) 0 1 (dec 0) (dec 0) 0
    (dec 0) (dec 0) (dec 0) (dec 0) (dec 0) (dec 0) (dec 0) 0 (dec 0) 5
    (order_report None 0 0 0) [] [] [] [] [].

(** The market with the misbehaving position hook, after a first message. *)
Definition BTC_USD_poisoned : Market.t :=
  state_after (handle_message (envelope (order_status_msg sample_fill)) BTC_USD_loud).

(** * Properties *)

(** ** Running a computation *)

Lemma bind_ok {A B} (m : M A) (k : A -> M B) s a s' :
  m s = (Ok a, s') -> bind m k s = k a s'.
Proof. intros H. unfold bind. by rewrite H. Qed.

Lemma bind_raised {A B} (m : M A) (k : A -> M B) s e s' :
  m s = (Raised e, s') -> bind m k s = (Raised e, s').
Proof. intros H. unfold bind. by rewrite H. Qed.

Lemma state_after_pair {A} (r : Outcome A) s : state_after (r, s) = s.
Proof. done. Qed.

(** ** The store of orders *)

Lemma is_kept_true st :
  is_kept st = true <-> st = Some ACCEPTED \/ st = Some PARTIAL.
Proof.
  unfold is_kept, statuses_to_keep. destruct st as [st|].
  - rewrite bool_decide_eq_true, !elem_of_cons, elem_of_nil.
    split; [intros [->|[->|[]]]; auto | intros [[= ->]|[= ->]]; auto].
  - split; [done | intros [|]; done].
Qed.


Lemma set_order_store_twice v w s :
  Market.set_order_store v (Market.set_order_store w s) = Market.set_order_store v s.
Proof. by destruct s. Qed.

Lemma put_order_same a o s :
  order_at s a = Some o -> put_order a o s = s.
Proof.
  unfold order_at, put_order. intros H.
  rewrite list_insert_id by done. by destruct s.
Qed.

Lemma put_order_put_order a o o' s :
  put_order a o' (put_order a o s) = put_order a o' s.
Proof.
  unfold put_order. destruct s; simpl. by rewrite list_insert_insert_eq.
Qed.

Lemma order_at_put_order a o s :
  is_Some (order_at s a) -> order_at (put_order a o s) a = Some o.
Proof.
  unfold order_at. intros H%lookup_lt_is_Some. simpl.
  by apply list_lookup_insert_eq.
Qed.

Lemma update_order_run a f s o :
  order_at s a = Some o ->
  update_order a f s = (Ok tt, put_order a (f o) s).
Proof.
  unfold order_at. intros H.
  unfold update_order, read_order, bind, get, ret, modify. simpl.
  by rewrite H.
Qed.

Lemma read_order_run a s o :
  order_at s a = Some o -> read_order a s = (Ok o, s).
Proof.
  unfold order_at. intros H. unfold read_order, bind, get, ret. simpl.
  by rewrite H.
Qed.

Lemma set_by_id_same s : set_by_id (Market.by_id s) s = s.
Proof. by destruct s as [? ? ? [? ? ? ? ? []] ? ? ? ? ? ? ? ? ? ?]. Qed.

Lemma Orders_remove_run id s :
  Orders_remove id s = (Ok tt, set_by_id (delete id (Market.by_id s)) s).
Proof. done. Qed.

Lemma Orders_add_run id a s :
  Orders_add id a s = (Ok tt, set_by_id (<[id := a]> (Market.by_id s)) s).
Proof. done. Qed.

(** The status assignment of [handle_order], run on an order that is there. *)
Lemma assign_status_run message forced seen a o s :
  order_at s a = Some o ->
  (match OrderMessage.status message with
   | Some st => update_order a (Order.set_status (Some st))
   | None =>
     match forced with
     | Some st => update_order a (Order.set_status (Some st))
     | None =>
       if negb seen then
         let* o := read_order a in
         if bool_decide (OrderMessage.orig_quantity message ≠ Order.quantity o)
         then update_order a (Order.set_status (Some PARTIAL))
         else update_order a (Order.set_status (Some ACCEPTED))
       else ret tt
     end
   end) s = (Ok tt, put_order a (assign_status message forced seen o) s).
Proof.
  intros H. unfold assign_status.
  destruct (OrderMessage.status message); [by apply update_order_run|].
  destruct forced; [by apply update_order_run|].
  destruct seen; simpl.
  - by rewrite put_order_same.
  - rewrite (bind_ok _ _ _ _ _ (read_order_run _ _ _ H)).
    case_bool_decide; by apply update_order_run.
Qed.

Lemma attach_error_run outer a o s :
  order_at s a = Some o ->
  (match outer with
   | Some outer =>
     if bool_decide (Message.error_code outer ≠ 0)
     then update_order a (Order.set_error_code (Some (Message.error_code outer)))
     else ret tt
   | None => ret tt
   end) s = (Ok tt, put_order a (attach_error outer o) s).
Proof.
  intros H. unfold attach_error.
  destruct outer as [outer|]; [case_bool_decide|].
  - by apply update_order_run.
  - by rewrite put_order_same.
  - by rewrite put_order_same.
Qed.

(** ** [handle_order], case by case *)

Lemma resolve_id_state message outer s :
  state_after (resolve_id message outer s) = s.
Proof.
  unfold resolve_id, UUID_of_bytes.
  repeat (case_bool_decide || case_match); done.
Qed.

Lemma resolve_id_any_state message outer s s' :
  outcome (resolve_id message outer s') = outcome (resolve_id message outer s).
Proof.
  unfold resolve_id, UUID_of_bytes.
  repeat (case_bool_decide || case_match); done.
Qed.

Lemma resolve_id_run message outer s r :
  outcome (resolve_id message outer s) = r -> resolve_id message outer s = (r, s).
Proof.
  intros <-. rewrite <- (resolve_id_state message outer s) at 3.
  by destruct (resolve_id message outer s).
Qed.

Lemma handle_order_raised message outer forced s e :
  outcome (resolve_id message outer s) = Raised e ->
  handle_order message outer forced s = (Raised e, s).
Proof.
  intros H%resolve_id_run. unfold handle_order.
  by rewrite (bind_raised _ _ _ _ _ H).
Qed.

Lemma handle_order_known message outer forced s id a o :
  outcome (resolve_id message outer s) = Ok id ->
  Market.by_id s !! id = Some a ->
  order_at s a = Some o ->
  let o' := reconciled message outer forced true o in
  handle_order message outer forced s =
    (Ok (a, true),
     if is_kept (Order.status o') then put_order a o' s
     else set_by_id (delete (Order.id o') (Market.by_id s)) (put_order a o' s)).
Proof.
  intros Hid%resolve_id_run Hreg Hat o'. unfold handle_order.
  rewrite (bind_ok _ _ _ _ _ Hid).
  unfold look_up_by_id at 1. unfold bind at 1. simpl. rewrite Hreg. simpl.
  unfold bind at 1. simpl.
  rewrite (bind_ok _ _ _ _ _ (assign_status_run message forced true a o s Hat)).
  set (o1 := assign_status message forced true o).
  assert (H1 : order_at (put_order a o1 s) a = Some o1)
    by (apply order_at_put_order; by rewrite Hat).
  rewrite (bind_ok _ _ _ _ _ (attach_error_run outer a o1 _ H1)).
  rewrite put_order_put_order. change (attach_error outer o1) with o'.
  assert (H2 : order_at (put_order a o' s) a = Some o')
    by (apply order_at_put_order; by rewrite Hat).
  rewrite (bind_ok _ _ _ _ _ (read_order_run _ _ _ H2)).
  destruct (is_kept (Order.status o')); simpl; done.
Qed.

Lemma handle_order_unknown message outer forced s id :
  outcome (resolve_id message outer s) = Ok id ->
  Market.by_id s !! id = None ->
  let a := length (Market.order_store s) in
  let o' := reconciled message outer forced false (order_of_message message id) in
  let s1 := Market.set_order_store (Market.order_store s ++ [o']) s in
  handle_order message outer forced s =
    (Ok (a, false),
     if is_kept (Order.status o')
     then set_by_id (<[Order.id o' := a]> (Market.by_id s)) s1
     else s1).
Proof.
  intros Hid%resolve_id_run Hreg a o' s1. unfold handle_order.
  rewrite (bind_ok _ _ _ _ _ Hid).
  unfold look_up_by_id at 1. unfold bind at 1. simpl. rewrite Hreg. simpl.
  unfold bind at 1. unfold create_order_from_message at 1. simpl.
  fold (order_of_message message id). fold a.
  set (o0 := order_of_message message id).
  set (s0 := Market.set_order_store (Market.order_store s ++ [o0]) s).
  assert (H0 : order_at s0 a = Some o0).
  { unfold order_at, s0, a. simpl. by rewrite lookup_app_r, Nat.sub_diag by lia. }
  rewrite (bind_ok _ _ _ _ _ (assign_status_run message forced false a o0 s0 H0)).
  set (o1 := assign_status message forced false o0).
  assert (H1 : order_at (put_order a o1 s0) a = Some o1)
    by (apply order_at_put_order; by rewrite H0).
  rewrite (bind_ok _ _ _ _ _ (attach_error_run outer a o1 _ H1)).
  rewrite put_order_put_order. change (attach_error outer o1) with o'.
  assert (Hs1 : put_order a o' s0 = s1).
  { unfold put_order, s0, s1, a. rewrite set_order_store_twice. simpl.
    by rewrite insert_app_r_alt, Nat.sub_diag by lia. }
  rewrite Hs1.
  assert (H2 : order_at s1 a = Some o').
  { unfold order_at, s1, a. simpl. by rewrite lookup_app_r, Nat.sub_diag by lia. }
  rewrite (bind_ok _ _ _ _ _ (read_order_run _ _ _ H2)).
  destruct (is_kept (Order.status o')); simpl; done.
Qed.

(** ** The registry invariant *)

Lemma reconciled_id message outer forced seen o :
  Order.id (reconciled message outer forced seen o) = Order.id o.
Proof.
  unfold reconciled, attach_error, assign_status.
  repeat (case_match || case_bool_decide); done.
Qed.

Lemma by_id_set_by_id r s : Market.by_id (set_by_id r s) = r.
Proof. done. Qed.

Lemma by_id_put_order a o s : Market.by_id (put_order a o s) = Market.by_id s.
Proof. done. Qed.

Lemma order_at_set_by_id r s a : order_at (set_by_id r s) a = order_at s a.
Proof. done. Qed.

Lemma order_at_put_order_ne a o s b :
  a ≠ b -> order_at (put_order a o s) b = order_at s b.
Proof. intros H. unfold order_at. simpl. by apply list_lookup_insert_ne. Qed.

Lemma order_at_push o s b :
  order_at (Market.set_order_store (Market.order_store s ++ [o]) s) b =
  if decide (b = length (Market.order_store s)) then Some o else order_at s b.
Proof.
  unfold order_at. simpl. case_decide as Hb.
  - subst b. by rewrite lookup_app_r, Nat.sub_diag by lia.
  - destruct (decide (b < length (Market.order_store s))%nat).
    + by rewrite lookup_app_l.
    + rewrite !lookup_ge_None_2; [done| lia |].
      rewrite length_app. simpl. lia.
Qed.

Lemma order_at_lt s a o :
  order_at s a = Some o -> (a < length (Market.order_store s))%nat.
Proof. unfold order_at. apply lookup_lt_Some. Qed.

(** One call keeps the store sound, whether it returns or raises. *)
Lemma handle_order_store_ok message outer forced s :
  store_ok s -> store_ok (state_after (handle_order message outer forced s)).
Proof.
  intros Hok.
  destruct (outcome (resolve_id message outer s)) as [id|e] eqn:Hid.
  2: { by rewrite (handle_order_raised _ _ _ _ _ Hid). }
  destruct (Market.by_id s !! id) as [a|] eqn:Hreg.
  - destruct (Hok _ _ Hreg) as (o & Hat & Ho).
    rewrite (handle_order_known _ _ forced _ _ _ _ Hid Hreg Hat). simpl.
    set (o' := reconciled message outer forced true o).
    assert (Hid' : Order.id o' = id) by (unfold o'; by rewrite reconciled_id).
    assert (Hat' : order_at (put_order a o' s) a = Some o')
      by (apply order_at_put_order; by rewrite Hat).
    destruct (is_kept (Order.status o')) eqn:Hkept; simpl.
    + intros id2 a2 H2. rewrite by_id_put_order in H2.
      destruct (decide (a = a2)) as [<-|Hne].
      * exists o'. split; [done|].
        destruct (Hok _ _ H2) as (o2 & Hat2 & Ho2). congruence.
      * rewrite order_at_put_order_ne by done. by apply Hok.
    + intros id2 a2 H2. rewrite by_id_set_by_id, Hid' in H2.
      apply lookup_delete_Some in H2 as [Hne H2].
      rewrite order_at_set_by_id.
      destruct (Hok _ _ H2) as (o2 & Hat2 & Ho2).
      destruct (decide (a = a2)) as [<-|Hne2]; [congruence|].
      rewrite order_at_put_order_ne by done. eauto.
  - rewrite (handle_order_unknown _ _ forced _ _ Hid Hreg). simpl.
    set (a := length (Market.order_store s)).
    set (o' := reconciled message outer forced false (order_of_message message id)).
    set (s1 := Market.set_order_store (Market.order_store s ++ [o']) s).
    assert (Hid' : Order.id o' = id) by (unfold o'; by rewrite reconciled_id).
    assert (Hold : forall b o, order_at s b = Some o -> order_at s1 b = Some o).
    { intros b o Hb. pose proof (order_at_lt _ _ _ Hb) as Hlt.
      unfold s1. rewrite order_at_push. case_decide; [lia | done]. }
    destruct (is_kept (Order.status o')) eqn:Hkept; simpl.
    + intros id2 a2. rewrite by_id_set_by_id, Hid', order_at_set_by_id.
      intros [[<- <-]|[Hne H2]]%lookup_insert_Some.
      * exists o'. split; [|done]. unfold s1. rewrite order_at_push. fold a.
        by rewrite decide_True.
      * destruct (Hok _ _ H2) as (o2 & Hat2 & Ho2).
        exists o2. split; [|done]. by apply Hold.
    + intros id2 a2 H2. destruct (Hok _ _ H2) as (o2 & Hat2 & Ho2).
      exists o2. split; [|done]. by apply Hold.
Qed.

(** One call keeps the membership invariant, whether it returns or raises. *)
Lemma handle_order_invariant message outer forced s :
  store_ok s -> registry_invariant s ->
  registry_invariant (state_after (handle_order message outer forced s)).
Proof.
  intros Hok Hinv.
  destruct (outcome (resolve_id message outer s)) as [id|e] eqn:Hid.
  2: { by rewrite (handle_order_raised _ _ _ _ _ Hid). }
  destruct (Market.by_id s !! id) as [a|] eqn:Hreg.
  - destruct (Hok _ _ Hreg) as (o & Hat & Ho).
    rewrite (handle_order_known _ _ forced _ _ _ _ Hid Hreg Hat). simpl.
    set (o' := reconciled message outer forced true o).
    assert (Hid' : Order.id o' = id) by (unfold o'; by rewrite reconciled_id).
    assert (Hat' : order_at (put_order a o' s) a = Some o')
      by (apply order_at_put_order; by rewrite Hat).
    destruct (is_kept (Order.status o')) eqn:Hkept; simpl.
    + intros a2 o2 H2. unfold registered. rewrite by_id_put_order.
      destruct (decide (a = a2)) as [<-|Hne].
      * rewrite Hat' in H2. injection H2 as <-. rewrite Hid', Hkept. done.
      * rewrite order_at_put_order_ne in H2 by done. by apply Hinv.
    + intros a2 o2 H2. unfold registered.
      rewrite by_id_set_by_id, Hid'. rewrite order_at_set_by_id in H2.
      destruct (decide (a = a2)) as [<-|Hne].
      * rewrite Hat' in H2. injection H2 as <-.
        rewrite Hid', lookup_delete_eq, Hkept. split; done.
      * rewrite order_at_put_order_ne in H2 by done.
        rewrite <- (Hinv _ _ H2). unfold registered.
        destruct (decide (id = Order.id o2)) as [<-|Hne2].
        -- rewrite lookup_delete_eq, Hreg. split; [done | congruence].
        -- by rewrite lookup_delete_ne.
  - rewrite (handle_order_unknown _ _ forced _ _ Hid Hreg). simpl.
    set (a := length (Market.order_store s)).
    set (o' := reconciled message outer forced false (order_of_message message id)).
    set (s1 := Market.set_order_store (Market.order_store s ++ [o']) s).
    assert (Hid' : Order.id o' = id) by (unfold o'; by rewrite reconciled_id).
    assert (Hnew : forall b o, order_at s1 b = Some o ->
                     (b = a /\ o = o') \/ (b ≠ a /\ order_at s b = Some o)).
    { intros b o. unfold s1. rewrite order_at_push. fold a.
      case_decide; [left | right]; split; congruence. }
    destruct (is_kept (Order.status o')) eqn:Hkept; simpl.
    + intros a2 o2. rewrite order_at_set_by_id. unfold registered.
      rewrite by_id_set_by_id, Hid'.
      intros [[-> ->]|[Hne H2]]%Hnew.
      * rewrite Hid', lookup_insert_eq, Hkept. done.
      * rewrite <- (Hinv _ _ H2). unfold registered.
        destruct (decide (id = Order.id o2)) as [<-|Hne2].
        -- rewrite lookup_insert_eq, Hreg. split; congruence.
        -- by rewrite lookup_insert_ne.
    + intros a2 o2. unfold registered.
      intros [[-> ->]|[Hne H2]]%Hnew.
      * rewrite Hid', Hkept. change (Market.by_id s1) with (Market.by_id s).
        rewrite Hreg. split; done.
      * rewrite <- (Hinv _ _ H2). done.
Qed.

Lemma store_ok_init id name code cp pairs hooks :
  store_ok (Market.init id name code cp pairs hooks).
Proof. intros i a H. cbv [Market.init Market.by_id Trader.empty Orders.empty Market.trader Trader.orders Orders.by_id] in H. by rewrite lookup_empty in H. Qed.

Lemma registry_invariant_init id name code cp pairs hooks :
  registry_invariant (Market.init id name code cp pairs hooks).
Proof. intros a o H. cbv [order_at Market.init Market.order_store] in H. by rewrite lookup_nil in H. Qed.

Lemma reconcile_all_invariant cs s :
  store_ok s -> registry_invariant s ->
  store_ok (reconcile_all cs s) /\ registry_invariant (reconcile_all cs s).
Proof.
  revert s. induction cs as [|c cs IH]; intros s Hok Hinv; [done|].
  simpl. apply IH; [by apply handle_order_store_ok | by apply handle_order_invariant].
Qed.

(** C2. After every sequence of calls of [handle_order], with or without a
    forced status, returning or raising, every order object is held by the
    registry under its identifier if and only if its status is ACCEPTED or
    PARTIAL; this from any state in which it was so, such as a fresh market. *)
Theorem registry_membership_invariant (cs : list Reconciliation) (s : Market.t) :
  store_ok s -> registry_invariant s ->
  forall a o, order_at (reconcile_all cs s) a = Some o ->
    (Market.by_id (reconcile_all cs s) !! Order.id o = Some a
     <-> Order.status o = Some ACCEPTED \/ Order.status o = Some PARTIAL).
Proof.
  intros Hok Hinv a o Hat.
  destruct (reconcile_all_invariant cs s Hok Hinv) as [_ H].
  specialize (H a o Hat). unfold registered in H. rewrite H.
  apply is_kept_true.
Qed.

(** ** The status of a reconciled order *)

Lemma reconciled_status message outer forced seen o :
  Order.status (reconciled message outer forced seen o) =
  Order.status (assign_status message forced seen o).
Proof. unfold reconciled, attach_error. repeat case_match; done. Qed.

Lemma reconciled_quantity message outer forced seen o :
  Order.quantity (reconciled message outer forced seen o) = Order.quantity o.
Proof.
  unfold reconciled, attach_error, assign_status.
  repeat (case_match || case_bool_decide); done.
Qed.

(** What [handle_order] returns and where it leaves the reconciled order,
    in one statement for both cases. *)
Lemma handle_order_returns message outer forced s id :
  store_ok s ->
  outcome (resolve_id message outer s) = Ok id ->
  let r := handle_order message outer forced s in
  match Market.by_id s !! id with
  | Some a =>
    exists o, order_at s a = Some o /\ Order.id o = id /\
      outcome r = Ok (a, true) /\
      order_at (state_after r) a = Some (reconciled message outer forced true o)
  | None =>
    outcome r = Ok (length (Market.order_store s), false) /\
    order_at (state_after r) (length (Market.order_store s)) =
      Some (reconciled message outer forced false (order_of_message message id))
  end.
Proof.
  intros Hok Hid r. unfold r.
  destruct (Market.by_id s !! id) as [a|] eqn:Hreg.
  - destruct (Hok _ _ Hreg) as (o & Hat & Ho). exists o.
    rewrite (handle_order_known _ _ forced _ _ _ _ Hid Hreg Hat).
    repeat split; [done..|]. simpl.
    destruct (is_kept _); [|rewrite order_at_set_by_id];
      apply order_at_put_order; by rewrite Hat.
  - rewrite (handle_order_unknown _ _ forced _ _ Hid Hreg).
    split; [done|]. simpl.
    destruct (is_kept _); [rewrite order_at_set_by_id|];
      rewrite order_at_push; by rewrite decide_True.
Qed.

(** C7. When the identifier resolves, [handle_order] returns the order and
    whether the registry knew it, and the status it leaves in the order is:
    the status of the message when the message has one; otherwise the forced
    status when one is given; otherwise, for an order the registry did not
    know, ACCEPTED when the original quantity of the message equals the
    quantity stored in the order and PARTIAL when it does not; and for an
    order the registry knew, the status the order had. *)
Theorem status_priority (message : OrderMessage.t) (outer : option Message.t)
    (forced : option OrderStatus) (s : Market.t) (id : UUID) :
  store_ok s ->
  outcome (resolve_id message outer s) = Ok id ->
  let r := handle_order message outer forced s in
  let seen := bool_decide (is_Some (Market.by_id s !! id)) in
  exists a o',
    outcome r = Ok (a, seen) /\
    order_at (state_after r) a = Some o' /\
    match OrderMessage.status message, forced with
    | Some st, _ => Order.status o' = Some st
    | None, Some st => Order.status o' = Some st
    | None, None =>
      if seen
      then exists o, order_at s a = Some o /\ Order.status o' = Order.status o
      else Order.status o' =
             Some (if bool_decide (OrderMessage.orig_quantity message = Order.quantity o')
                   then ACCEPTED else PARTIAL)
    end.
Proof.
  intros Hok Hid r seen.
  pose proof (handle_order_returns message outer forced s id Hok Hid) as H.
  fold r in H. unfold seen.
  destruct (Market.by_id s !! id) as [a|].
  - destruct H as (o & Hat & Ho & Hr & Hat').
    exists a, (reconciled message outer forced true o).
    rewrite bool_decide_eq_true_2 by eauto.
    split; [done|]. split; [done|].
    rewrite reconciled_status. unfold assign_status.
    destruct (OrderMessage.status message); [done|].
    destruct forced; [done|]. eauto.
  - destruct H as (Hr & Hat').
    eexists _, _. rewrite bool_decide_eq_false_2 by (by intros [? ?]).
    split; [done|]. split; [done|].
    rewrite reconciled_quantity, reconciled_status. unfold assign_status.
    destruct (OrderMessage.status message); [done|].
    destruct forced; [done|]. simpl.
    repeat case_bool_decide; done.
Qed.

(** ** Delivering a message twice *)

Lemma reconciled_again message outer forced seen o :
  reconciled message outer forced true (reconciled message outer forced seen o) =
  reconciled message outer forced seen o.
Proof.
  unfold reconciled, attach_error, assign_status. destruct o.
  repeat (case_match || case_bool_decide); done.
Qed.

Lemma reconciled_same_terms message outer forced seen o :
  same_terms o (reconciled message outer forced seen o).
Proof.
  unfold same_terms, reconciled, attach_error, assign_status.
  repeat (case_match || case_bool_decide); done.
Qed.

Lemma reconciled_error_code message outer forced seen o :
  Order.error_code (reconciled message outer forced seen o) =
  match outer with
  | Some outer =>
    if bool_decide (Message.error_code outer ≠ 0)
    then Some (Message.error_code outer) else Order.error_code o
  | None => Order.error_code o
  end.
Proof.
  unfold reconciled, attach_error, assign_status.
  repeat (case_match || case_bool_decide); done.
Qed.

(** C6, as amended. A second call of [handle_order] with the same arguments
    leaves the registry as the first call left it, leaves the order returned
    by the first call untouched, and returns an order with the same
    identifier and status. If the first call left the order in the registry,
    the second returns that same object, unchanged and reported as seen. If
    it did not, the second returns an object that did not exist before,
    reported as unseen, whose price, quantity, side, type and duration are
    those of the message and whose error code is the non-zero error code of
    the envelope, if any: an equal copy when the first call built the order
    itself, another order when the first call removed one the registry knew.
    A call that raised raises again. The registry invariant is needed only
    for a message without a status, reconciled without a forced status. *)
Theorem redelivery_is_idempotent (message : OrderMessage.t)
    (outer : option Message.t) (forced : option OrderStatus) (s : Market.t) :
  store_ok s ->
  (OrderMessage.status message = None -> forced = None -> registry_invariant s) ->
  let r1 := handle_order message outer forced s in
  let s1 := state_after r1 in
  let r2 := handle_order message outer forced s1 in
  let s2 := state_after r2 in
  Market.by_id s2 = Market.by_id s1 /\
  match outcome r1 with
  | Raised e => outcome r2 = Raised e
  | Ok (a1, seen1) =>
    exists a2 seen2 o1 o2,
      outcome r2 = Ok (a2, seen2) /\
      order_at s1 a1 = Some o1 /\
      order_at s2 a2 = Some o2 /\
      order_at s2 a1 = Some o1 /\
      Order.status o2 = Order.status o1 /\
      Order.id o2 = Order.id o1 /\
      (seen1 = false \/ is_kept (Order.status o1) = true -> o2 = o1) /\
      (if is_kept (Order.status o1)
       then a2 = a1 /\ seen2 = true
       else seen2 = false /\ order_at s1 a2 = None) /\
      (seen2 = false ->
       Order.price o2 = OrderMessage.price message /\
       Order.quantity o2 = OrderMessage.quantity message /\
       Order.side o2 = OrderMessage.side message /\
       Order.type o2 = OrderMessage.order_type message /\
       Order.duration o2 = OrderMessage.duration message /\
       Order.error_code o2 =
         match outer with
         | Some envelope =>
           if bool_decide (Message.error_code envelope ≠ 0)
           then Some (Message.error_code envelope) else None
         | None => None
         end)
  end.
Proof.
  intros Hok Hinv r1 s1 r2 s2.
  destruct (outcome (resolve_id message outer s)) as [id|e] eqn:Hid.
  2: { assert (Hr1 : r1 = (Raised e, s)) by by apply handle_order_raised.
       clearbody r1. subst r1.
       assert (Hr2 : r2 = (Raised e, s)) by by apply handle_order_raised.
       clearbody r2. subst r2. done. }
  assert (Hid' : forall s', outcome (resolve_id message outer s') = Ok id)
    by (intros s'; by rewrite (resolve_id_any_state _ _ s)).
  set (o0 := order_of_message message id).
  assert (Hnew : forall o2, o2 = reconciled message outer forced false o0 ->
            Order.price o2 = OrderMessage.price message /\
            Order.quantity o2 = OrderMessage.quantity message /\
            Order.side o2 = OrderMessage.side message /\
            Order.type o2 = OrderMessage.order_type message /\
            Order.duration o2 = OrderMessage.duration message /\
            Order.error_code o2 =
              match outer with
              | Some envelope =>
                if bool_decide (Message.error_code envelope ≠ 0)
                then Some (Message.error_code envelope) else None
              | None => None
              end).
  { intros o2 ->. rewrite reconciled_error_code.
    destruct (reconciled_same_terms message outer forced false o0)
      as (_ & -> & -> & -> & -> & ->). done. }
  destruct (Market.by_id s !! id) as [a|] eqn:Hreg.
  - destruct (Hok _ _ Hreg) as (o & Hat & Ho).
    pose proof (handle_order_known _ _ forced _ _ _ _ Hid Hreg Hat) as Hr1.
    fold r1 in Hr1. cbv zeta in Hr1.
    set (o1 := reconciled message outer forced true o) in Hr1.
    assert (Ho1 : Order.id o1 = id) by (unfold o1; by rewrite reconciled_id).
    assert (Hat1 : order_at (put_order a o1 s) a = Some o1)
      by (apply order_at_put_order; by rewrite Hat).
    clearbody r1. subst r1.
    destruct (is_kept (Order.status o1)) eqn:Hkept;
      unfold state_after in s1; simpl snd in s1.
    + pose proof (handle_order_known _ _ forced (put_order a o1 s) id a o1
                    (Hid' _) Hreg Hat1) as Hr2.
      cbv zeta in Hr2.
      rewrite (reconciled_again message outer forced true o
               : reconciled _ _ _ true o1 = o1) in Hr2.
      rewrite Hkept, put_order_put_order in Hr2.
      fold s1 r2 in Hr2. clearbody r2. subst r2.
      split; [done|]. exists a, true, o1, o1. rewrite Hkept. done.
    + assert (Hreg1 : Market.by_id s1 !! id = None).
      { unfold s1. rewrite by_id_set_by_id, Ho1. apply lookup_delete_eq. }
      pose proof (handle_order_unknown _ _ forced s1 id (Hid' _) Hreg1) as Hr2.
      fold r2 in Hr2. cbv zeta in Hr2. fold o0 in Hr2.
      set (o2 := reconciled message outer forced false o0) in Hr2.
      assert (Hst : Order.status o2 = Order.status o1).
      { unfold o2, o1. rewrite !reconciled_status. unfold assign_status.
        destruct (OrderMessage.status message) eqn:Hm; [done|].
        destruct forced; [done|]. exfalso.
        unfold o1 in Hkept. rewrite reconciled_status in Hkept.
        unfold assign_status in Hkept. rewrite Hm in Hkept.
        assert (Hk : is_kept (Order.status o) = true)
          by (apply (Hinv eq_refl eq_refl _ _ Hat); unfold registered; by rewrite Ho).
        congruence. }
      rewrite Hst, Hkept in Hr2.
      clearbody r2. subst r2.
      split; [done|].
      exists (length (Market.order_store s1)), false, o1, o2.
      split; [done|]. split; [done|].
      change s2 with (Market.set_order_store (Market.order_store s1 ++ [o2]) s1).
      rewrite !order_at_push. rewrite decide_True by done.
      split; [done|]. split.
      * rewrite decide_False; [exact Hat1|].
        apply order_at_lt in Hat1. unfold s1. simpl in *. lia.
      * split; [done|]. split; [unfold o2; by rewrite reconciled_id, Ho1|].
        split; [intros [|]; congruence|]. rewrite Hkept.
        split; [split; [done|]; by apply lookup_ge_None_2|].
        intros _. by apply Hnew.
  - pose proof (handle_order_unknown _ _ forced _ _ Hid Hreg) as Hr1.
    fold r1 in Hr1. cbv zeta in Hr1. fold o0 in Hr1.
    set (a := length (Market.order_store s)) in Hr1.
    set (o1 := reconciled message outer forced false o0) in Hr1.
    assert (Ho1 : Order.id o1 = id) by (unfold o1; by rewrite reconciled_id).
    set (s0 := Market.set_order_store (Market.order_store s ++ [o1]) s) in Hr1.
    assert (Hat0 : order_at s0 a = Some o1)
      by (unfold s0; rewrite order_at_push; by rewrite decide_True).
    clearbody r1. subst r1.
    destruct (is_kept (Order.status o1)) eqn:Hkept;
      unfold state_after in s1; simpl snd in s1.
    + assert (Hreg1 : Market.by_id s1 !! id = Some a).
      { unfold s1. rewrite by_id_set_by_id, Ho1. apply lookup_insert_eq. }
      assert (Hat1 : order_at s1 a = Some o1) by done.
      pose proof (handle_order_known _ _ forced s1 id a o1 (Hid' _) Hreg1 Hat1) as Hr2.
      fold r2 in Hr2. cbv zeta in Hr2.
      rewrite (reconciled_again message outer forced false _
               : reconciled _ _ _ true o1 = o1) in Hr2.
      rewrite Hkept, (put_order_same _ _ _ Hat1) in Hr2.
      clearbody r2. subst r2.
      split; [done|]. exists a, true, o1, o1. rewrite Hkept. done.
    + assert (Hreg0 : Market.by_id s1 !! id = None) by done.
      pose proof (handle_order_unknown _ _ forced s1 id (Hid' _) Hreg0) as Hr2.
      fold r2 in Hr2. cbv zeta in Hr2. fold o0 o1 in Hr2.
      rewrite Hkept in Hr2.
      clearbody r2. subst r2.
      split; [done|].
      exists (length (Market.order_store s1)), false, o1, o1.
      split; [done|]. split; [done|].
      change s2 with (Market.set_order_store (Market.order_store s1 ++ [o1]) s1).
      rewrite !order_at_push. rewrite decide_True by done.
      split; [done|]. split.
      * rewrite decide_False; [exact Hat0|].
        apply order_at_lt in Hat0. unfold s1. simpl in *. lia.
      * split; [done|]. split; [done|]. split; [done|]. rewrite Hkept.
        split; [split; [done|]; by apply lookup_ge_None_2|].
        intros _. by apply Hnew.
Qed.

(** ** Frame rules *)

Lemma state_after_bind {A B} (m : M A) (k : A -> M B) s :
  state_after (bind m k s) =
  match outcome (m s) with
  | Ok a => state_after (k a (state_after (m s)))
  | Raised _ => state_after (m s)
  end.
Proof. unfold bind, state_after, outcome. by destruct (m s) as [[a|e] s']. Qed.

Lemma outcome_bind {A B} (m : M A) (k : A -> M B) s :
  outcome (bind m k s) =
  match outcome (m s) with
  | Ok a => outcome (k a (state_after (m s)))
  | Raised e => Raised e
  end.
Proof. unfold bind, state_after, outcome. by destruct (m s) as [[a|e] s']. Qed.

Section steps.
Context (R : relation Market.t) (HR : PreOrder R).

Lemma steps_ret {A} (a : A) : steps R (ret a).
Proof. intros s. reflexivity. Qed.

Lemma steps_raise {A} e : steps R (@raise A e).
Proof. intros s. reflexivity. Qed.

Lemma steps_get : steps R get.
Proof. intros s. reflexivity. Qed.

Lemma steps_modify g : (forall s, R s (g s)) -> steps R (modify g).
Proof. intros H s. apply H. Qed.

Lemma steps_bind {A B} (m : M A) (k : A -> M B) :
  steps R m -> (forall a, steps R (k a)) -> steps R (bind m k).
Proof.
  intros Hm Hk s. rewrite state_after_bind.
  destruct (outcome (m s)); [|apply Hm].
  transitivity (state_after (m s)); [apply Hm | apply Hk].
Qed.

Lemma steps_for_each {A} (body : A -> M unit) l :
  (forall x, steps R (body x)) -> steps R (for_each body l).
Proof.
  intros H. induction l as [|x l IH]; simpl.
  - apply steps_ret.
  - apply steps_bind; [apply H | intros _; apply IH].
Qed.
End steps.

Lemma keeps_preorder {X} (f : Market.t -> X) :
  PreOrder (fun s s' => f s' = f s).
Proof. split; [by intros s | intros s1 s2 s3 H1 H2; congruence]. Qed.

Lemma extends_pending_preorder : PreOrder extends_pending.
Proof.
  split.
  - intros s. split; [exists []; by rewrite app_nil_r | done].
  - intros s1 s2 s3 [[l1 H1] N1] [[l2 H2] N2]. split; [|tauto].
    exists (l1 ++ l2). by rewrite H2, H1, app_assoc.
Qed.

Lemma extends_pending_same s s' :
  Market.scheduled_events s' = Market.scheduled_events s -> extends_pending s s'.
Proof. intros H. split; [exists []; by rewrite app_nil_r | by rewrite H]. Qed.

Lemma schedule_event_extends event : steps extends_pending (schedule_event event).
Proof.
  intros s. unfold schedule_event, modify, state_after. simpl.
  case_bool_decide as Hin; [by apply extends_pending_same|]. split; simpl.
  - by exists [event].
  - intros Hnd. apply NoDup_app. split; [done|]. split.
    + intros x Hx ->%list_elem_of_singleton. done.
    + apply NoDup_singleton.
Qed.

Lemma returns_ret {A} (a : A) : returns (ret a).
Proof. intros s. by exists a. Qed.

Lemma returns_get : returns get.
Proof. intros s. by exists s. Qed.

Lemma returns_modify g : returns (modify g).
Proof. intros s. by exists tt. Qed.

Lemma returns_bind {A B} (m : M A) (k : A -> M B) :
  returns m -> (forall a, returns (k a)) -> returns (bind m k).
Proof.
  intros Hm Hk s. destruct (Hm s) as [a Ha]. rewrite outcome_bind, Ha. apply Hk.
Qed.

Lemma returns_unit (m : M unit) s : returns m -> outcome (m s) = Ok tt.
Proof. intros H. by destruct (H s) as [[] ->]. Qed.

(** The handlers are built from a few primitives; these tactics walk
    through a handler and leave one goal per primitive. *)
Ltac unfold_handlers :=
  unfold handle_message, flush, dispatch,
    handle_trader_status_msg, handle_trader_balance_msg,
    handle_exchange_rate_msg, handle_order_book_msg,
    handle_order_book_updated_msg, handle_order_status_msg,
    handle_order_filled_message, handle_order_canceled_msg,
    handle_leverage_msg, handle_balance, handle_leverage, handle_position,
    set_position_margin, handle_order_margin, handle_mark_price,
    handle_last_trade, populate_bids, populate_asks, populate_side,
    order_book_request_of_bot, create_task, emit_event,
    handle_order, resolve_id, UUID_of_bytes, look_up_by_id,
    create_order_from_message, update_order, read_order,
    Orders_add, Orders_remove, modify_orders, modify_trader.

Ltac steps_walk HR prim side :=
  repeat first
    [ apply (steps_ret _ HR) | apply (steps_raise _ HR) | apply (steps_get _ HR)
    | prim
    | apply (steps_bind _ HR); [|intros ?]
    | apply (steps_for_each _ HR); intros ?
    | apply steps_modify; intros ?; side
    | case_match ].

(** For a projection that no primitive of the handler writes. *)
Ltac keeps_walk :=
  unfold keeps; unfold_handlers; unfold schedule_event;
  match goal with
  | |- steps (fun s s' => ?f s' = ?f s) _ =>
    steps_walk (keeps_preorder f) fail ltac:(repeat case_match; reflexivity)
  end.

(** For the pending list, written by [schedule_event] alone. *)
Ltac extends_walk :=
  unfold_handlers;
  steps_walk extends_pending_preorder
             ltac:(apply schedule_event_extends)
             ltac:(apply extends_pending_same; repeat case_match; reflexivity).

Lemma dispatch_keeps_called message : keeps Market.called (dispatch message).
Proof. keeps_walk. Qed.

Lemma dispatch_keeps_hooks message : keeps Market.hooks (dispatch message).
Proof. keeps_walk. Qed.

Lemma dispatch_extends_pending message : steps extends_pending (dispatch message).
Proof. extends_walk. Qed.

(** ** The flush *)

Lemma emit_event_run event s :
  let s1 := Market.set_called (Market.called s ++ [event]) s in
  emit_event event s =
  match Market.hooks s event with
  | ReturnsNone => (Ok tt, s1)
  | ReturnsCoroutine => (Ok tt, Market.set_tasks (Market.tasks s ++ [reaction event]) s1)
  | ReturnsOther => (Raised TypeError, s1)
  end.
Proof. unfold emit_event, bind. simpl. by destruct (Market.hooks s event). Qed.

Lemma emit_event_keeps_hooks event : keeps Market.hooks (emit_event event).
Proof. keeps_walk. Qed.

Lemma emit_event_keeps_pending event : keeps Market.scheduled_events (emit_event event).
Proof. keeps_walk. Qed.

Lemma emit_event_called event s :
  Market.called (state_after (emit_event event s)) = Market.called s ++ [event].
Proof. rewrite emit_event_run. by destruct (Market.hooks s event). Qed.

Lemma emit_event_outcome event s :
  outcome (emit_event event s) =
  match Market.hooks s event with
  | ReturnsOther => Raised TypeError
  | _ => Ok tt
  end.
Proof. rewrite emit_event_run. by destruct (Market.hooks s event). Qed.

Lemma for_each_cons {A} (body : A -> M unit) x l :
  for_each body (x :: l) = (body x >> for_each body l).
Proof. done. Qed.

(** The loop when every hook behaves: all are called, in order. *)
Lemma for_each_emit_ok l s :
  (forall e, e ∈ l -> Market.hooks s e ≠ ReturnsOther) ->
  let r := for_each emit_event l s in
  outcome r = Ok tt /\
  Market.called (state_after r) = Market.called s ++ l.
Proof.
  revert s. induction l as [|e l IH]; intros s Hl; cbv zeta.
  - split; [done|]. simpl. by rewrite app_nil_r.
  - rewrite for_each_cons, outcome_bind, state_after_bind, emit_event_outcome.
    assert (He : Market.hooks s e ≠ ReturnsOther) by (apply Hl; left).
    destruct (IH (state_after (emit_event e s))) as [Hr Hc].
    { intros x Hx. rewrite emit_event_keeps_hooks. apply Hl. by right. }
    destruct (Market.hooks s e); [..|done];
      by rewrite Hc, Hr, emit_event_called, <- app_assoc.
Qed.

(** The loop when the hook of [e] is the first to misbehave: it stops
    there. *)
Lemma for_each_emit_raises l1 e l2 s :
  (forall x, x ∈ l1 -> Market.hooks s x ≠ ReturnsOther) ->
  Market.hooks s e = ReturnsOther ->
  let r := for_each emit_event (l1 ++ e :: l2) s in
  outcome r = Raised TypeError /\
  Market.called (state_after r) = Market.called s ++ l1 ++ [e].
Proof.
  revert s. induction l1 as [|x l1 IH]; intros s Hl He; cbv zeta.
  - rewrite app_nil_l, for_each_cons.
    rewrite outcome_bind, state_after_bind, emit_event_outcome, He.
    by rewrite emit_event_called.
  - rewrite <- app_comm_cons, for_each_cons, outcome_bind, state_after_bind, emit_event_outcome.
    assert (Hx : Market.hooks s x ≠ ReturnsOther) by (apply Hl; left).
    destruct (IH (state_after (emit_event x s))) as [Hr Hc].
    { intros y Hy. rewrite emit_event_keeps_hooks. apply Hl. by right. }
    { by rewrite emit_event_keeps_hooks. }
    cbv zeta in Hr, Hc.
    destruct (Market.hooks s x); [..|done];
      by rewrite Hc, Hr, emit_event_called, <- app_assoc.
Qed.

(** The loop in general: what it calls is a beginning of the list, and not
    an empty one unless the list is empty. *)
Lemma for_each_emit_prefix l s :
  exists fired,
    Market.called (state_after (for_each emit_event l s)) = Market.called s ++ fired /\
    fired `prefix_of` l /\ (l ≠ [] -> fired ≠ []).
Proof.
  revert s. induction l as [|e l IH]; intros s.
  - exists []. simpl. by rewrite app_nil_r.
  - rewrite for_each_cons, state_after_bind.
    destruct (IH (state_after (emit_event e s))) as (fired & Hc & Hp & _).
    destruct (outcome (emit_event e s)).
    + exists (e :: fired). rewrite Hc, emit_event_called, <- app_assoc.
      split; [done|]. split; [by apply prefix_cons | done].
    + exists [e]. rewrite emit_event_called.
      split; [done|]. split; [|done]. by apply prefix_cons, prefix_nil.
Qed.

Lemma for_each_emit_keeps_pending l :
  keeps Market.scheduled_events (for_each emit_event l).
Proof.
  apply (steps_for_each _ (keeps_preorder _)). apply emit_event_keeps_pending.
Qed.

Lemma flush_called s :
  exists fired,
    Market.called (state_after (flush s)) = Market.called s ++ fired /\
    fired `prefix_of` Market.scheduled_events s /\
    (Market.scheduled_events s ≠ [] -> fired ≠ []).
Proof.
  destruct (for_each_emit_prefix (Market.scheduled_events s) s) as (fired & Hc & Hp).
  exists fired. split; [|done]. unfold flush.
  rewrite state_after_bind.
  change (outcome (get s)) with (Ok (A:=Market.t) s).
  change (state_after (get s)) with s. cbv beta iota.
  rewrite state_after_bind.
  by destruct (outcome (for_each emit_event (Market.scheduled_events s) s)).
Qed.

(** ** Coalescing *)

Lemma handle_balance_first message s :
  Market.scheduled_events s = [] ->
  outcome (handle_balance message s) = Ok tt /\
  Market.scheduled_events (state_after (handle_balance message s)) = [trader_on_update].
Proof.
  intros H. split; [done|].
  unfold handle_balance, modify_trader, schedule_event, bind, modify, state_after.
  simpl. by rewrite H.
Qed.

Lemma trader_status_pending message s :
  Market.scheduled_events s = [] ->
  exists l,
    Market.scheduled_events (state_after (handle_trader_status_msg message s)) =
      trader_on_update :: l /\
    NoDup (trader_on_update :: l).
Proof.
  intros H. destruct (handle_balance_first message s H) as [Hr Hp].
  unfold handle_trader_status_msg. rewrite state_after_bind, Hr.
  match goal with
  | |- context [state_after (?rest (state_after (handle_balance message s)))] =>
    assert (Hext : steps extends_pending rest) by extends_walk;
    destruct (Hext (state_after (handle_balance message s))) as [[l Hl] Hnd]
  end.
  rewrite Hp in Hl, Hnd. exists l. split; [done|].
  rewrite Hl in Hnd. apply Hnd, NoDup_singleton.
Qed.

Lemma schedule_event_again event s :
  let s1 := state_after (schedule_event event s) in
  event ∈ Market.scheduled_events s1 /\ state_after (schedule_event event s1) = s1.
Proof.
  unfold schedule_event, modify, state_after. simpl.
  case_bool_decide as Hin; simpl.
  - split; [done|]. by rewrite bool_decide_eq_true_2.
  - assert (event ∈ Market.scheduled_events s ++ [event])
      by (apply elem_of_app; right; by left).
    split; [done|]. by rewrite bool_decide_eq_true_2.
Qed.

Lemma flush_ok s :
  (forall e, e ∈ Market.scheduled_events s -> Market.hooks s e ≠ ReturnsOther) ->
  outcome (flush s) = Ok tt /\
  Market.called (state_after (flush s)) = Market.called s ++ Market.scheduled_events s /\
  Market.scheduled_events (state_after (flush s)) = [].
Proof.
  intros H. destruct (for_each_emit_ok _ s H) as [Hr Hc]. cbv zeta in Hr, Hc.
  unfold flush. rewrite outcome_bind, state_after_bind.
  change (outcome (get s)) with (Ok (A:=Market.t) s).
  change (state_after (get s)) with s. cbv beta iota.
  rewrite outcome_bind, state_after_bind, Hr. done.
Qed.

(** C5. Scheduling a callback that is already pending changes nothing, so a
    callback is pending at most once; when no pending callback returns an
    unsupported value, the flush returns, has called exactly the pending
    callbacks, each once and in order, and leaves the list empty; and a
    trader-status message handled from an empty pending list, whose handlers
    return, has [trader.on_update] called exactly once. *)
Theorem notifications_coalesce :
  (forall event s,
     let s1 := state_after (schedule_event event s) in
     event ∈ Market.scheduled_events s1 /\
     state_after (schedule_event event s1) = s1 /\
     (NoDup (Market.scheduled_events s) -> NoDup (Market.scheduled_events s1))) /\
  (forall s,
     NoDup (Market.scheduled_events s) ->
     (forall e, e ∈ Market.scheduled_events s -> Market.hooks s e ≠ ReturnsOther) ->
     exists fired,
       outcome (flush s) = Ok tt /\
       Market.called (state_after (flush s)) = Market.called s ++ fired /\
       fired = Market.scheduled_events s /\ NoDup fired /\
       Market.scheduled_events (state_after (flush s)) = []) /\
  (forall p client_id error_code s,
     let message := Message.make (trader_status_msg p) client_id error_code in
     Market.scheduled_events s = [] ->
     outcome (dispatch message s) = Ok tt ->
     exists fired,
       Market.called (state_after (handle_message message s)) = Market.called s ++ fired /\
       NoDup fired /\ trader_on_update ∈ fired).
Proof.
  split; [|split].
  - intros event s s1. destruct (schedule_event_again event s) as [H1 H2].
    split; [done|]. split; [done|]. apply schedule_event_extends.
  - intros s Hnd Hh. destruct (flush_ok s Hh) as (Hr & Hc & Hp).
    by exists (Market.scheduled_events s).
  - intros p cid err s message Hs Hd.
    destruct (trader_status_pending p s Hs) as (l & Hl & Hnd).
    change (handle_trader_status_msg p s) with (dispatch message s) in Hl.
    unfold handle_message. rewrite state_after_bind, Hd.
    destruct (flush_called (state_after (dispatch message s)))
      as (fired & Hc & [k Hk] & Hne).
    exists fired. rewrite Hc, dispatch_keeps_called. split; [done|].
    rewrite Hl in Hk, Hne. split.
    + rewrite Hk in Hnd. by apply NoDup_app in Hnd as [? _].
    + destruct fired as [|e fired]; [by destruct Hne|].
      injection Hk as <- _. by left.
Qed.

(** C8. A hook that returns nothing lets [emit_event] return with nothing
    done but the call; a coroutine is handed to [create_task]; any other
    value makes [emit_event] raise [TypeError].  In [handle_message] the
    exception is not caught: the callbacks pending after the offending one
    are not called and the pending list is not cleared. *)
Theorem unsupported_return_fails_loudly :
  (forall event s,
     let r := emit_event event s in
     Market.called (state_after r) = Market.called s ++ [event] /\
     match Market.hooks s event with
     | ReturnsNone =>
       outcome r = Ok tt /\ Market.tasks (state_after r) = Market.tasks s
     | ReturnsCoroutine =>
       outcome r = Ok tt /\
       Market.tasks (state_after r) = Market.tasks s ++ [reaction event]
     | ReturnsOther =>
       outcome r = Raised TypeError /\ Market.tasks (state_after r) = Market.tasks s
     end) /\
  (forall message s l1 e l2,
     outcome (dispatch message s) = Ok tt ->
     Market.scheduled_events (state_after (dispatch message s)) = l1 ++ e :: l2 ->
     (forall x, x ∈ l1 -> Market.hooks s x ≠ ReturnsOther) ->
     Market.hooks s e = ReturnsOther ->
     let r := handle_message message s in
     outcome r = Raised TypeError /\
     Market.called (state_after r) = Market.called s ++ l1 ++ [e] /\
     Market.scheduled_events (state_after r) = l1 ++ e :: l2).
Proof.
  split.
  - intros event s r. unfold r. rewrite emit_event_run.
    by destruct (Market.hooks s event).
  - intros message s l1 e l2 Hd Hp Hl He r. unfold r, handle_message.
    rewrite outcome_bind, state_after_bind, Hd.
    set (s1 := state_after (dispatch message s)) in *.
    assert (Hh : Market.hooks s1 = Market.hooks s) by apply dispatch_keeps_hooks.
    destruct (for_each_emit_raises l1 e l2 s1) as [Hr Hc].
    { intros x Hx. rewrite Hh. by apply Hl. }
    { by rewrite Hh. }
    cbv zeta in Hr, Hc. unfold flush.
    rewrite outcome_bind, state_after_bind.
    change (outcome (get s1)) with (Ok (A:=Market.t) s1).
    change (state_after (get s1)) with s1. cbv beta iota.
    rewrite outcome_bind, state_after_bind, Hp, Hr.
    split; [done|]. split.
    + rewrite Hc. f_equal. apply dispatch_keeps_called.
    + by rewrite for_each_emit_keeps_pending.
Qed.

(** ** Incremental updates of the order book *)

Lemma schedule_event_keeps_order_book event :
  keeps Market.order_book (schedule_event event).
Proof. keeps_walk. Qed.

Lemma schedule_event_keeps_tasks event : keeps Market.tasks (schedule_event event).
Proof. keeps_walk. Qed.

Lemma handle_last_trade_run message s :
  handle_last_trade message s =
  (Ok tt,
   state_after
     (schedule_event last_trade_on_update
        (Market.set_last_trade
           (Some (Trade.make (Some (Payload.last_trade_price message))
                    (Some (Payload.last_trade_quantity message))
                    (Some (Payload.last_trade_timestamp message)))) s))).
Proof.
  unfold handle_last_trade, bind, modify, schedule_event, state_after. simpl.
  by destruct s as [? ? ? ? ? ? ? [lt|] ? ? ? ? ? ?].
Qed.

Lemma handle_last_trade_twice message s :
  (handle_last_trade message >> handle_last_trade message) s =
  handle_last_trade message s.
Proof.
  unfold bind. rewrite !handle_last_trade_run.
  unfold schedule_event, modify, state_after. simpl.
  destruct (decide (last_trade_on_update ∈ Market.scheduled_events s)) as [Hin|Hin].
  - rewrite !(bool_decide_eq_true_2 _ Hin). simpl. by destruct s.
  - rewrite !(bool_decide_eq_false_2 _ Hin). simpl.
    rewrite bool_decide_eq_true_2; [|apply elem_of_app; right; by left].
    by destruct s.
Qed.

Lemma handle_order_book_msg_book message s s' :
  Market.order_book s = Market.order_book s' ->
  Market.order_book (state_after (handle_order_book_msg message s)) =
  Market.order_book (state_after (handle_order_book_msg message s')).
Proof.
  intros H.
  unfold handle_order_book_msg, populate_bids, populate_asks, populate_side,
    handle_last_trade, handle_mark_price, schedule_event,
    bind, get, modify, ret, raise, state_after.
  simpl. rewrite <- H.
  destruct (OrderBook.bids (Market.order_book s)) as [bids|];
    [destruct (OrderBook.asks (Market.order_book s)) as [asks|] eqn:Hasks|];
    simpl; try rewrite Hasks; simpl; repeat case_match; simpl;
    rewrite <- ?H, ?Hasks; done.
Qed.

Lemma uninitialized_update_run message s b :
  OrderBook.bids (Market.order_book s) = None ->
  Market.bot s = Some b ->
  handle_order_book_updated_msg message s =
  handle_last_trade message
    (Market.set_tasks (Market.tasks s ++ [order_book_request (Market.id s)]) s).
Proof.
  intros Hb Hbot.
  change (handle_order_book_updated_msg message)
    with (let* s := get in
          (match OrderBook.bids (Market.order_book s) with
           | Some _ =>
             populate_bids (Payload.bid_updates message) >>
             populate_asks (Payload.ask_updates message) >>
             schedule_event order_book_on_update
           | None => let* request := order_book_request_of_bot in create_task request
           end) >>
          (handle_last_trade message >> handle_last_trade message)).
  unfold bind at 1. simpl. rewrite Hb.
  unfold bind at 1. unfold order_book_request_of_bot, create_task.
  unfold bind at 1 2. simpl. rewrite Hbot. simpl.
  apply handle_last_trade_twice.
Qed.

(** C4. An incremental update that arrives before any snapshot, on a market
    attached to its bot, returns having left both sides of the book as they
    were and having created one task, the request of a snapshot for this
    market; later nothing remembers the update: a snapshot gives the book it
    would have given had the update never arrived. *)
Theorem diff_before_snapshot_is_dropped (message : Payload.t) (s : Market.t) (b : Bot.t) :
  OrderBook.bids (Market.order_book s) = None ->
  Market.bot s = Some b ->
  let r := handle_order_book_updated_msg message s in
  outcome r = Ok tt /\
  Market.order_book (state_after r) = Market.order_book s /\
  Market.tasks (state_after r) = Market.tasks s ++ [order_book_request (Market.id s)] /\
  forall snapshot,
    Market.order_book (state_after (handle_order_book_msg snapshot (state_after r))) =
    Market.order_book (state_after (handle_order_book_msg snapshot s)).
Proof.
  intros Hb Hbot r. unfold r.
  rewrite (uninitialized_update_run _ _ _ Hb Hbot), handle_last_trade_run.
  set (s0 := Market.set_last_trade _ _).
  assert (Hbook : Market.order_book (state_after (schedule_event last_trade_on_update s0)) =
                  Market.order_book s).
  { by rewrite schedule_event_keeps_order_book. }
  assert (Htasks : Market.tasks (state_after (schedule_event last_trade_on_update s0)) =
                   Market.tasks s ++ [order_book_request (Market.id s)]).
  { by rewrite schedule_event_keeps_tasks. }
  set (s1 := state_after (schedule_event last_trade_on_update s0)) in *.
  change (state_after (Ok tt, s1)) with s1.
  split; [done|]. split; [done|]. split; [done|].
  intros snapshot. by apply handle_order_book_msg_book.
Qed.

Lemma schedule_event_keeps_last_trade event : keeps Market.last_trade (schedule_event event).
Proof. keeps_walk. Qed.

Lemma schedule_event_pending event s :
  Market.scheduled_events (state_after (schedule_event event s)) =
  if bool_decide (event ∈ Market.scheduled_events s)
  then Market.scheduled_events s
  else Market.scheduled_events s ++ [event].
Proof. unfold schedule_event, modify, state_after. simpl. by case_bool_decide. Qed.

Lemma initialized_update_run message s bm am :
  OrderBook.bids (Market.order_book s) = Some bm ->
  OrderBook.asks (Market.order_book s) = Some am ->
  handle_order_book_updated_msg message s =
  handle_last_trade message
    (state_after
       (schedule_event order_book_on_update
          (Market.set_order_book
             (OrderBook.make
                (Some (populate_orderbook bm (Payload.bid_updates message)))
                (Some (populate_orderbook am (Payload.ask_updates message))))
             s))).
Proof.
  intros Hb Ha.
  change (handle_order_book_updated_msg message)
    with (let* s := get in
          (match OrderBook.bids (Market.order_book s) with
           | Some _ =>
             populate_bids (Payload.bid_updates message) >>
             populate_asks (Payload.ask_updates message) >>
             schedule_event order_book_on_update
           | None => let* request := order_book_request_of_bot in create_task request
           end) >>
          (handle_last_trade message >> handle_last_trade message)).
  unfold bind at 1. simpl. rewrite Hb.
  unfold bind at 1. unfold populate_bids, populate_asks, populate_side.
  unfold bind at 1 2 3 4 5. simpl. rewrite Hb. simpl. rewrite Ha. simpl.
  rewrite handle_last_trade_twice. f_equal.
Qed.

(** C10. An incremental update of the order book overwrites the last trade
    from the message and schedules [last_trade.on_update], whether the book
    has been initialized or not; the two calls of [handle_last_trade] amount
    to one.  Before the first snapshot the handler schedules nothing else, so
    [order_book.on_update] is pending afterwards only if it was before; once
    the book is initialized the handler schedules it as well. *)
Theorem last_trade_refreshed_without_snapshot (message : Payload.t) (s : Market.t) :
  let r := handle_order_book_updated_msg message s in
  let s' := state_after r in
  let trade := Trade.make (Some (Payload.last_trade_price message))
                 (Some (Payload.last_trade_quantity message))
                 (Some (Payload.last_trade_timestamp message)) in
  (forall b,
     OrderBook.bids (Market.order_book s) = None -> Market.bot s = Some b ->
     outcome r = Ok tt /\
     Market.last_trade s' = Some trade /\
     last_trade_on_update ∈ Market.scheduled_events s' /\
     (order_book_on_update ∈ Market.scheduled_events s'
      <-> order_book_on_update ∈ Market.scheduled_events s) /\
     Market.scheduled_events s' =
       Market.scheduled_events (state_after (schedule_event last_trade_on_update s))) /\
  (forall bm am,
     OrderBook.bids (Market.order_book s) = Some bm ->
     OrderBook.asks (Market.order_book s) = Some am ->
     outcome r = Ok tt /\
     Market.last_trade s' = Some trade /\
     last_trade_on_update ∈ Market.scheduled_events s' /\
     order_book_on_update ∈ Market.scheduled_events s') /\
  (forall s0,
     (handle_last_trade message >> handle_last_trade message) s0 =
     handle_last_trade message s0).
Proof.
  intros r s' trade. split; [|split].
  - intros b Hb Hbot. unfold s', r.
    rewrite (uninitialized_update_run _ _ _ Hb Hbot), handle_last_trade_run.
    fold trade. set (s0 := Market.set_last_trade _ _).
    change (state_after (Ok tt, ?x)) with x.
    split; [done|]. split; [by rewrite schedule_event_keeps_last_trade|].
    split; [apply schedule_event_again|].
    rewrite !schedule_event_pending.
    change (Market.scheduled_events s0) with (Market.scheduled_events s).
    split; [|done]. case_bool_decide; [done|].
    rewrite elem_of_app, list_elem_of_singleton.
    split; [by intros [?|[=]] | by left].
  - intros bm am Hb Ha. unfold s', r.
    rewrite (initialized_update_run _ _ _ _ Hb Ha), handle_last_trade_run.
    fold trade. set (s1 := state_after (schedule_event order_book_on_update _)).
    set (s0 := Market.set_last_trade _ _).
    change (state_after (Ok tt, ?x)) with x.
    split; [done|]. split; [by rewrite schedule_event_keeps_last_trade|].
    split; [apply schedule_event_again|].
    destruct (schedule_event_extends last_trade_on_update s0) as [[l Hl] _].
    rewrite Hl. apply elem_of_app. left.
    change (Market.scheduled_events s0) with (Market.scheduled_events s1).
    apply schedule_event_again.
  - apply handle_last_trade_twice.
Qed.

(** ** Orders embedded in a trader-status message *)

Lemma error_codes_kept_preorder : PreOrder error_codes_kept.
Proof.
  split.
  - intros s. split; [done|]. by intros a o' ->.
  - intros s1 s2 s3 [L1 H1] [L2 H2]. split; [lia|].
    intros a o3 H3. rewrite (H2 _ _ H3).
    destruct (order_at s2 a) as [o2|] eqn:E2; [by apply H1|].
    destruct (order_at s1 a) as [o1|] eqn:E1; [|done].
    apply order_at_lt in E1. apply lookup_ge_None in E2. lia.
Qed.

Lemma error_codes_kept_trans s1 s2 s3 :
  error_codes_kept s1 s2 -> error_codes_kept s2 s3 -> error_codes_kept s1 s3.
Proof. apply error_codes_kept_preorder. Qed.

Lemma error_codes_kept_same s s' :
  Market.order_store s' = Market.order_store s -> error_codes_kept s s'.
Proof.
  intros H. split; [by rewrite H|].
  intros a o'. unfold order_at. rewrite H. by intros ->.
Qed.

Lemma store_ok_same s s' :
  Market.order_store s' = Market.order_store s ->
  Market.by_id s' = Market.by_id s ->
  store_ok s -> store_ok s'.
Proof.
  intros H1 H2 Hok id a. unfold order_at. rewrite H1, H2. apply Hok.
Qed.

Lemma resolve_id_no_envelope message s :
  outcome (resolve_id message None s) =
  if bool_decide (OrderMessage.orig_client_id message ≠ EmptyString)
  then (if bool_decide (String.length (OrderMessage.orig_client_id message) = 16%nat)
        then Ok (OrderMessage.orig_client_id message)
        else Raised ValueError)
  else Raised AttributeError.
Proof. unfold resolve_id, UUID_of_bytes. by repeat case_bool_decide. Qed.

Lemma handle_order_no_envelope_codes message forced s :
  store_ok s ->
  error_codes_kept s (state_after (handle_order message None forced s)).
Proof.
  intros Hok.
  destruct (outcome (resolve_id message None s)) as [id|e] eqn:Hid.
  2: { rewrite (handle_order_raised _ _ _ _ _ Hid).
       by apply error_codes_kept_same. }
  assert (Hcode : forall seen o,
            Order.error_code (reconciled message None forced seen o) = Order.error_code o).
  { intros seen o. unfold reconciled, attach_error, assign_status.
    repeat (case_match || case_bool_decide); done. }
  destruct (Market.by_id s !! id) as [a|] eqn:Hreg.
  - destruct (Hok _ _ Hreg) as (o & Hat & Ho).
    rewrite (handle_order_known _ _ forced _ _ _ _ Hid Hreg Hat), state_after_pair.
    set (o' := reconciled message None forced true o).
    assert (H : error_codes_kept s (put_order a o' s)).
    { split; [simpl; by rewrite length_insert|].
      intros b ob Hb. destruct (decide (a = b)) as [<-|Hne].
      - rewrite order_at_put_order in Hb by (by rewrite Hat).
        injection Hb as <-. rewrite Hat. apply Hcode.
      - rewrite order_at_put_order_ne in Hb by done. by rewrite Hb. }
    destruct (is_kept (Order.status o')); exact H.
  - rewrite (handle_order_unknown _ _ forced _ _ Hid Hreg), state_after_pair.
    set (o' := reconciled message None forced false (order_of_message message id)).
    set (s1 := Market.set_order_store (Market.order_store s ++ [o']) s).
    assert (H : error_codes_kept s s1).
    { split; [simpl; rewrite length_app; lia|].
      intros b ob. unfold s1. rewrite order_at_push. case_decide as Hb.
      - intros [= <-]. subst b. unfold order_at at 1.
        rewrite lookup_ge_None_2 by lia. apply Hcode.
      - by intros ->. }
    destruct (is_kept (Order.status o')); exact H.
Qed.

Lemma reconcile_embedded_state order_msg s :
  let s1 := state_after (handle_order order_msg None None s) in
  Market.order_store (state_after (reconcile_embedded order_msg s)) = Market.order_store s1 /\
  Market.by_id (state_after (reconcile_embedded order_msg s)) = Market.by_id s1.
Proof.
  unfold reconcile_embedded. rewrite state_after_bind.
  destruct (outcome (handle_order order_msg None None s)) as [[a seen]|e]; [|done].
  assert (K1 : keeps Market.order_store (schedule_event (order_on_update a))) by keeps_walk.
  assert (K2 : keeps Market.by_id (schedule_event (order_on_update a))) by keeps_walk.
  by rewrite K1, K2.
Qed.

Lemma reconcile_embedded_store_ok order_msg s :
  store_ok s -> store_ok (state_after (reconcile_embedded order_msg s)).
Proof.
  intros Hok. destruct (reconcile_embedded_state order_msg s) as [H1 H2].
  eapply store_ok_same; [done..|]. by apply handle_order_store_ok.
Qed.

Lemma reconcile_embedded_codes order_msg s :
  store_ok s -> error_codes_kept s (state_after (reconcile_embedded order_msg s)).
Proof.
  intros Hok. destruct (reconcile_embedded_state order_msg s) as [H1 _].
  eapply error_codes_kept_trans;
    [by apply (handle_order_no_envelope_codes order_msg None)|].
  by apply error_codes_kept_same.
Qed.

Lemma embedded_orders_codes l s :
  store_ok s ->
  error_codes_kept s (state_after (for_each reconcile_embedded l s)).
Proof.
  revert s. induction l as [|x l IH]; intros s Hok;
    [by apply error_codes_kept_same|].
  rewrite for_each_cons, state_after_bind.
  destruct (outcome (reconcile_embedded x s)); [|by apply reconcile_embedded_codes].
  eapply error_codes_kept_trans; [by apply reconcile_embedded_codes|].
  apply IH. by apply reconcile_embedded_store_ok.
Qed.

Lemma reconcile_embedded_returns order_msg s :
  store_ok s ->
  String.length (OrderMessage.orig_client_id order_msg) = 16%nat ->
  outcome (reconcile_embedded order_msg s) = Ok tt.
Proof.
  intros Hok Hlen.
  assert (Hid : outcome (resolve_id order_msg None s) = Ok (OrderMessage.orig_client_id order_msg)).
  { rewrite resolve_id_no_envelope, (bool_decide_eq_true_2 _ Hlen).
    rewrite bool_decide_eq_true_2; [done|]. intros E. by rewrite E in Hlen. }
  pose proof (handle_order_returns order_msg None None s _ Hok Hid) as H.
  cbv zeta in H. unfold reconcile_embedded. rewrite outcome_bind.
  destruct (Market.by_id s !! OrderMessage.orig_client_id order_msg).
  - destruct H as (o & _ & _ & -> & _). done.
  - destruct H as [-> _]. done.
Qed.

Lemma embedded_orders_raise l1 order_msg l2 s :
  store_ok s ->
  (forall x, x ∈ l1 -> String.length (OrderMessage.orig_client_id x) = 16%nat) ->
  OrderMessage.orig_client_id order_msg = EmptyString ->
  outcome (for_each reconcile_embedded (l1 ++ order_msg :: l2) s) = Raised AttributeError.
Proof.
  revert s. induction l1 as [|x l1 IH]; intros s Hok Hl He.
  - rewrite app_nil_l, for_each_cons, outcome_bind.
    unfold reconcile_embedded. rewrite outcome_bind.
    rewrite (handle_order_raised _ _ _ _ AttributeError); [done|].
    by rewrite resolve_id_no_envelope, He.
  - rewrite <- app_comm_cons, for_each_cons, outcome_bind.
    rewrite reconcile_embedded_returns; [|done|apply Hl; by left].
    apply IH; [by apply reconcile_embedded_store_ok| |done].
    intros y Hy. apply Hl. by right.
Qed.

Ltac returns_walk :=
  unfold_handlers; unfold schedule_event;
  repeat first
    [ apply returns_ret | apply returns_get | apply returns_modify
    | apply returns_bind; [|intros ?]
    | case_match ].

Lemma bind_returns (m : M unit) {B} (k : unit -> M B) s :
  returns m -> bind m k s = k tt (state_after (m s)).
Proof.
  intros H. pose proof (returns_unit m s H) as Hr.
  unfold bind, outcome, state_after in *. by destruct (m s) as [[[]|e] s'].
Qed.

(** A projection read after a chain of handlers that leave it alone. *)
Ltac peel f :=
  repeat match goal with
  | |- context [f (state_after (?h ?s0))] =>
    let K := fresh "K" in
    assert (K : keeps f h) by keeps_walk;
    rewrite (K s0); clear K
  end.

(** [handle_trader_status_msg] is its loop over the embedded orders, run
    after account updates that touch neither orders nor hooks. *)
Lemma trader_status_split message s :
  exists s0,
    handle_trader_status_msg message s =
      for_each reconcile_embedded (Payload.orders message) s0 /\
    Market.order_store s0 = Market.order_store s /\
    Market.by_id s0 = Market.by_id s.
Proof.
  unfold handle_trader_status_msg.
  rewrite (bind_returns (handle_balance message)) by returns_walk.
  rewrite (bind_returns (handle_mark_price message)) by returns_walk.
  rewrite (bind_returns (handle_last_trade message)) by returns_walk.
  rewrite (bind_returns (handle_order_margin message)) by returns_walk.
  rewrite (bind_returns (handle_position message)) by returns_walk.
  rewrite (bind_returns (handle_leverage message)) by returns_walk.
  eexists. split; [reflexivity|]. split.
  - peel Market.order_store. done.
  - peel Market.by_id. done.
Qed.

Lemma handle_order_resolved message outer forced s r :
  outcome (handle_order message outer forced s) = Ok r ->
  exists id, outcome (resolve_id message outer s) = Ok id.
Proof.
  intros H. destruct (outcome (resolve_id message outer s)) as [id|e] eqn:Hid; [eauto|].
  by rewrite (handle_order_raised _ _ _ _ _ Hid) in H.
Qed.

Lemma embedded_orders_own_id l s :
  outcome (for_each reconcile_embedded l s) = Ok tt ->
  forall x, x ∈ l -> String.length (OrderMessage.orig_client_id x) = 16%nat.
Proof.
  revert s. induction l as [|y l IH]; intros s H x Hx; [by apply elem_of_nil in Hx|].
  rewrite for_each_cons, outcome_bind in H.
  destruct (outcome (reconcile_embedded y s)) as [[]|e] eqn:Hy; [|done].
  apply elem_of_cons in Hx as [->|Hx]; [|by eapply IH].
  unfold reconcile_embedded in Hy. rewrite outcome_bind in Hy.
  destruct (outcome (handle_order y None None s)) as [r|e] eqn:Hr; [|done].
  destruct (handle_order_resolved _ _ _ _ _ Hr) as [id Hid].
  rewrite resolve_id_no_envelope in Hid.
  repeat case_bool_decide; done.
Qed.

Lemma flush_keeps_order_store : keeps Market.order_store flush.
Proof. keeps_walk. Qed.

(** C9. The orders embedded in a trader-status message are reconciled
    without the envelope.  Whatever client id and error code the envelope
    carries: if the handlers return, every embedded record had a client id
    of its own; no order object has its error code changed and a new one has
    none; and a record with an empty client id, reached after records with
    well-formed ones, makes the message fail with [AttributeError], before
    any hook is called. *)
Theorem embedded_orders_have_no_envelope (p : Payload.t) (client_id : bytes)
    (error_code : Z) (s : Market.t) :
  let message := Message.make (trader_status_msg p) client_id error_code in
  let r := handle_message message s in
  store_ok s ->
  (outcome (dispatch message s) = Ok tt ->
   forall x, x ∈ Payload.orders p ->
     String.length (OrderMessage.orig_client_id x) = 16%nat) /\
  (forall a o', order_at (state_after r) a = Some o' ->
     Order.error_code o' =
     match order_at s a with
     | Some o => Order.error_code o
     | None => None
     end) /\
  (forall l1 order_msg l2,
     Payload.orders p = l1 ++ order_msg :: l2 ->
     (forall x, x ∈ l1 -> String.length (OrderMessage.orig_client_id x) = 16%nat) ->
     OrderMessage.orig_client_id order_msg = EmptyString ->
     outcome r = Raised AttributeError /\
     Market.called (state_after r) = Market.called s).
Proof.
  intros message r Hok.
  destruct (trader_status_split p s) as (s0 & Hsplit & Hstore & Hreg).
  assert (Hok0 : store_ok s0) by by apply (store_ok_same s).
  assert (Hd : dispatch message s = for_each reconcile_embedded (Payload.orders p) s0)
    by exact Hsplit.
  split; [|split].
  - rewrite Hd. apply embedded_orders_own_id.
  - assert (H1 : error_codes_kept s (state_after (dispatch message s))).
    { rewrite Hd. eapply error_codes_kept_trans;
        [by apply error_codes_kept_same | by apply embedded_orders_codes]. }
    assert (H2 : error_codes_kept s (state_after r)).
    { unfold r, handle_message. rewrite state_after_bind.
      destruct (outcome (dispatch message s)); [|done].
      eapply error_codes_kept_trans; [exact H1|].
      apply error_codes_kept_same, flush_keeps_order_store. }
    apply H2.
  - intros l1 order_msg l2 Hl Hl1 He.
    assert (Hr : outcome (dispatch message s) = Raised AttributeError).
    { rewrite Hd, Hl. by apply embedded_orders_raise. }
    unfold r, handle_message. rewrite outcome_bind, state_after_bind, Hr.
    split; [done|]. apply dispatch_keeps_called.
Qed.

(** ** The order-book merge *)

Lemma populate_orderbook_app target l1 l2 :
  populate_orderbook target (l1 ++ l2) =
  populate_orderbook (populate_orderbook target l1) l2.
Proof. revert target. induction l1 as [|e l1 IH]; intros target; [done|]. apply IH. Qed.

Lemma populate_orderbook_one target entry :
  populate_orderbook target [entry] =
  if decide (OrderBookEntry.quantity entry = 0%Qc /\
             is_Some (target !! OrderBookEntry.price entry))
  then delete (OrderBookEntry.price entry) target
  else <[OrderBookEntry.price entry := entry]> target.
Proof.
  simpl. case_decide as H.
  - destruct H as [H1 H2]. by rewrite !bool_decide_eq_true_2.
  - destruct (bool_decide (OrderBookEntry.quantity entry = 0%Qc)) eqn:E1;
    destruct (bool_decide (is_Some (target !! OrderBookEntry.price entry))) eqn:E2;
      try done.
    apply bool_decide_eq_true in E1, E2. tauto.
Qed.

Lemma populate_orderbook_one_lookup target entry k :
  populate_orderbook target [entry] !! k =
  if decide (k = OrderBookEntry.price entry)
  then (if decide (OrderBookEntry.quantity entry = 0%Qc /\
                   is_Some (target !! OrderBookEntry.price entry))
        then None else Some entry)
  else target !! k.
Proof.
  rewrite populate_orderbook_one.
  destruct (decide (k = OrderBookEntry.price entry)) as [->|Hk]; case_decide.
  - apply lookup_delete_eq.
  - apply lookup_insert_eq.
  - by rewrite lookup_delete_ne.
  - by rewrite lookup_insert_ne.
Qed.

Lemma populate_orderbook_zero_absent target p :
  target !! p = None ->
  populate_orderbook target [OrderBookEntry.make p 0%Qc] =
  <[p := OrderBookEntry.make p 0%Qc]> target.
Proof.
  intros H. rewrite populate_orderbook_one. simpl.
  rewrite decide_False; [done|]. rewrite H. by intros [_ [? ?]].
Qed.

(** C3, as amended. The merge treats its entries one after the other; an
    entry deletes its price level exactly when its quantity is zero and the
    level exists, and otherwise becomes the level, the other levels being
    left alone.  Applying [(p, q1); (p, 0)] leaves level [p] absent when [q1]
    is not zero or [p] was absent at the start.  Applying [(p, 0)] to a map
    without level [p] is not a no-op: it inserts level [p] with quantity
    zero. *)
Theorem populate_orderbook_rule :
  (forall target l1 l2,
     populate_orderbook target (l1 ++ l2) =
     populate_orderbook (populate_orderbook target l1) l2) /\
  (forall target entry k,
     populate_orderbook target [entry] !! k =
     if decide (k = OrderBookEntry.price entry)
     then (if decide (OrderBookEntry.quantity entry = 0%Qc /\
                      is_Some (target !! OrderBookEntry.price entry))
           then None else Some entry)
     else target !! k) /\
  (forall target p q1,
     q1 ≠ 0%Qc \/ target !! p = None ->
     populate_orderbook target
       [OrderBookEntry.make p q1; OrderBookEntry.make p 0%Qc] !! p = None) /\
  (forall target p,
     target !! p = None ->
     populate_orderbook target [OrderBookEntry.make p 0%Qc] =
     <[p := OrderBookEntry.make p 0%Qc]> target).
Proof.
  split; [apply populate_orderbook_app|].
  split; [apply populate_orderbook_one_lookup|].
  split; [|apply populate_orderbook_zero_absent].
  intros target p q1 H.
  change [OrderBookEntry.make p q1; OrderBookEntry.make p 0%Qc]
    with ([OrderBookEntry.make p q1] ++ [OrderBookEntry.make p 0%Qc]).
  rewrite populate_orderbook_app, !populate_orderbook_one_lookup. simpl.
  destruct (decide (p = p)) as [_|]; [|done].
  destruct (decide (q1 = 0%Qc /\ is_Some (target !! p))) as [[Hq [x Hx]]|_].
  - destruct H as [H|H]; [done | by rewrite H in Hx].
  - rewrite decide_True; [done|]. split; [done | eauto].
Qed.

(** The two consequences the merge does not have. *)
Lemma populate_orderbook_zero_is_inserted :
  populate_orderbook ∅ [OrderBookEntry.make (dec 1) (dec 0)] ≠ ∅ /\
  populate_orderbook {[dec 1 := OrderBookEntry.make (dec 1) (dec 5)]}
    [OrderBookEntry.make (dec 1) (dec 0); OrderBookEntry.make (dec 1) (dec 0)]
    !! dec 1 ≠ None.
Proof.
  split.
  - change (dec 0) with 0%Qc.
    rewrite populate_orderbook_zero_absent by apply lookup_empty.
    apply insert_non_empty.
  - change [OrderBookEntry.make (dec 1) (dec 0); OrderBookEntry.make (dec 1) (dec 0)]
      with ([OrderBookEntry.make (dec 1) (dec 0)] ++ [OrderBookEntry.make (dec 1) (dec 0)]).
    rewrite populate_orderbook_app, !populate_orderbook_one_lookup. simpl.
    destruct (decide (dec 1 = dec 1)) as [_|]; [|done].
    rewrite lookup_singleton_eq.
    destruct (decide (dec 0 = 0%Qc /\ is_Some (Some (OrderBookEntry.make (dec 1) (dec 5)))))
      as [_|Hn]; [|destruct Hn; eauto].
    rewrite decide_False; [done|]. by intros [_ [x Hx]].
Qed.

(** ** The fill of an order *)

(** C1. The code at the input of the spec: the registry knows an order of
    quantity 10 and a filled message reports orig-quantity 10, quantity 4 and
    dropped-quantity 1.  [handle_message] hands the message to
    [handle_order_status_msg], which leaves the quantity at 10;
    [handle_order_filled_message], which no branch of [handle_message]
    calls, sets it to 5. *)
Theorem filled_message_keeps_quantity :
  order_at with_accepted_order 0%nat = Some accepted_order /\
  (let r := handle_message (envelope (order_filled_msg sample_fill)) with_accepted_order in
   outcome r = Ok tt /\
   Order.quantity <$> order_at (state_after r) 0%nat = Some (dec 10)) /\
  (let r := handle_order_filled_message sample_fill
              (envelope (order_filled_msg sample_fill)) with_accepted_order in
   outcome r = Ok tt /\
   Order.quantity <$> order_at (state_after r) 0%nat = Some (dec 5)).
Proof. repeat split; vm_compute; reflexivity. Qed.

(** ** The theorems at sample inputs *)

Lemma with_accepted_order_ok :
  store_ok with_accepted_order /\ registry_invariant with_accepted_order.
Proof.
  apply reconcile_all_invariant;
    [apply store_ok_init | apply registry_invariant_init].
Qed.

Lemma registry_membership_invariant_witness :
  store_ok BTC_USD /\ registry_invariant BTC_USD /\
  order_at (reconcile_all [accept_report] BTC_USD) 0%nat = Some accepted_order /\
  (Market.by_id (reconcile_all [accept_report] BTC_USD) !! Order.id accepted_order = Some 0%nat
   <-> Order.status accepted_order = Some ACCEPTED \/
       Order.status accepted_order = Some PARTIAL).
Proof.
  split; [apply store_ok_init|]. split; [apply registry_invariant_init|].
  split; [vm_compute; reflexivity|].
  apply (registry_membership_invariant [accept_report] BTC_USD
           (store_ok_init _ _ _ _ _ _) (registry_invariant_init _ _ _ _ _ _)).
  vm_compute; reflexivity.
Defined.

Lemma status_priority_witness :
  store_ok BTC_USD /\
  outcome (resolve_id partly_filled_report None BTC_USD) = Ok sample_id /\
  exists a o',
    outcome (handle_order partly_filled_report None None BTC_USD) = Ok (a, false) /\
    order_at (state_after (handle_order partly_filled_report None None BTC_USD)) a = Some o' /\
    Order.status o' = Some PARTIAL.
Proof.
  split; [apply store_ok_init|]. split; [reflexivity|].
  destruct (status_priority partly_filled_report None None BTC_USD sample_id
              (store_ok_init _ _ _ _ _ _) eq_refl) as (a & o' & Hr & Hat & Hst).
  exists a, o'. split; [exact Hr|]. split; [exact Hat|].
  simpl in Hst. rewrite Hst.
  assert (Hq : Order.quantity o' = dec 4).
  { vm_compute in Hr. injection Hr as <-. vm_compute in Hat. by injection Hat as <-. }
  rewrite Hq. reflexivity.
Defined.

Lemma redelivery_is_idempotent_witness :
  store_ok with_accepted_order /\
  (OrderMessage.status sample_cancel = None -> @None OrderStatus = None ->
   registry_invariant with_accepted_order) /\
  let s1 := state_after (handle_order sample_cancel None None with_accepted_order) in
  let s2 := state_after (handle_order sample_cancel None None s1) in
  Market.by_id s2 = Market.by_id s1.
Proof.
  assert (H : OrderMessage.status sample_cancel = None -> @None OrderStatus = None ->
              registry_invariant with_accepted_order)
    by (intros _ _; apply with_accepted_order_ok).
  split; [apply with_accepted_order_ok|]. split; [exact H|].
  exact (proj1 (redelivery_is_idempotent sample_cancel None None with_accepted_order
                  (proj1 with_accepted_order_ok) H)).
Defined.

(** C6, as stated, fails: the registry knows the order with quantity 10; the
    first delivery of the cancel report removes it and returns it, quantity
    10; the second delivery returns a new order built from the report,
    quantity 7. *)
Lemma redelivery_builds_another_order :
  ~ redelivery_yields_same_order sample_cancel None None with_accepted_order.
Proof.
  intros H. specialize (H 0%nat true 1%nat false eq_refl eq_refl).
  vm_compute in H. discriminate H.
Qed.

(** The registry invariant cannot be spared for a report that has neither a
    status nor a forced status: with an order in the registry that has no
    status, the first delivery removes the order and the second puts a new
    one in its place. *)
Lemma redelivery_without_invariant :
  store_ok with_unreported_order /\
  ~ registry_invariant with_unreported_order /\
  let s1 := state_after (handle_order partly_filled_report None None
                           with_unreported_order) in
  let s2 := state_after (handle_order partly_filled_report None None s1) in
  Market.by_id s1 !! sample_id = None /\
  Market.by_id s2 !! sample_id = Some 1%nat.
Proof.
  split; [|split].
  - intros id a H.
    change (Market.by_id with_unreported_order)
      with ({[sample_id := 0%nat]} : gmap UUID addr) in H.
    apply lookup_singleton_Some in H as [<- <-]. eexists. split; reflexivity.
  - intros H.
    specialize (H 0%nat _ eq_refl). apply proj1 in H.
    specialize (H eq_refl). discriminate H.
  - split; vm_compute; reflexivity.
Qed.

Lemma populate_orderbook_rule_witness :
  (dec 5 ≠ 0%Qc \/ (∅ : gmap Decimal OrderBookEntry.t) !! dec 1 = None) /\
  populate_orderbook ∅
    [OrderBookEntry.make (dec 1) (dec 5); OrderBookEntry.make (dec 1) 0%Qc] !! dec 1 = None /\
  (∅ : gmap Decimal OrderBookEntry.t) !! dec 1 = None /\
  populate_orderbook ∅ [OrderBookEntry.make (dec 1) 0%Qc] =
    <[dec 1 := OrderBookEntry.make (dec 1) 0%Qc]> ∅.
Proof.
  destruct populate_orderbook_rule as (_ & _ & H3 & H4).
  split; [right; apply lookup_empty|].
  split; [apply H3; right; apply lookup_empty|].
  split; [apply lookup_empty|].
  apply H4, lookup_empty.
Defined.

Lemma diff_before_snapshot_is_dropped_witness :
  OrderBook.bids (Market.order_book BTC_USD_attached) = None /\
  Market.bot BTC_USD_attached = Some (Bot.make {[1 := 0%nat]}) /\
  let r := handle_order_book_updated_msg sample_update BTC_USD_attached in
  outcome r = Ok tt /\
  Market.order_book (state_after r) = Market.order_book BTC_USD_attached /\
  Market.tasks (state_after r) = [order_book_request 1].
Proof.
  split; [reflexivity|]. split; [reflexivity|].
  destruct (diff_before_snapshot_is_dropped sample_update BTC_USD_attached
              (Bot.make {[1 := 0%nat]}) eq_refl eq_refl) as (H1 & H2 & H3 & _).
  split; [exact H1|]. split; [exact H2|]. exact H3.
Defined.

Lemma notifications_coalesce_witness :
  (NoDup (Market.scheduled_events BTC_USD_pending) /\
   (forall e, e ∈ Market.scheduled_events BTC_USD_pending ->
      Market.hooks BTC_USD_pending e ≠ ReturnsOther) /\
   outcome (flush BTC_USD_pending) = Ok tt /\
   Market.called (state_after (flush BTC_USD_pending)) =
     [position_on_update; trader_on_update] /\
   Market.scheduled_events (state_after (flush BTC_USD_pending)) = []) /\
  (let message := envelope (trader_status_msg (payload_of partly_filled_report
                                                 [partly_filled_report])) in
   Market.scheduled_events BTC_USD = [] /\
   outcome (dispatch message BTC_USD) = Ok tt /\
   exists fired,
     Market.called (state_after (handle_message message BTC_USD)) =
       Market.called BTC_USD ++ fired /\
     NoDup fired /\ trader_on_update ∈ fired).
Proof.
  destruct notifications_coalesce as (_ & H2 & H3).
  assert (Hnd : NoDup (Market.scheduled_events BTC_USD_pending)).
  { apply (bool_decide_unpack _). vm_compute. exact I. }
  assert (Hq : forall e, e ∈ Market.scheduled_events BTC_USD_pending ->
                 Market.hooks BTC_USD_pending e ≠ ReturnsOther).
  { intros e _. discriminate. }
  split.
  - split; [exact Hnd|]. split; [exact Hq|].
    destruct (H2 BTC_USD_pending Hnd Hq) as (fired & Hr & Hc & Hf & _ & Hp).
    split; [exact Hr|]. split; [|exact Hp].
    rewrite Hc, Hf. reflexivity.
  - split; [reflexivity|]. split; [vm_compute; reflexivity|].
    apply (H3 (payload_of partly_filled_report [partly_filled_report]) EmptyString 0 BTC_USD);
      [reflexivity | vm_compute; reflexivity].
Defined.

Lemma unsupported_return_fails_loudly_witness :
  let message := envelope (order_status_msg sample_fill) in
  outcome (dispatch message BTC_USD_loud) = Ok tt /\
  Market.scheduled_events (state_after (dispatch message BTC_USD_loud)) =
    [trader_on_update] ++ position_on_update ::
    [orders_on_margins_update; order_on_update 0] /\
  (forall x, x ∈ [trader_on_update] -> Market.hooks BTC_USD_loud x ≠ ReturnsOther) /\
  Market.hooks BTC_USD_loud position_on_update = ReturnsOther /\
  outcome (handle_message message BTC_USD_loud) = Raised TypeError /\
  Market.called (state_after (handle_message message BTC_USD_loud)) =
    [trader_on_update; position_on_update].
Proof.
  intros message.
  assert (H1 : outcome (dispatch message BTC_USD_loud) = Ok tt)
    by (vm_compute; reflexivity).
  assert (H2 : Market.scheduled_events (state_after (dispatch message BTC_USD_loud)) =
               [trader_on_update] ++ position_on_update ::
               [orders_on_margins_update; order_on_update 0])
    by (vm_compute; reflexivity).
  assert (H3 : forall x, x ∈ [trader_on_update] ->
                 Market.hooks BTC_USD_loud x ≠ ReturnsOther).
  { intros x Hx. apply list_elem_of_singleton in Hx. rewrite Hx. discriminate. }
  split; [exact H1|]. split; [exact H2|]. split; [exact H3|]. split; [reflexivity|].
  destruct (proj2 unsupported_return_fails_loudly message BTC_USD_loud
              [trader_on_update] position_on_update
              [orders_on_margins_update; order_on_update 0] H1 H2 H3 eq_refl)
    as (Hr & Hc & _).
  split; [exact Hr | exact Hc].
Defined.

Lemma embedded_orders_have_no_envelope_witness :
  store_ok BTC_USD /\
  (let message := Message.make (trader_status_msg
                    (payload_of partly_filled_report [partly_filled_report])) sample_id 7 in
   outcome (dispatch message BTC_USD) = Ok tt /\
   forall a o', order_at (state_after (handle_message message BTC_USD)) a = Some o' ->
     Order.error_code o' = None) /\
  (let p := payload_of partly_filled_report [partly_filled_report; anonymous_report] in
   let message := Message.make (trader_status_msg p) sample_id 7 in
   Payload.orders p = [partly_filled_report] ++ anonymous_report :: [] /\
   (forall x, x ∈ [partly_filled_report] ->
      String.length (OrderMessage.orig_client_id x) = 16%nat) /\
   OrderMessage.orig_client_id anonymous_report = EmptyString /\
   outcome (handle_message message BTC_USD) = Raised AttributeError /\
   Market.called (state_after (handle_message message BTC_USD)) = []).
Proof.
  pose proof (store_ok_init 1 "BTC/USD" "BTCUSD" 0%nat
                [CurrencyPair.init 1 "BTC/USD" 4] quiet_hooks) as Hok.
  split; [exact Hok|]. split.
  - split; [vm_compute; reflexivity|].
    intros a o' Hat.
    destruct (embedded_orders_have_no_envelope
                (payload_of partly_filled_report [partly_filled_report])
                sample_id 7 BTC_USD Hok) as (_ & H & _).
    rewrite (H a o' Hat). by destruct a.
  - assert (Hl : forall x, x ∈ [partly_filled_report] ->
                   String.length (OrderMessage.orig_client_id x) = 16%nat).
    { intros x Hx. apply list_elem_of_singleton in Hx. rewrite Hx. reflexivity. }
    split; [reflexivity|]. split; [exact Hl|]. split; [reflexivity|].
    destruct (embedded_orders_have_no_envelope
                (payload_of partly_filled_report [partly_filled_report; anonymous_report])
                sample_id 7 BTC_USD Hok) as (_ & _ & H).
    exact (H [partly_filled_report] anonymous_report [] eq_refl Hl eq_refl).
Defined.

Lemma last_trade_refreshed_without_snapshot_witness :
  (OrderBook.bids (Market.order_book BTC_USD_attached) = None /\
   Market.bot BTC_USD_attached = Some (Bot.make {[1 := 0%nat]}) /\
   let s' := state_after (handle_order_book_updated_msg sample_update BTC_USD_attached) in
   Market.last_trade s' = Some (Trade.make (Some (dec 99)) (Some (dec 1)) (Some 5)) /\
   Market.scheduled_events s' = [last_trade_on_update]) /\
  (OrderBook.bids (Market.order_book BTC_USD_with_book) =
     Some (populate_orderbook ∅ (Payload.bids sample_snapshot)) /\
   OrderBook.asks (Market.order_book BTC_USD_with_book) =
     Some (populate_orderbook ∅ (Payload.asks sample_snapshot)) /\
   let s' := state_after (handle_order_book_updated_msg sample_update BTC_USD_with_book) in
   last_trade_on_update ∈ Market.scheduled_events s' /\
   order_book_on_update ∈ Market.scheduled_events s').
Proof.
  split.
  - split; [reflexivity|]. split; [reflexivity|].
    destruct (proj1 (last_trade_refreshed_without_snapshot sample_update BTC_USD_attached)
                (Bot.make {[1 := 0%nat]}) eq_refl eq_refl) as (_ & Hlt & _ & _ & Hp).
    split; [exact Hlt|]. cbv zeta. rewrite Hp. reflexivity.
  - assert (Hb : OrderBook.bids (Market.order_book BTC_USD_with_book) =
                 Some (populate_orderbook ∅ (Payload.bids sample_snapshot)))
      by reflexivity.
    assert (Ha : OrderBook.asks (Market.order_book BTC_USD_with_book) =
                 Some (populate_orderbook ∅ (Payload.asks sample_snapshot)))
      by reflexivity.
    split; [exact Hb|]. split; [exact Ha|].
    destruct (proj1 (proj2 (last_trade_refreshed_without_snapshot sample_update
                               BTC_USD_with_book)) _ _ Hb Ha) as (_ & _ & H1 & H2).
    split; [exact H1 | exact H2].
Defined.

(** * Further properties *)

(** ** [handle_order]: failure, identity, frame *)

Lemma resolve_id_outcome message outer s :
  outcome (resolve_id message outer s) =
  match id_bytes message outer with
  | None => Raised AttributeError
  | Some b => if bool_decide (String.length b = 16%nat) then Ok b else Raised ValueError
  end.
Proof.
  unfold resolve_id, id_bytes, UUID_of_bytes.
  case_bool_decide; [by case_bool_decide|].
  destruct outer as [outer|]; simpl; [by case_bool_decide | done].
Qed.

(** The two ways a call that returns can have gone. *)
Lemma handle_order_ok_inv message outer forced s a seen :
  store_ok s ->
  outcome (handle_order message outer forced s) = Ok (a, seen) ->
  exists id,
    id_bytes message outer = Some id /\
    ((seen = true /\ Market.by_id s !! id = Some a /\
      exists o, order_at s a = Some o /\ Order.id o = id /\
        let o' := reconciled message outer forced true o in
        state_after (handle_order message outer forced s) =
        if is_kept (Order.status o') then put_order a o' s
        else set_by_id (delete id (Market.by_id s)) (put_order a o' s)) \/
     (seen = false /\ Market.by_id s !! id = None /\
      a = length (Market.order_store s) /\
      let o' := reconciled message outer forced false (order_of_message message id) in
      let s1 := Market.set_order_store (Market.order_store s ++ [o']) s in
      state_after (handle_order message outer forced s) =
      if is_kept (Order.status o') then set_by_id (<[id := a]> (Market.by_id s)) s1
      else s1)).
Proof.
  intros Hok Hr.
  destruct (outcome (resolve_id message outer s)) as [id|e] eqn:Hid.
  2: { by rewrite (handle_order_raised _ _ _ _ _ Hid) in Hr. }
  exists id. split.
  { rewrite resolve_id_outcome in Hid. destruct (id_bytes message outer); [|done].
    case_bool_decide; congruence. }
  destruct (Market.by_id s !! id) as [a0|] eqn:Hreg.
  - destruct (Hok _ _ Hreg) as (o & Hat & Ho).
    rewrite (handle_order_known _ _ forced _ _ _ _ Hid Hreg Hat) in Hr |- *.
    injection Hr as <- <-. left. split; [done|]. split; [done|].
    exists o. split; [done|]. split; [done|].
    cbv zeta. rewrite state_after_pair, reconciled_id, Ho. done.
  - rewrite (handle_order_unknown _ _ forced _ _ Hid Hreg) in Hr |- *.
    injection Hr as <- <-. right. split; [done|]. split; [done|]. split; [done|].
    cbv zeta. rewrite state_after_pair, reconciled_id. done.
Qed.

(** X1. [handle_order] raises exactly when the identifier does not resolve:
    [AttributeError] when neither the message nor an envelope gives bytes,
    [ValueError] when the bytes are not 16; it then leaves the market as it
    was.  In every other case it returns. *)
Theorem handle_order_fails_atomically (message : OrderMessage.t)
    (outer : option Message.t) (forced : option OrderStatus) (s : Market.t) :
  store_ok s ->
  let r := handle_order message outer forced s in
  match id_bytes message outer with
  | None => r = (Raised AttributeError, s)
  | Some b =>
    if bool_decide (String.length b = 16%nat)
    then exists a seen, outcome r = Ok (a, seen)
    else r = (Raised ValueError, s)
  end.
Proof.
  intros Hok r. unfold r.
  pose proof (resolve_id_outcome message outer s) as Hid.
  destruct (id_bytes message outer) as [b|]; [|by apply handle_order_raised].
  case_bool_decide as Hlen; [|by apply handle_order_raised].
  pose proof (handle_order_returns message outer forced s b Hok Hid) as H.
  cbv zeta in H. destruct (Market.by_id s !! b).
  - destruct H as (o & _ & _ & H & _). eauto.
  - destruct H as [H _]. eauto.
Qed.

(** X2. The order [handle_order] returns carries the identifier read from
    the message, or from the envelope when the message has none; it was seen
    before exactly when the registry held that identifier, and is then the
    very object the registry held; otherwise it is a new object. *)
Theorem handle_order_identity (message : OrderMessage.t)
    (outer : option Message.t) (forced : option OrderStatus) (s : Market.t)
    (a : addr) (seen : bool) :
  store_ok s ->
  let r := handle_order message outer forced s in
  outcome r = Ok (a, seen) ->
  exists o,
    order_at (state_after r) a = Some o /\
    id_bytes message outer = Some (Order.id o) /\
    (if seen then Market.by_id s !! Order.id o = Some a
     else Market.by_id s !! Order.id o = None /\ order_at s a = None).
Proof.
  intros Hok r Hr.
  destruct (handle_order_ok_inv _ _ _ _ _ _ Hok Hr) as (id & Hb & H).
  destruct H as [(-> & Hreg & o & Hat & Ho & Hs)|(-> & Hreg & -> & Hs)];
    cbv zeta in Hs; unfold r; rewrite Hs.
  - exists (reconciled message outer forced true o).
    rewrite reconciled_id, Ho. split; [|done].
    destruct (is_kept _); [|rewrite order_at_set_by_id];
      apply order_at_put_order; by rewrite Hat.
  - exists (reconciled message outer forced false (order_of_message message id)).
    rewrite reconciled_id. simpl. split; [|split; [done|]].
    + destruct (is_kept _); [rewrite order_at_set_by_id|];
        rewrite order_at_push; by rewrite decide_True.
    + split; [done|]. by apply lookup_ge_None_2.
Qed.

(** X3. [handle_order] changes at most one existing order, the one the
    registry holds under the resolved identifier, and of that order only
    status and error code; it adds at most one order object; and it leaves
    the registry entries of all other identifiers as they were. *)
Theorem handle_order_touches_one_order (message : OrderMessage.t)
    (outer : option Message.t) (forced : option OrderStatus) (s : Market.t) :
  store_ok s ->
  let s' := state_after (handle_order message outer forced s) in
  (forall b o, order_at s b = Some o ->
     exists o', order_at s' b = Some o' /\ same_terms o o' /\
       (o' ≠ o -> Market.by_id s !! Order.id o = Some b /\
                  id_bytes message outer = Some (Order.id o))) /\
  (forall id, id_bytes message outer ≠ Some id ->
     Market.by_id s' !! id = Market.by_id s !! id) /\
  (length (Market.order_store s) <= length (Market.order_store s')
   <= S (length (Market.order_store s)))%nat.
Proof.
  intros Hok s'.
  assert (Hsame : forall o : Order.t, same_terms o o) by (by intros o).
  destruct (outcome (handle_order message outer forced s)) as [[a seen]|e] eqn:Hr.
  2: { assert (Hs : s' = s).
       { unfold s'. destruct (outcome (resolve_id message outer s)) as [id|e0] eqn:Hid.
         - pose proof (handle_order_returns message outer forced s id Hok Hid) as H.
           cbv zeta in H. destruct (Market.by_id s !! id).
           + destruct H as (? & _ & _ & H & _). congruence.
           + destruct H as [H _]. congruence.
         - by rewrite (handle_order_raised _ _ _ _ _ Hid). }
       rewrite Hs. split; [|split; [done | lia]].
       intros b o Hb. exists o. done. }
  destruct (handle_order_ok_inv _ _ _ _ _ _ Hok Hr) as (id & Hb & H).
  destruct H as [(-> & Hreg & o & Hat & Ho & Hs)|(-> & Hreg & -> & Hs)];
    cbv zeta in Hs; unfold s'; rewrite Hs.
  - set (o' := reconciled message outer forced true o).
    assert (Hst : forall b ob, order_at s b = Some ob ->
              exists ob', order_at (put_order a o' s) b = Some ob' /\ same_terms ob ob' /\
                (ob' ≠ ob -> Market.by_id s !! Order.id ob = Some b /\
                             id_bytes message outer = Some (Order.id ob))).
    { intros b ob Hob. destruct (decide (a = b)) as [<-|Hne].
      - exists o'. rewrite order_at_put_order by (by rewrite Hat).
        assert (ob = o) as -> by congruence.
        split; [done|]. split; [apply reconciled_same_terms|].
        intros _. by rewrite Ho.
      - exists ob. rewrite order_at_put_order_ne by done. done. }
    assert (Hlen : length (Market.order_store (put_order a o' s)) =
                   length (Market.order_store s)) by apply length_insert.
    destruct (is_kept (Order.status o')).
    + split; [exact Hst|]. split; [done|]. rewrite Hlen. lia.
    + split; [exact Hst|]. split.
      * intros id' Hid'. rewrite by_id_set_by_id.
        apply lookup_delete_ne. congruence.
      * change (Market.order_store (set_by_id _ ?x)) with (Market.order_store x).
        rewrite Hlen. lia.
  - set (o' := reconciled message outer forced false (order_of_message message id)).
    set (s1 := Market.set_order_store (Market.order_store s ++ [o']) s).
    assert (Hst : forall b ob, order_at s b = Some ob ->
              exists ob', order_at s1 b = Some ob' /\ same_terms ob ob' /\
                (ob' ≠ ob -> Market.by_id s !! Order.id ob = Some b /\
                             id_bytes message outer = Some (Order.id ob))).
    { intros b ob Hob. exists ob. unfold s1. rewrite order_at_push.
      apply order_at_lt in Hob as Hlt. rewrite decide_False by lia. done. }
    assert (Hlen : length (Market.order_store s1) = S (length (Market.order_store s))).
    { unfold s1. simpl. rewrite length_app. simpl. lia. }
    destruct (is_kept (Order.status o')).
    + split; [exact Hst|]. split.
      * intros id' Hid'. rewrite by_id_set_by_id.
        apply lookup_insert_ne. congruence.
      * change (Market.order_store (set_by_id _ ?x)) with (Market.order_store x).
        rewrite Hlen. lia.
    + split; [exact Hst|]. split; [done|]. rewrite Hlen. lia.
Qed.

(** X4. An order the registry did not know is a new object at the end of the
    store, the only change to the store; its price, quantity, side, type and
    duration are those of the message; and when the message has no status
    attribute, the order does not leave [handle_order] without a status. *)
Theorem unknown_order_is_built_from_message (message : OrderMessage.t)
    (outer : option Message.t) (forced : option OrderStatus) (s : Market.t) (a : addr) :
  store_ok s ->
  let r := handle_order message outer forced s in
  outcome r = Ok (a, false) ->
  exists o,
    Market.order_store (state_after r) = Market.order_store s ++ [o] /\
    a = length (Market.order_store s) /\
    Order.price o = OrderMessage.price message /\
    Order.quantity o = OrderMessage.quantity message /\
    Order.side o = OrderMessage.side message /\
    Order.type o = OrderMessage.order_type message /\
    Order.duration o = OrderMessage.duration message /\
    (OrderMessage.status message = None -> is_Some (Order.status o)).
Proof.
  intros Hok r Hr.
  destruct (handle_order_ok_inv _ _ _ _ _ _ Hok Hr) as (id & Hb & H).
  destruct H as [([=] & _)|(_ & Hreg & -> & Hs)].
  cbv zeta in Hs. unfold r. rewrite Hs.
  set (o0 := order_of_message message id).
  exists (reconciled message outer forced false o0).
  split; [by destruct (is_kept _)|]. split; [done|].
  destruct (reconciled_same_terms message outer forced false o0)
    as (_ & -> & -> & -> & -> & ->).
  repeat (split; [done|]).
  intros Hm. rewrite reconciled_status. unfold assign_status. rewrite Hm.
  repeat (case_match || case_bool_decide); eauto.
Qed.

(** X5. A non-zero error code of the envelope ends up in the reconciled
    order; a zero one leaves the error code the order had, none for a new
    order. *)
Theorem envelope_error_is_attached (message : OrderMessage.t)
    (outer : Message.t) (forced : option OrderStatus) (s : Market.t)
    (a : addr) (seen : bool) :
  store_ok s ->
  let r := handle_order message (Some outer) forced s in
  outcome r = Ok (a, seen) ->
  exists o',
    order_at (state_after r) a = Some o' /\
    Order.error_code o' =
    if bool_decide (Message.error_code outer ≠ 0)
    then Some (Message.error_code outer)
    else order_at s a ≫= Order.error_code.
Proof.
  intros Hok r Hr.
  destruct (handle_order_ok_inv _ _ _ _ _ _ Hok Hr) as (id & Hb & H).
  destruct H as [(-> & Hreg & o & Hat & Ho & Hs)|(-> & Hreg & -> & Hs)];
    cbv zeta in Hs; unfold r; rewrite Hs.
  - exists (reconciled message (Some outer) forced true o).
    rewrite reconciled_error_code, Hat. split; [|done].
    destruct (is_kept _); [|rewrite order_at_set_by_id];
      apply order_at_put_order; by rewrite Hat.
  - exists (reconciled message (Some outer) forced false (order_of_message message id)).
    rewrite reconciled_error_code. split.
    + destruct (is_kept _); [rewrite order_at_set_by_id|];
        rewrite order_at_push; by rewrite decide_True.
    + unfold order_at at 1. by rewrite lookup_ge_None_2.
Qed.

(** X6. After [handle_order] the registry is the one before with the
    resolved identifier set to the returned order when its status is
    ACCEPTED or PARTIAL, and with that identifier removed otherwise. *)
Theorem registry_follows_status (message : OrderMessage.t)
    (outer : option Message.t) (forced : option OrderStatus) (s : Market.t)
    (a : addr) (seen : bool) :
  store_ok s ->
  let r := handle_order message outer forced s in
  outcome r = Ok (a, seen) ->
  exists o,
    order_at (state_after r) a = Some o /\
    Market.by_id (state_after r) =
    if is_kept (Order.status o)
    then <[Order.id o := a]> (Market.by_id s)
    else delete (Order.id o) (Market.by_id s).
Proof.
  intros Hok r Hr.
  destruct (handle_order_ok_inv _ _ _ _ _ _ Hok Hr) as (id & Hb & H).
  destruct H as [(-> & Hreg & o & Hat & Ho & Hs)|(-> & Hreg & -> & Hs)];
    cbv zeta in Hs; unfold r; rewrite Hs.
  - set (o' := reconciled message outer forced true o).
    assert (Ho' : Order.id o' = id) by (unfold o'; by rewrite reconciled_id).
    exists o'. rewrite Ho'.
    destruct (is_kept (Order.status o')).
    + split; [apply order_at_put_order; by rewrite Hat|].
      rewrite by_id_put_order. by rewrite insert_id.
    + split; [rewrite order_at_set_by_id; apply order_at_put_order; by rewrite Hat|].
      done.
  - set (o' := reconciled message outer forced false (order_of_message message id)).
    assert (Ho' : Order.id o' = id) by (unfold o'; by rewrite reconciled_id).
    exists o'. rewrite Ho'.
    destruct (is_kept (Order.status o')).
    + split; [rewrite order_at_set_by_id, order_at_push; by rewrite decide_True|].
      done.
    + split; [rewrite order_at_push; by rewrite decide_True|].
      change (Market.by_id (Market.set_order_store _ s)) with (Market.by_id s).
      by rewrite delete_id.
Qed.

(** ** Cancellation *)

Lemma reconcile_canceled_extends outer st x :
  steps extends_pending (reconcile_canceled outer st x).
Proof. unfold reconcile_canceled. extends_walk. Qed.

(** One order record of a cancel report with a status outside the live
    set. *)
Lemma reconcile_canceled_step outer st x s :
  is_kept (Some st) = false ->
  OrderMessage.status x = None ->
  store_ok s ->
  outcome (reconcile_canceled outer st x s) = Ok tt ->
  let s1 := state_after (reconcile_canceled outer st x s) in
  exists id,
    id_bytes x (Some outer) = Some id /\
    store_ok s1 /\
    Market.by_id s1 = delete id (Market.by_id s) /\
    forall b o, order_at s b = Some o ->
      exists o1, order_at s1 b = Some o1 /\ same_terms o o1 /\
        (Market.by_id s !! id ≠ Some b -> o1 = o) /\
        (Market.by_id s !! id = Some b ->
         Order.status o1 = Some st /\
         order_on_update b ∈ Market.scheduled_events s1).
Proof.
  intros Hst Hx Hok Hr s1.
  assert (Hok1 : store_ok s1).
  { unfold s1, reconcile_canceled. rewrite state_after_bind.
    pose proof (handle_order_store_ok x (Some outer) (Some st) s Hok) as H.
    destruct (outcome (handle_order x (Some outer) (Some st) s)) as [[a seen]|e]; [|done].
    eapply store_ok_same; [| |exact H].
    - assert (K : keeps Market.order_store (schedule_event (order_on_update a)))
        by keeps_walk. apply K.
    - assert (K : keeps Market.by_id (schedule_event (order_on_update a)))
        by keeps_walk. apply K. }
  unfold reconcile_canceled in Hr. rewrite outcome_bind in Hr.
  destruct (outcome (handle_order x (Some outer) (Some st) s)) as [[a seen]|e] eqn:Ha;
    [|done]. clear Hr.
  assert (Hs1 : s1 = state_after (schedule_event (order_on_update a)
                       (state_after (handle_order x (Some outer) (Some st) s)))).
  { unfold s1, reconcile_canceled. by rewrite state_after_bind, Ha. }
  assert (Kstore : forall s0, Market.order_store
            (state_after (schedule_event (order_on_update a) s0)) = Market.order_store s0).
  { assert (K : keeps Market.order_store (schedule_event (order_on_update a)))
      by keeps_walk. apply K. }
  assert (Kreg : forall s0, Market.by_id
            (state_after (schedule_event (order_on_update a) s0)) = Market.by_id s0).
  { assert (K : keeps Market.by_id (schedule_event (order_on_update a)))
      by keeps_walk. apply K. }
  assert (Hpend : order_on_update a ∈ Market.scheduled_events s1).
  { rewrite Hs1. apply schedule_event_again. }
  assert (Hstatus : forall seen0 o,
            Order.status (reconciled x (Some outer) (Some st) seen0 o) = Some st).
  { intros seen0 o. rewrite reconciled_status. unfold assign_status. by rewrite Hx. }
  destruct (handle_order_ok_inv _ _ _ _ _ _ Hok Ha) as (id & Hb & H).
  exists id. split; [done|]. split; [done|].
  assert (Hat1 : forall b, order_at s1 b =
            order_at (state_after (handle_order x (Some outer) (Some st) s)) b).
  { intros b. unfold order_at. by rewrite Hs1, Kstore. }
  assert (Hreg1 : Market.by_id s1 =
            Market.by_id (state_after (handle_order x (Some outer) (Some st) s))).
  { by rewrite Hs1, Kreg. }
  clear Hs1.
  destruct H as [(-> & Hreg & o & Hat & Ho & Hs)|(-> & Hreg & -> & Hs)];
    cbv zeta in Hs; rewrite Hstatus, Hst in Hs.
  - split; [by rewrite Hreg1, Hs|].
    intros b ob Hob. rewrite Hat1, Hs, order_at_set_by_id.
    destruct (decide (a = b)) as [<-|Hne].
    + eexists. rewrite order_at_put_order by (by rewrite Hat).
      split; [done|]. assert (ob = o) as -> by congruence.
      split; [apply reconciled_same_terms|]. split; [congruence|].
      intros _. by rewrite Hstatus.
    + exists ob. rewrite order_at_put_order_ne by done.
      split; [done|]. split; [done|]. split; [done|]. congruence.
  - split.
    { rewrite Hreg1, Hs.
      change (Market.by_id (Market.set_order_store _ s)) with (Market.by_id s).
      by rewrite delete_id. }
    intros b ob Hob. rewrite Hat1, Hs, order_at_push.
    apply order_at_lt in Hob as Hlt.
    rewrite decide_False by lia. exists ob.
    split; [done|]. split; [done|]. split; [done|]. congruence.
Qed.

(** The loop of a cancel report with a status outside the live set, over
    order records that carry no status of their own. *)
Lemma canceled_loop outer st l s :
  is_kept (Some st) = false ->
  (forall x, x ∈ l -> OrderMessage.status x = None) ->
  store_ok s ->
  outcome (for_each (reconcile_canceled outer st) l s) = Ok tt ->
  let s' := state_after (for_each (reconcile_canceled outer st) l s) in
  store_ok s' /\
  (forall x, x ∈ l -> exists id,
     id_bytes x (Some outer) = Some id /\ Market.by_id s' !! id = None) /\
  (forall id b, Market.by_id s' !! id = Some b -> Market.by_id s !! id = Some b) /\
  (forall id, (forall x, x ∈ l -> id_bytes x (Some outer) ≠ Some id) ->
     Market.by_id s' !! id = Market.by_id s !! id) /\
  (forall b o, order_at s b = Some o ->
     exists o', order_at s' b = Some o' /\ same_terms o o' /\
       (~ named_in outer l s b -> o' = o) /\
       (named_in outer l s b ->
        Order.status o' = Some st /\
        order_on_update b ∈ Market.scheduled_events s')).
Proof.
  intros Hst. revert s. induction l as [|x l IH]; intros s Hl Hok Hr s'.
  - split; [done|]. split; [by intros x Hx%elem_of_nil|].
    split; [done|]. split; [done|].
    intros b o Hob. exists o. split; [done|]. split; [done|]. split; [done|].
    intros (x & id & Hx%elem_of_nil & _). done.
  - unfold s'. rewrite for_each_cons, state_after_bind.
    rewrite for_each_cons, outcome_bind in Hr.
    destruct (outcome (reconcile_canceled outer st x s)) as [[]|e] eqn:Hx; [|done].
    destruct (reconcile_canceled_step outer st x s Hst (Hl x ltac:(by left)) Hok Hx)
      as (idx & Hidx & Hok1 & Hreg1 & Hobj1).
    set (s1 := state_after (reconcile_canceled outer st x s)) in *.
    destruct (IH s1 (fun y Hy => Hl y ltac:(by right)) Hok1 Hr)
      as (Hok' & Hgone & Hshrink & Hframe & Hobj).
    set (s2 := state_after (for_each (reconcile_canceled outer st) l s1)) in *.
    assert (Hshrink1 : forall id b, Market.by_id s1 !! id = Some b ->
                         Market.by_id s !! id = Some b).
    { intros id b. rewrite Hreg1. by intros [_ ?]%lookup_delete_Some. }
    split; [done|]. split; [|split; [|split]].
    + intros y [->|Hy]%elem_of_cons; [|by apply Hgone].
      exists idx. split; [done|].
      destruct (Market.by_id s2 !! idx) as [b|] eqn:E; [|done].
      apply Hshrink in E. rewrite Hreg1, lookup_delete_eq in E. done.
    + intros id b H. by apply Hshrink1, Hshrink.
    + intros id Hid. rewrite Hframe by (intros y Hy; apply Hid; by right).
      rewrite Hreg1. apply lookup_delete_ne.
      intros <-. by apply (Hid x ltac:(by left)).
    + intros b o Hob.
      destruct (Hobj1 b o Hob) as (o1 & Hat1 & Hsame1 & Hother1 & Hmine1).
      destruct (Hobj b o1 Hat1) as (o' & Hat' & Hsame' & Hother' & Hmine').
      exists o'. split; [done|]. split.
      { destruct Hsame1 as (?&?&?&?&?&?), Hsame' as (?&?&?&?&?&?).
        repeat split; congruence. }
      assert (Hext : extends_pending s1 s2).
      { apply (steps_for_each _ extends_pending_preorder).
        apply reconcile_canceled_extends. }
      destruct (decide (Market.by_id s !! idx = Some b)) as [Hb|Hb].
      * assert (Hnot : ~ named_in outer l s1 b).
        { intros (y & id & Hy & Hidy & Hregy). rewrite Hreg1 in Hregy.
          apply lookup_delete_Some in Hregy as [Hne Hregy].
          destruct (Hok _ _ Hb) as (ob & Hatb & Hidb).
          destruct (Hok _ _ Hregy) as (ob' & Hatb' & Hidb'). congruence. }
        rewrite (Hother' Hnot). split.
        -- intros Hn. exfalso. apply Hn. exists x, idx. split; [by left | done].
        -- intros _. destruct (Hmine1 Hb) as [H1 H2]. split; [done|].
           destruct Hext as [[k Hk] _]. rewrite Hk. apply elem_of_app. by left.
      * rewrite (Hother1 Hb) in *. split.
        -- intros Hn. apply Hother'. intros (y & id & Hy & Hidy & Hregy).
           apply Hn. exists y, id. split; [by right|]. split; [done|].
           by apply Hshrink1.
        -- intros (y & id & Hy & Hidy & Hregy). apply Hmine'.
           apply elem_of_cons in Hy as [->|Hy].
           ++ exfalso. apply Hb. congruence.
           ++ exists y, id. split; [done|]. split; [done|].
              rewrite Hreg1, lookup_delete_ne; [done|]. intros <-. by apply Hb.
Qed.

(** [handle_order_canceled_msg] is its loop over the order records, run
    after account updates that touch no order. *)
Lemma canceled_split message outer s :
  exists s0,
    handle_order_canceled_msg message outer s =
    match OrderMessage.status (Payload.order message) with
    | Some st => for_each (reconcile_canceled outer st) (Payload.orders message) s0
    | None => (Raised AttributeError, s0)
    end /\
    Market.order_store s0 = Market.order_store s /\
    Market.by_id s0 = Market.by_id s.
Proof.
  unfold handle_order_canceled_msg.
  rewrite (bind_returns (handle_order_margin message)) by returns_walk.
  rewrite (bind_returns (handle_mark_price message)) by returns_walk.
  rewrite (bind_returns (handle_balance message)) by returns_walk.
  rewrite (bind_returns (set_position_margin _)) by returns_walk.
  rewrite (bind_returns (schedule_event position_on_update)) by returns_walk.
  eexists. split; [|split].
  - destruct (OrderMessage.status (Payload.order message)); reflexivity.
  - peel Market.order_store. done.
  - peel Market.by_id. done.
Qed.

(** X7. A cancel report whose status is outside the live set, over order
    records without a status of their own: when the handler returns, no
    order named by a record is left in the registry; the registry entries of
    other identifiers are as before; an order the registry held under a named
    identifier has the status of the report, its price, quantity and other
    terms unchanged, and its [on_update] pending; every other order object
    is as it was. *)
Theorem cancel_report_removes_named_orders (message : Payload.t)
    (outer : Message.t) (st : OrderStatus) (s : Market.t) :
  store_ok s ->
  OrderMessage.status (Payload.order message) = Some st ->
  is_kept (Some st) = false ->
  (forall x, x ∈ Payload.orders message -> OrderMessage.status x = None) ->
  let r := handle_order_canceled_msg message outer s in
  let s' := state_after r in
  outcome r = Ok tt ->
  (forall x, x ∈ Payload.orders message -> exists id,
     id_bytes x (Some outer) = Some id /\ Market.by_id s' !! id = None) /\
  (forall id, (forall x, x ∈ Payload.orders message -> id_bytes x (Some outer) ≠ Some id) ->
     Market.by_id s' !! id = Market.by_id s !! id) /\
  (forall b o, order_at s b = Some o ->
     exists o', order_at s' b = Some o' /\ same_terms o o' /\
       (~ named_in outer (Payload.orders message) s b -> o' = o) /\
       (named_in outer (Payload.orders message) s b ->
        Order.status o' = Some st /\
        order_on_update b ∈ Market.scheduled_events s')).
Proof.
  intros Hok Hm Hst Hl r s'. unfold s', r.
  destruct (canceled_split message outer s) as (s0 & -> & Hstore & Hreg).
  rewrite Hm. intros Hr.
  assert (Hok0 : store_ok s0) by by apply (store_ok_same s).
  destruct (canceled_loop outer st _ s0 Hst Hl Hok0 Hr)
    as (_ & Hgone & _ & Hframe & Hobj).
  split; [done|]. split; [by rewrite <- Hreg|].
  intros b o Hob.
  assert (Hn : named_in outer (Payload.orders message) s0 b <->
               named_in outer (Payload.orders message) s b).
  { unfold named_in. by rewrite Hreg. }
  destruct (Hobj b o) as (o' & Hat' & Hsame & Hother & Hmine).
  { unfold order_at. by rewrite Hstore. }
  exists o'. split; [done|]. split; [done|].
  split; [intros H; apply Hother; by rewrite Hn | intros H; apply Hmine; by rewrite Hn].
Qed.

(** ** The handlers of order reports *)

Lemma handle_order_keeps_account message outer forced :
  keeps account (handle_order message outer forced).
Proof. keeps_walk. Qed.

Lemma schedule_event_keeps_account event : keeps account (schedule_event event).
Proof. keeps_walk. Qed.

(** X9. An order-status report under an envelope with a non-zero error code
    leaves the account figures (balance, P&L, position, margins) alone; under
    a zero error code they are those of the message, and this whether or not
    the order itself can then be reconciled. *)
Theorem order_report_account_updates (message : Payload.t) (outer : Message.t)
    (s : Market.t) :
  let s' := state_after (handle_order_status_msg message outer s) in
  (Message.error_code outer ≠ 0 -> account s' = account s) /\
  (Message.error_code outer = 0 ->
   account s' =
   (Some (Payload.trader_balance message), Some (Payload.upnl message),
    Some (Payload.pnl message),
    Position.make (Some (Payload.position_contracts message))
      (Some (Payload.position_volume message))
      (Some (Payload.position_liquidation_volume message))
      (Some (Payload.position_bankruptcy_volume message))
      (Some (Payload.position_type message))
      (Some (Payload.position_margin message)),
    (Some (Payload.order_margin message), Some (Payload.buy_order_margin message),
     Some (Payload.sell_order_margin message)))).
Proof.
  intros s'.
  assert (Htail : forall s0,
    account (state_after
      ((let* (order, have_seen_this_order_before) :=
          handle_order (Payload.order message) (Some outer) None in
        schedule_event (order_on_update order)) s0)) = account s0).
  { intros s0. rewrite state_after_bind.
    destruct (outcome (handle_order _ _ _ s0)) as [[a seen]|e].
    - by rewrite schedule_event_keeps_account, handle_order_keeps_account.
    - apply handle_order_keeps_account. }
  unfold s', handle_order_status_msg. split; intros He.
  - rewrite bool_decide_eq_false_2 by done.
    rewrite (bind_returns (ret tt)) by apply returns_ret. apply Htail.
  - rewrite bool_decide_eq_true_2 by done.
    rewrite bind_returns by returns_walk. rewrite Htail.
    unfold handle_balance, handle_position, handle_order_margin, modify_trader,
      modify_orders, schedule_event, bind, modify, state_after, account.
    simpl. repeat case_match; reflexivity.
Qed.

(** ** Leverage and exchange rates *)

(** X10. A leverage message never fails.  A reported leverage of zero
    leaves the leverage of the trader as it is, any other value replaces it
    and makes [trader.on_update] pending.  Under an envelope with a non-zero
    error code nothing else changes: neither the account figures nor the
    last trade, and with a leverage of zero the market is left exactly as it
    was. *)
Theorem leverage_message_effect (message : Payload.t) (outer : Message.t) (s : Market.t) :
  let r := handle_leverage_msg message outer s in
  let s' := state_after r in
  outcome r = Ok tt /\
  Trader.leverage (Market.trader s') =
    (if bool_decide (Payload.leverage message = 0)
     then Trader.leverage (Market.trader s)
     else Some (Payload.leverage message)) /\
  (Payload.leverage message ≠ 0 -> trader_on_update ∈ Market.scheduled_events s') /\
  (Message.error_code outer ≠ 0 ->
   account s' = account s /\ Market.last_trade s' = Market.last_trade s) /\
  (Payload.leverage message = 0 -> Message.error_code outer ≠ 0 -> s' = s).
Proof.
  intros r s'.
  assert (Hr : outcome r = Ok tt) by (apply returns_unit; returns_walk).
  split; [done|]. split; [|split; [|split]].
  - unfold s', r, handle_leverage_msg.
    assert (K : forall m : M unit, m = (if bool_decide (Message.error_code outer = 0)
                  then handle_balance message >> handle_position message >>
                       handle_order_margin message >> handle_last_trade message
                  else ret tt) ->
                keeps trader_leverage m).
    { intros m ->. keeps_walk. }
    rewrite bind_returns by returns_walk.
    change (Trader.leverage (Market.trader ?x)) with (trader_leverage x).
    rewrite (K _ eq_refl).
    unfold trader_leverage, handle_leverage.
    destruct (bool_decide (Payload.leverage message = 0)); [reflexivity|].
    rewrite bind_returns by returns_walk.
    assert (K0 : keeps trader_leverage (schedule_event trader_on_update)) by keeps_walk.
    change (Trader.leverage (Market.trader ?x)) with (trader_leverage x).
    rewrite K0. reflexivity.
  - intros Hl. unfold s', r, handle_leverage_msg.
    rewrite bind_returns by returns_walk.
    match goal with
    | |- context [state_after (?m (state_after (handle_leverage message s)))] =>
      assert (Hext : steps extends_pending m) by extends_walk;
      destruct (Hext (state_after (handle_leverage message s))) as [[l ->] _]
    end.
    apply elem_of_app. left. unfold handle_leverage.
    rewrite bool_decide_eq_false_2 by done.
    rewrite bind_returns by returns_walk. apply schedule_event_again.
  - intros He. unfold s', r, handle_leverage_msg.
    rewrite bind_returns by returns_walk.
    rewrite bool_decide_eq_false_2 by done.
    change (state_after (ret tt ?x)) with x.
    assert (K1 : keeps account (handle_leverage message)) by keeps_walk.
    assert (K2 : keeps Market.last_trade (handle_leverage message)) by keeps_walk.
    by rewrite K1, K2.
  - intros Hl He. unfold s', r, handle_leverage_msg, handle_leverage.
    rewrite bool_decide_eq_true_2 by done.
    rewrite bool_decide_eq_false_2 by done. done.
Qed.

Lemma exchange_rate_run message s :
  handle_exchange_rate_msg message s =
  match Market.bot s with
  | None => (Raised AttributeError, s)
  | Some bot =>
    match Bot.currency_pairs bot !! Payload.currency_pair_id message with
    | None => (Ok tt, s)
    | Some ref =>
      schedule_event (currency_pair_on_update ref)
        (Market.set_pair_store
           (alter (CurrencyPair.set_rates (Payload.mark_price message)
                     (Payload.sell_price message) (Payload.buy_price message)
                     (negb (bool_decide (Payload.unreliable message = 0))))
              ref (Market.pair_store s)) s)
    end
  end.
Proof.
  unfold handle_exchange_rate_msg, bind, get, modify, ret, raise. simpl.
  repeat case_match; done.
Qed.

(** X11. An exchange-rate message without a bot fails with
    [AttributeError] and changes nothing; for a currency pair the bot does
    not track it returns and changes nothing; for a tracked pair it
    overwrites the four rates of that one pair, leaves every other pair
    (the market's own, when it is another) untouched, makes the [on_update]
    of the pair pending, and touches neither account, orders, order book nor
    last trade. *)
Theorem exchange_rate_updates_one_pair (message : Payload.t) (s : Market.t) :
  let r := handle_exchange_rate_msg message s in
  let s' := state_after r in
  match Market.bot s with
  | None => r = (Raised AttributeError, s)
  | Some bot =>
    outcome r = Ok tt /\
    match Bot.currency_pairs bot !! Payload.currency_pair_id message with
    | None => s' = s
    | Some ref =>
      Market.pair_store s' !! ref =
        CurrencyPair.set_rates (Payload.mark_price message)
          (Payload.sell_price message) (Payload.buy_price message)
          (negb (bool_decide (Payload.unreliable message = 0)))
        <$> Market.pair_store s !! ref /\
      (forall k, k ≠ ref -> Market.pair_store s' !! k = Market.pair_store s !! k) /\
      currency_pair_on_update ref ∈ Market.scheduled_events s' /\
      account s' = account s /\
      Market.order_book s' = Market.order_book s /\
      Market.order_store s' = Market.order_store s /\
      Market.by_id s' = Market.by_id s /\
      Market.last_trade s' = Market.last_trade s
    end
  end.
Proof.
  intros r s'. unfold s', r. rewrite exchange_rate_run.
  destruct (Market.bot s) as [bot|]; [|done].
  destruct (Bot.currency_pairs bot !! Payload.currency_pair_id message) as [ref|];
    [|done].
  split; [done|].
  assert (K1 : keeps Market.pair_store (schedule_event (currency_pair_on_update ref)))
    by keeps_walk.
  assert (K2 : keeps account (schedule_event (currency_pair_on_update ref)))
    by keeps_walk.
  assert (K3 : keeps Market.order_book (schedule_event (currency_pair_on_update ref)))
    by keeps_walk.
  assert (K4 : keeps Market.order_store (schedule_event (currency_pair_on_update ref)))
    by keeps_walk.
  assert (K5 : keeps Market.by_id (schedule_event (currency_pair_on_update ref)))
    by keeps_walk.
  assert (K6 : keeps Market.last_trade (schedule_event (currency_pair_on_update ref)))
    by keeps_walk.
  split; [rewrite K1; apply list_lookup_alter_eq|].
  split; [intros k Hk; rewrite K1; by apply list_lookup_alter_ne|].
  split; [apply schedule_event_again|].
  by rewrite K2, K3, K4, K5, K6.
Qed.

(** ** The order book across messages *)

Lemma bind_get {B} (k : Market.t -> M B) s : bind get k s = k s s.
Proof. done. Qed.

Lemma snapshot_run message s :
  book_consistent s ->
  handle_order_book_msg message s =
  (handle_last_trade message >> handle_mark_price message >>
   schedule_event order_book_on_update)
    (Market.set_order_book
       (OrderBook.make (Some (populate_orderbook ∅ (Payload.bids message)))
          (Some (populate_orderbook ∅ (Payload.asks message)))) s).
Proof.
  intros Hc. unfold book_consistent in Hc.
  change (handle_order_book_msg message)
    with (let* s := get in
          (match OrderBook.bids (Market.order_book s) with
           | Some _ =>
             modify (fun s => Market.set_order_book
                        (OrderBook.make (Some ∅) (OrderBook.asks (Market.order_book s))) s) >>
             match OrderBook.asks (Market.order_book s) with
             | Some _ => modify (Market.set_order_book (OrderBook.make (Some ∅) (Some ∅)))
             | None => raise AttributeError
             end
           | None => modify (Market.set_order_book (OrderBook.make (Some ∅) (Some ∅)))
           end) >>
          populate_bids (Payload.bids message) >>
          populate_asks (Payload.asks message) >>
          (handle_last_trade message >> handle_mark_price message >>
           schedule_event order_book_on_update)).
  unfold bind at 1. simpl.
  destruct (OrderBook.bids (Market.order_book s)) as [bm|] eqn:Hb.
  - destruct (OrderBook.asks (Market.order_book s)) as [am|] eqn:Ha.
    2: { destruct (proj1 Hc) as [? ?]; [eauto | done]. }
    unfold bind at 1. unfold bind at 1. simpl.
    unfold bind at 1. unfold populate_bids. unfold bind at 1 2. simpl.
    unfold bind at 1. unfold populate_asks. unfold bind at 1 2. simpl.
    f_equal; by destruct s.
  - unfold bind at 1. simpl.
    unfold bind at 1. unfold populate_bids. unfold bind at 1 2. simpl.
    unfold bind at 1. unfold populate_asks. unfold bind at 1 2. simpl.
    f_equal; by destruct s.
Qed.

Lemma update_without_bot_run message s :
  OrderBook.bids (Market.order_book s) = None ->
  Market.bot s = None ->
  handle_order_book_updated_msg message s = (Raised AttributeError, s).
Proof.
  intros Hb Hbot.
  unfold handle_order_book_updated_msg, order_book_request_of_bot.
  unfold bind at 1. simpl. rewrite Hb.
  unfold bind at 1. unfold bind at 1. unfold bind at 1. simpl. by rewrite Hbot.
Qed.

Lemma snapshot_tail_keeps_order_book message :
  keeps Market.order_book
    (handle_last_trade message >> handle_mark_price message >>
     schedule_event order_book_on_update).
Proof. keeps_walk. Qed.

Lemma handle_last_trade_keeps_order_book message :
  keeps Market.order_book (handle_last_trade message).
Proof. keeps_walk. Qed.

Lemma flush_keeps_order_book : keeps Market.order_book flush.
Proof. keeps_walk. Qed.

Lemma flush_keeps_by_id : keeps Market.by_id flush.
Proof. keeps_walk. Qed.

(** X12. A snapshot, on a book of which both sides are there or neither,
    returns and leaves as order book the merge of its bids and of its asks
    into empty maps, whatever the book held before; the last trade is that
    of the message, and the [on_update] of the last trade, of the market's
    currency pair and of the order book are pending. *)
Theorem snapshot_replaces_the_book (message : Payload.t) (s : Market.t) :
  book_consistent s ->
  let r := handle_order_book_msg message s in
  let s' := state_after r in
  outcome r = Ok tt /\
  Market.order_book s' =
    OrderBook.make (Some (populate_orderbook ∅ (Payload.bids message)))
      (Some (populate_orderbook ∅ (Payload.asks message))) /\
  Market.last_trade s' =
    Some (Trade.make (Some (Payload.last_trade_price message))
            (Some (Payload.last_trade_quantity message))
            (Some (Payload.last_trade_timestamp message))) /\
  last_trade_on_update ∈ Market.scheduled_events s' /\
  currency_pair_on_update (Market.currency_pair s) ∈ Market.scheduled_events s' /\
  order_book_on_update ∈ Market.scheduled_events s'.
Proof.
  intros Hc r s'. unfold s', r. rewrite (snapshot_run _ _ Hc).
  set (s0 := Market.set_order_book _ s).
  split; [apply returns_unit; returns_walk|].
  split; [by rewrite snapshot_tail_keeps_order_book|].
  rewrite bind_returns by returns_walk.
  rewrite bind_returns by returns_walk.
  set (s1 := state_after (handle_last_trade message s0)).
  set (s2 := state_after (handle_mark_price message s1)).
  assert (E1 : extends_pending s1 s2)
    by (assert (H : steps extends_pending (handle_mark_price message)) by extends_walk;
        apply H).
  assert (E2 : extends_pending s2 (state_after (schedule_event order_book_on_update s2)))
    by apply schedule_event_extends.
  destruct E1 as [[l1 E1] _], E2 as [[l2 E2] _].
  assert (H1 : last_trade_on_update ∈ Market.scheduled_events s1).
  { unfold s1. rewrite handle_last_trade_run, state_after_pair.
    apply schedule_event_again. }
  assert (H2 : currency_pair_on_update (Market.currency_pair s) ∈ Market.scheduled_events s2).
  { unfold s2, handle_mark_price. rewrite bind_get.
    rewrite bind_returns by returns_walk.
    assert (K : keeps Market.currency_pair (handle_last_trade message)) by keeps_walk.
    replace (Market.currency_pair s1) with (Market.currency_pair s)
      by (unfold s1; by rewrite K).
    apply schedule_event_again. }
  split.
  { assert (K1 : keeps Market.last_trade (schedule_event order_book_on_update))
      by keeps_walk.
    assert (K2 : keeps Market.last_trade (handle_mark_price message)) by keeps_walk.
    rewrite K1. unfold s2. rewrite K2. unfold s1.
    rewrite handle_last_trade_run, state_after_pair.
    by rewrite schedule_event_keeps_last_trade. }
  split; [rewrite E2, E1; apply elem_of_app; left; apply elem_of_app; by left|].
  split; [rewrite E2; apply elem_of_app; by left|].
  apply schedule_event_again.
Qed.

Lemma book_consistent_same s s' :
  Market.order_book s' = Market.order_book s -> book_consistent s -> book_consistent s'.
Proof. unfold book_consistent. by intros ->. Qed.

Lemma dispatch_keeps_order_book message :
  is_book_message (Message.kontent message) = false ->
  keeps Market.order_book (dispatch message).
Proof.
  intros H. destruct message as [k cid err]. unfold dispatch.
  destruct k; simpl in *; try done; keeps_walk.
Qed.

Lemma dispatch_keeps_orders message :
  is_order_message (Message.kontent message) = false ->
  keeps Market.order_store (dispatch message) /\ keeps Market.by_id (dispatch message).
Proof.
  intros H. destruct message as [k cid err]. unfold dispatch.
  destruct k; simpl in *; try done; split; keeps_walk.
Qed.

Lemma dispatch_book_consistent message s :
  book_consistent s -> book_consistent (state_after (dispatch message s)).
Proof.
  intros Hc.
  destruct (is_book_message (Message.kontent message)) eqn:Hk.
  2: { eapply book_consistent_same; [|done]. by apply dispatch_keeps_order_book. }
  destruct message as [k cid err].
  destruct k; try done; unfold dispatch; cbn [Message.kontent].
  - rewrite (snapshot_run _ _ Hc). unfold book_consistent.
    rewrite snapshot_tail_keeps_order_book. simpl. split; eauto.
  - destruct (OrderBook.bids (Market.order_book s)) as [bm|] eqn:Hb.
    + destruct (OrderBook.asks (Market.order_book s)) as [am|] eqn:Ha.
      2: { destruct (proj1 Hc) as [? ?]; [rewrite Hb; eauto | congruence]. }
      rewrite (initialized_update_run _ _ _ _ Hb Ha). unfold book_consistent.
      rewrite handle_last_trade_keeps_order_book, schedule_event_keeps_order_book.
      simpl. split; eauto.
    + destruct (Market.bot s) as [b|] eqn:Hbot.
      * rewrite (uninitialized_update_run _ _ _ Hb Hbot).
        unfold book_consistent. by rewrite handle_last_trade_keeps_order_book.
      * by rewrite (update_without_bot_run _ _ Hb Hbot).
Qed.

(** X13. Both sides of the order book are there or neither: no message
    handled by [handle_message] breaks this, whether handling returns or
    raises. *)
Theorem order_book_sides_stay_together (message : Message.t) (s : Market.t) :
  book_consistent s ->
  book_consistent (state_after (handle_message message s)).
Proof.
  intros Hc. unfold handle_message. rewrite state_after_bind.
  pose proof (dispatch_book_consistent message s Hc) as H.
  destruct (outcome (dispatch message s)); [|done].
  eapply book_consistent_same; [|exact H]. apply flush_keeps_order_book.
Qed.

(** X14. Only the two kinds of order-book message write the order book, and
    only trader-status and order reports (status, filled, canceled) write
    the orders and their registry: handling any other message leaves them as
    they were. *)
Theorem messages_touch_their_own_state (message : Message.t) (s : Market.t) :
  let s' := state_after (handle_message message s) in
  (is_book_message (Message.kontent message) = false ->
   Market.order_book s' = Market.order_book s) /\
  (is_order_message (Message.kontent message) = false ->
   Market.order_store s' = Market.order_store s /\
   Market.by_id s' = Market.by_id s).
Proof.
  intros s'. unfold s', handle_message. rewrite state_after_bind. split.
  - intros H. pose proof (dispatch_keeps_order_book message H s) as K.
    destruct (outcome (dispatch message s)); [|done].
    by rewrite flush_keeps_order_book.
  - intros H. destruct (dispatch_keeps_orders message H) as [K1 K2].
    destruct (outcome (dispatch message s)); [|by rewrite K1, K2].
    by rewrite flush_keeps_order_store, flush_keeps_by_id, K1, K2.
Qed.

(** ** What handling a message can raise *)

Lemma handle_order_raised_inv message outer forced s e :
  store_ok s ->
  outcome (handle_order message outer forced s) = Raised e ->
  outcome (resolve_id message outer s) = Raised e.
Proof.
  intros Hok Hr.
  destruct (outcome (resolve_id message outer s)) as [id|e0] eqn:Hid.
  - pose proof (handle_order_returns message outer forced s id Hok Hid) as H.
    cbv zeta in H. destruct (Market.by_id s !! id).
    + destruct H as (? & _ & _ & H & _). congruence.
    + destruct H as [H _]. congruence.
  - rewrite (handle_order_raised _ _ _ _ _ Hid) in Hr. by injection Hr as <-.
Qed.

Lemma handle_order_raises_only message outer forced s e :
  store_ok s ->
  outcome (handle_order message outer forced s) = Raised e ->
  match outer with
  | Some _ => e = ValueError
  | None => e = AttributeError \/ e = ValueError
  end.
Proof.
  intros Hok Hr%handle_order_raised_inv; [|done].
  rewrite resolve_id_outcome in Hr. unfold id_bytes in Hr.
  destruct outer; simpl in Hr; repeat case_bool_decide; simplify_eq; auto.
Qed.

Lemma for_each_raises_only {A} (body : A -> M unit) (I : Market.t -> Prop)
    (E : Exn -> Prop) :
  (forall x s, I s -> I (state_after (body x s)) /\
                      forall e, outcome (body x s) = Raised e -> E e) ->
  forall l s, I s -> forall e, outcome (for_each body l s) = Raised e -> E e.
Proof.
  intros Hbody l. induction l as [|x l IH]; intros s Hs e He; [done|].
  rewrite for_each_cons, outcome_bind in He.
  destruct (Hbody x s Hs) as [H1 H2].
  destruct (outcome (body x s)) as [[]|e0] eqn:Hx.
  - by eapply IH.
  - injection He as <-. by apply H2.
Qed.

Lemma reconciling_raises_only outer forced event s e :
  store_ok s ->
  let body := fun order_msg : OrderMessage.t =>
    let* (order, have_seen_this_order_before) := handle_order order_msg outer forced in
    schedule_event (event order) in
  forall x : OrderMessage.t,
  store_ok (state_after (body x s)) /\
  (outcome (body x s) = Raised e ->
   match outer with
   | Some _ => e = ValueError
   | None => e = AttributeError \/ e = ValueError
   end).
Proof.
  intros Hok body x. unfold body. rewrite state_after_bind, outcome_bind.
  pose proof (handle_order_store_ok x outer forced s Hok) as H1.
  pose proof (handle_order_raises_only x outer forced s e Hok) as H2.
  destruct (outcome (handle_order x outer forced s)) as [[a seen]|e0].
  - split; [|done]. eapply store_ok_same; [| |exact H1].
    + assert (K : keeps Market.order_store (schedule_event (event a))) by keeps_walk.
      apply K.
    + assert (K : keeps Market.by_id (schedule_event (event a))) by keeps_walk.
      apply K.
  - split; [done|]. intros [= ->]. by apply H2.
Qed.

Lemma status_split message outer s :
  exists s0,
    handle_order_status_msg message outer s =
    (let* (order, have_seen_this_order_before) :=
       handle_order (Payload.order message) (Some outer) None in
     schedule_event (order_on_update order)) s0 /\
    Market.order_store s0 = Market.order_store s /\
    Market.by_id s0 = Market.by_id s.
Proof.
  unfold handle_order_status_msg.
  rewrite bind_returns by returns_walk.
  eexists. split; [reflexivity|]. split.
  - assert (K : forall m : M unit,
       m = (if bool_decide (Message.error_code outer = 0)
            then handle_balance message >> handle_position message >>
                 handle_order_margin message else ret tt) ->
       keeps Market.order_store m) by (intros m ->; keeps_walk).
    by rewrite (K _ eq_refl).
  - assert (K : forall m : M unit,
       m = (if bool_decide (Message.error_code outer = 0)
            then handle_balance message >> handle_position message >>
                 handle_order_margin message else ret tt) ->
       keeps Market.by_id m) by (intros m ->; keeps_walk).
    by rewrite (K _ eq_refl).
Qed.

(** X15. What the handlers can raise, on a market whose registry and order
    book are sound.  Trader-balance, leverage, snapshot and unrecognised
    messages never make them raise.  Order-status and order-filled messages
    raise [ValueError] only (an identifier that is not 16 bytes).  Cancel
    and trader-status messages raise [AttributeError] or [ValueError] only.
    Exchange-rate messages raise [AttributeError] only, and only without a
    bot; incremental book updates likewise, and only before the first
    snapshot.  (The decoding helpers of the modules that are not among the
    sources are taken to return.) *)
Theorem handlers_raise_only (message : Message.t) (s : Market.t) (e : Exn) :
  store_ok s -> book_consistent s ->
  outcome (dispatch message s) = Raised e ->
  match Message.kontent message with
  | trader_status_msg _ | order_canceled_msg _ => e = AttributeError \/ e = ValueError
  | order_status_msg _ | order_filled_msg _ => e = ValueError
  | exchange_rate_msg _ => e = AttributeError /\ Market.bot s = None
  | order_book_updated_msg _ =>
    e = AttributeError /\ Market.bot s = None /\
    OrderBook.bids (Market.order_book s) = None
  | trader_balance_msg _ | order_book_msg _ | leverage_msg _ | unhandled_msg => False
  end.
Proof.
  intros Hok Hc. destruct message as [k cid err].
  destruct k as [p|p|p|p|p|p|p|p|p|]; unfold dispatch; cbn [Message.kontent]; intros Hr.
  - destruct (trader_status_split p s) as (s0 & Hs & Hstore & Hreg).
    rewrite Hs in Hr. revert Hr.
    apply (for_each_raises_only _ store_ok (fun e => e = AttributeError \/ e = ValueError));
      [|by apply (store_ok_same s)].
    intros x s1 Hok1.
    destruct (reconciling_raises_only None None order_on_update s1 e Hok1 x) as [H1 _].
    split; [exact H1|]. intros e0.
    by destruct (reconciling_raises_only None None order_on_update s1 e0 Hok1 x).
  - rewrite returns_unit in Hr by returns_walk. done.
  - rewrite exchange_rate_run in Hr. destruct (Market.bot s) as [bot|].
    + destruct (Bot.currency_pairs bot !! Payload.currency_pair_id p); [|done].
      rewrite returns_unit in Hr by returns_walk. done.
    + by injection Hr as <-.
  - rewrite (snapshot_run _ _ Hc) in Hr.
    rewrite returns_unit in Hr by returns_walk. done.
  - destruct (OrderBook.bids (Market.order_book s)) as [bm|] eqn:Hb.
    + destruct (OrderBook.asks (Market.order_book s)) as [am|] eqn:Ha.
      2: { destruct (proj1 Hc) as [? ?]; [rewrite Hb; eauto | congruence]. }
      rewrite (initialized_update_run _ _ _ _ Hb Ha) in Hr.
      rewrite returns_unit in Hr by returns_walk. done.
    + destruct (Market.bot s) as [b|] eqn:Hbot.
      * rewrite (uninitialized_update_run _ _ _ Hb Hbot) in Hr.
        rewrite returns_unit in Hr by returns_walk. done.
      * rewrite (update_without_bot_run _ _ Hb Hbot) in Hr. by injection Hr as <-.
  - destruct (status_split p (Message.make (order_status_msg p) cid err) s)
      as (s0 & Hs & Hstore & Hreg).
    rewrite Hs in Hr.
    assert (Hok0 : store_ok s0) by by apply (store_ok_same s).
    destruct (reconciling_raises_only (Some (Message.make (order_status_msg p) cid err))
                None order_on_update s0 e Hok0 (Payload.order p)) as [_ H].
    by apply H.
  - destruct (status_split p (Message.make (order_filled_msg p) cid err) s)
      as (s0 & Hs & Hstore & Hreg).
    rewrite Hs in Hr.
    assert (Hok0 : store_ok s0) by by apply (store_ok_same s).
    destruct (reconciling_raises_only (Some (Message.make (order_filled_msg p) cid err))
                None order_on_update s0 e Hok0 (Payload.order p)) as [_ H].
    by apply H.
  - destruct (canceled_split p (Message.make (order_canceled_msg p) cid err) s)
      as (s0 & Hs & Hstore & Hreg).
    rewrite Hs in Hr. destruct (OrderMessage.status (Payload.order p)) as [st|].
    2: { injection Hr as <-. by left. }
    right. revert Hr.
    apply (for_each_raises_only _ store_ok (fun e => e = ValueError));
      [|by apply (store_ok_same s)].
    intros x s1 Hok1.
    destruct (reconciling_raises_only (Some (Message.make (order_canceled_msg p) cid err))
                (Some st) order_on_update s1 e Hok1 x) as [H1 _].
    split; [exact H1|]. intros e0.
    by destruct (reconciling_raises_only (Some (Message.make (order_canceled_msg p) cid err))
                   (Some st) order_on_update s1 e0 Hok1 x).
  - rewrite returns_unit in Hr by returns_walk. done.
  - done.
Qed.

(** ** Notifications across messages *)

Lemma for_each_emit_ok_inv l s :
  outcome (for_each emit_event l s) = Ok tt ->
  forall e, e ∈ l -> Market.hooks s e ≠ ReturnsOther.
Proof.
  revert s. induction l as [|x l IH]; intros s Hr e He; [by apply elem_of_nil in He|].
  rewrite for_each_cons, outcome_bind, emit_event_outcome in Hr.
  destruct (Market.hooks s x) eqn:Hx; [..|done];
    (apply elem_of_cons in He as [->|He]; [by rewrite Hx|];
     rewrite <- (emit_event_keeps_hooks x s); by eapply IH).
Qed.

Lemma for_each_emit_poisoned l s e :
  e ∈ l -> Market.hooks s e = ReturnsOther ->
  outcome (for_each emit_event l s) = Raised TypeError.
Proof.
  intros He Hh.
  destruct (outcome (for_each emit_event l s)) as [[]|exn] eqn:Hr.
  - by destruct (for_each_emit_ok_inv l s Hr e He).
  - clear He Hh. revert s Hr. induction l as [|x l IH]; intros s Hr; [done|].
    rewrite for_each_cons, outcome_bind, emit_event_outcome in Hr.
    destruct (Market.hooks s x); [by eapply IH..|done].
Qed.

Lemma flush_outcome s :
  outcome (flush s) = outcome (for_each emit_event (Market.scheduled_events s) s).
Proof.
  unfold flush. rewrite bind_get, outcome_bind.
  by destruct (outcome (for_each emit_event (Market.scheduled_events s) s)) as [[]|].
Qed.

Lemma flush_keeps_hooks : keeps Market.hooks flush.
Proof. keeps_walk. Qed.

Lemma flush_raised_pending s e :
  outcome (flush s) = Raised e ->
  Market.scheduled_events (state_after (flush s)) = Market.scheduled_events s.
Proof.
  rewrite flush_outcome. intros Hr. unfold flush.
  rewrite bind_get, state_after_bind, Hr. apply for_each_emit_keeps_pending.
Qed.

(** X16. Within one message no callback is called twice, whatever the kind
    of the message: from a pending list without duplicates, the callbacks
    called by [handle_message] are distinct and were all pending when the
    handlers had finished; when [handle_message] returns they are exactly
    those, and the pending list is empty. *)
Theorem no_callback_twice_in_a_message (message : Message.t) (s : Market.t) :
  NoDup (Market.scheduled_events s) ->
  let r := handle_message message s in
  let pending := Market.scheduled_events (state_after (dispatch message s)) in
  exists fired,
    Market.called (state_after r) = Market.called s ++ fired /\
    NoDup fired /\
    (forall e, e ∈ fired -> e ∈ pending) /\
    (outcome r = Ok tt ->
     fired = pending /\ Market.scheduled_events (state_after r) = []).
Proof.
  intros Hnd r pending. unfold r, handle_message.
  rewrite outcome_bind, state_after_bind.
  destruct (dispatch_extends_pending message s) as [_ Hnd1].
  specialize (Hnd1 Hnd). fold pending in Hnd1.
  destruct (outcome (dispatch message s)) as [[]|e] eqn:Hd.
  - set (s1 := state_after (dispatch message s)) in *.
    destruct (flush_called s1) as (fired & Hc & [k Hk] & _).
    exists fired. rewrite Hc. unfold s1 at 1. rewrite dispatch_keeps_called.
    split; [done|]. fold pending in Hk. split; [|split].
    + rewrite Hk in Hnd1. by apply NoDup_app in Hnd1 as [? _].
    + intros e He. rewrite Hk. apply elem_of_app. by left.
    + intros Hr. rewrite flush_outcome in Hr.
      destruct (flush_ok s1 (for_each_emit_ok_inv _ _ Hr)) as (_ & Hc' & Hp).
      split; [|done]. rewrite Hc in Hc'. by apply app_inv_head in Hc'.
  - exists []. rewrite dispatch_keeps_called, app_nil_r.
    split; [done|]. split; [apply NoDup_nil_2|]. split; [|done].
    by intros e0 He%elem_of_nil.
Qed.

(** X17. A pending callback that returns an unsupported value blocks the
    market: [handle_message] raises on every message, and the callback is
    still pending, and still returns that value, afterwards. *)
Theorem unsupported_return_blocks_later_messages (message : Message.t) (s : Market.t) :
  poisoned s ->
  let r := handle_message message s in
  (exists e, outcome r = Raised e) /\ poisoned (state_after r).
Proof.
  intros (ev & Hev & Hh) r. unfold r, handle_message.
  rewrite outcome_bind, state_after_bind.
  set (s1 := state_after (dispatch message s)).
  assert (Hev1 : ev ∈ Market.scheduled_events s1).
  { destruct (dispatch_extends_pending message s) as [[l Hl] _].
    unfold s1. rewrite Hl. apply elem_of_app. by left. }
  assert (Hh1 : Market.hooks s1 ev = ReturnsOther).
  { unfold s1. by rewrite dispatch_keeps_hooks. }
  destruct (outcome (dispatch message s)) as [[]|e].
  - assert (Hr : outcome (flush s1) = Raised TypeError).
    { rewrite flush_outcome. by eapply for_each_emit_poisoned. }
    split; [eauto|]. exists ev.
    rewrite (flush_raised_pending _ _ Hr), flush_keeps_hooks. done.
  - split; [eauto|]. by exists ev.
Qed.

(** ** More on the order-book merge *)

Lemma populate_orderbook_cons target entry rest :
  populate_orderbook target (entry :: rest) =
  populate_orderbook (populate_orderbook target [entry]) rest.
Proof. done. Qed.

Lemma populate_orderbook_other target source k :
  (forall e, e ∈ source -> OrderBookEntry.price e ≠ k) ->
  populate_orderbook target source !! k = target !! k.
Proof.
  revert target. induction source as [|x l IH]; intros target H; [done|].
  rewrite populate_orderbook_cons, IH by (intros e He; apply H; by right).
  rewrite populate_orderbook_one_lookup, decide_False; [done|].
  intros ->. by apply (H x ltac:(by left)).
Qed.

Lemma populate_orderbook_origin target source k e :
  populate_orderbook target source !! k = Some e ->
  target !! k = Some e \/ (e ∈ source /\ OrderBookEntry.price e = k).
Proof.
  revert target. induction source as [|x l IH]; intros target H; [by left|].
  rewrite populate_orderbook_cons in H. apply IH in H as [H|[H1 H2]].
  - rewrite populate_orderbook_one_lookup in H.
    case_decide as Hk; [|by left]. case_decide; [done|].
    injection H as <-. right. split; [by left | done].
  - right. split; [by right | done].
Qed.

(** X18. The merge leaves alone every level whose price no entry names;
    every level of the result was in the map or is an entry of the list
    filed under its own price; so a map in which every level is filed under
    its own price stays so. *)
Theorem populate_orderbook_levels (target : gmap Decimal OrderBookEntry.t)
    (source : list OrderBookEntry.t) :
  let result := populate_orderbook target source in
  (forall k, (forall e, e ∈ source -> OrderBookEntry.price e ≠ k) ->
     result !! k = target !! k) /\
  (forall k e, result !! k = Some e ->
     target !! k = Some e \/ (e ∈ source /\ OrderBookEntry.price e = k)) /\
  ((forall k e, target !! k = Some e -> OrderBookEntry.price e = k) ->
   forall k e, result !! k = Some e -> OrderBookEntry.price e = k).
Proof.
  intros result. split; [|split].
  - intros k. apply populate_orderbook_other.
  - intros k e. apply populate_orderbook_origin.
  - intros Ht k e [H|[_ H]]%populate_orderbook_origin; [by apply Ht | done].
Qed.

(** X19. The last entry for a price decides its level: when no later entry
    names the price of [entry], the level is absent if the quantity of
    [entry] is zero and the level was there when [entry] was reached, and is
    [entry] otherwise. *)
Theorem last_entry_decides_level (target : gmap Decimal OrderBookEntry.t)
    (before : list OrderBookEntry.t) (entry : OrderBookEntry.t)
    (after : list OrderBookEntry.t) :
  (forall e, e ∈ after -> OrderBookEntry.price e ≠ OrderBookEntry.price entry) ->
  populate_orderbook target (before ++ entry :: after) !! OrderBookEntry.price entry =
  if decide (OrderBookEntry.quantity entry = 0%Qc /\
             is_Some (populate_orderbook target before !! OrderBookEntry.price entry))
  then None else Some entry.
Proof.
  intros H. rewrite populate_orderbook_app, populate_orderbook_cons.
  rewrite populate_orderbook_other by done.
  rewrite populate_orderbook_one_lookup. by rewrite decide_True.
Qed.

(** X20. An incremental update on an initialized book returns, merges the
    bid updates into the bids and the ask updates into the asks, and asks
    for no snapshot. *)
Theorem incremental_update_merges_both_sides (message : Payload.t) (s : Market.t)
    (bm am : gmap Decimal OrderBookEntry.t) :
  OrderBook.bids (Market.order_book s) = Some bm ->
  OrderBook.asks (Market.order_book s) = Some am ->
  let r := handle_order_book_updated_msg message s in
  outcome r = Ok tt /\
  Market.order_book (state_after r) =
    OrderBook.make (Some (populate_orderbook bm (Payload.bid_updates message)))
      (Some (populate_orderbook am (Payload.ask_updates message))) /\
  Market.tasks (state_after r) = Market.tasks s.
Proof.
  intros Hb Ha r. unfold r. rewrite (initialized_update_run _ _ _ _ Hb Ha).
  split; [apply returns_unit; returns_walk|].
  assert (K : keeps Market.tasks (handle_last_trade message)) by keeps_walk.
  rewrite handle_last_trade_keeps_order_book, schedule_event_keeps_order_book.
  rewrite K, schedule_event_keeps_tasks. done.
Qed.

(** ** The further properties at sample inputs *)

Lemma BTC_USD_ok : store_ok BTC_USD.
Proof. apply store_ok_init. Qed.

Lemma handle_order_fails_atomically_witness :
  store_ok BTC_USD /\
  handle_order anonymous_report None None BTC_USD = (Raised AttributeError, BTC_USD).
Proof.
  split; [apply BTC_USD_ok|].
  exact (handle_order_fails_atomically anonymous_report None None BTC_USD BTC_USD_ok).
Defined.

Lemma handle_order_identity_witness :
  store_ok with_accepted_order /\
  outcome (handle_order sample_cancel None None with_accepted_order) = Ok (0%nat, true) /\
  exists o,
    order_at (state_after (handle_order sample_cancel None None with_accepted_order)) 0%nat
      = Some o /\
    id_bytes sample_cancel None = Some (Order.id o) /\
    Market.by_id with_accepted_order !! Order.id o = Some 0%nat.
Proof.
  split; [apply with_accepted_order_ok|]. split; [vm_compute; reflexivity|].
  apply (handle_order_identity sample_cancel None None with_accepted_order 0%nat true
           (proj1 with_accepted_order_ok)).
  vm_compute; reflexivity.
Defined.

Lemma handle_order_touches_one_order_witness :
  store_ok with_accepted_order /\
  order_at with_accepted_order 0%nat = Some accepted_order /\
  exists o',
    order_at (state_after (handle_order sample_cancel None None with_accepted_order)) 0%nat
      = Some o' /\
    same_terms accepted_order o'.
Proof.
  split; [apply with_accepted_order_ok|].
  assert (Hat : order_at with_accepted_order 0%nat = Some accepted_order)
    by (vm_compute; reflexivity).
  split; [exact Hat|].
  destruct (proj1 (handle_order_touches_one_order sample_cancel None None
                     with_accepted_order (proj1 with_accepted_order_ok))
              0%nat accepted_order Hat) as (o' & H1 & H2 & _).
  exists o'. split; [exact H1 | exact H2].
Defined.

Lemma unknown_order_is_built_from_message_witness :
  store_ok BTC_USD /\
  outcome (handle_order partly_filled_report None None BTC_USD) = Ok (0%nat, false) /\
  exists o,
    Market.order_store (state_after (handle_order partly_filled_report None None BTC_USD))
      = Market.order_store BTC_USD ++ [o] /\
    Order.quantity o = dec 4.
Proof.
  split; [apply BTC_USD_ok|]. split; [vm_compute; reflexivity|].
  destruct (unknown_order_is_built_from_message partly_filled_report None None BTC_USD
              0%nat BTC_USD_ok) as (o & H1 & _ & _ & H2 & _).
  { vm_compute; reflexivity. }
  exists o. split; [exact H1 | exact H2].
Defined.

Lemma envelope_error_is_attached_witness :
  store_ok BTC_USD /\
  outcome (handle_order rejected_report (Some (error_envelope unhandled_msg)) None BTC_USD)
    = Ok (0%nat, false) /\
  exists o',
    order_at (state_after (handle_order rejected_report
                (Some (error_envelope unhandled_msg)) None BTC_USD)) 0%nat = Some o' /\
    Order.error_code o' = Some 42.
Proof.
  split; [apply BTC_USD_ok|]. split; [vm_compute; reflexivity|].
  destruct (envelope_error_is_attached rejected_report (error_envelope unhandled_msg)
              None BTC_USD 0%nat false BTC_USD_ok) as (o' & H1 & H2).
  { vm_compute; reflexivity. }
  exists o'. split; [exact H1 | exact H2].
Defined.

Lemma registry_follows_status_witness :
  store_ok with_accepted_order /\
  outcome (handle_order sample_cancel None None with_accepted_order) = Ok (0%nat, true) /\
  exists o,
    order_at (state_after (handle_order sample_cancel None None with_accepted_order)) 0%nat
      = Some o /\
    Market.by_id (state_after (handle_order sample_cancel None None with_accepted_order)) =
    if is_kept (Order.status o)
    then <[Order.id o := 0%nat]> (Market.by_id with_accepted_order)
    else delete (Order.id o) (Market.by_id with_accepted_order).
Proof.
  split; [apply with_accepted_order_ok|]. split; [vm_compute; reflexivity|].
  apply (registry_follows_status sample_cancel None None with_accepted_order 0%nat true
           (proj1 with_accepted_order_ok)).
  vm_compute; reflexivity.
Defined.

Lemma cancel_report_removes_named_orders_witness :
  let outer := envelope (order_canceled_msg cancel_report) in
  store_ok with_accepted_order /\
  OrderMessage.status (Payload.order cancel_report) = Some CANCELED /\
  is_kept (Some CANCELED) = false /\
  (forall x, x ∈ Payload.orders cancel_report -> OrderMessage.status x = None) /\
  outcome (handle_order_canceled_msg cancel_report outer with_accepted_order) = Ok tt /\
  exists id,
    id_bytes (order_report None 7 10 0) (Some outer) = Some id /\
    Market.by_id (state_after (handle_order_canceled_msg cancel_report outer
                                 with_accepted_order)) !! id = None.
Proof.
  intros outer.
  assert (Hl : forall x, x ∈ Payload.orders cancel_report -> OrderMessage.status x = None).
  { intros x Hx. apply list_elem_of_singleton in Hx. rewrite Hx. reflexivity. }
  assert (Hr : outcome (handle_order_canceled_msg cancel_report outer with_accepted_order)
               = Ok tt) by (vm_compute; reflexivity).
  split; [apply with_accepted_order_ok|]. split; [reflexivity|]. split; [reflexivity|].
  split; [exact Hl|]. split; [exact Hr|].
  apply (proj1 (cancel_report_removes_named_orders cancel_report outer CANCELED
                  with_accepted_order (proj1 with_accepted_order_ok) eq_refl eq_refl Hl Hr)).
  apply list_elem_of_singleton. reflexivity.
Defined.

Lemma order_report_account_updates_witness :
  let outer := error_envelope (order_status_msg sample_fill) in
  Message.error_code outer ≠ 0 /\
  account (state_after (handle_order_status_msg sample_fill outer BTC_USD)) =
    account BTC_USD /\
  Message.error_code (envelope (order_status_msg sample_fill)) = 0 /\
  Trader.balance (Market.trader
    (state_after (handle_order_status_msg sample_fill
                    (envelope (order_status_msg sample_fill)) BTC_USD))) = Some (dec 0).
Proof.
  intros outer.
  assert (He : Message.error_code outer ≠ 0) by discriminate.
  split; [exact He|].
  split; [exact (proj1 (order_report_account_updates sample_fill outer BTC_USD) He)|].
  split; [reflexivity|].
  pose proof (proj2 (order_report_account_updates sample_fill
                       (envelope (order_status_msg sample_fill)) BTC_USD) eq_refl) as H.
  exact (f_equal (fun x => fst (fst (fst (fst x)))) H).
Defined.

Lemma leverage_message_effect_witness :
  let outer := error_envelope (leverage_msg leverage_report) in
  Payload.leverage leverage_report ≠ 0 /\
  Message.error_code outer ≠ 0 /\
  Trader.leverage (Market.trader
    (state_after (handle_leverage_msg leverage_report outer BTC_USD))) = Some 5 /\
  trader_on_update ∈ Market.scheduled_events
    (state_after (handle_leverage_msg leverage_report outer BTC_USD)) /\
  account (state_after (handle_leverage_msg leverage_report outer BTC_USD)) =
    account BTC_USD /\
  Payload.leverage sample_fill = 0 /\
  state_after (handle_leverage_msg sample_fill
                 (error_envelope (leverage_msg sample_fill)) BTC_USD) = BTC_USD.
Proof.
  intros outer.
  assert (Hl : Payload.leverage leverage_report ≠ 0) by discriminate.
  assert (He : Message.error_code outer ≠ 0) by discriminate.
  destruct (leverage_message_effect leverage_report outer BTC_USD)
    as (_ & H1 & H2 & H3 & _).
  split; [exact Hl|]. split; [exact He|]. split; [exact H1|].
  split; [exact (H2 Hl)|]. split; [exact (proj1 (H3 He))|]. split; [reflexivity|].
  destruct (leverage_message_effect sample_fill
              (error_envelope (leverage_msg sample_fill)) BTC_USD) as (_ & _ & _ & _ & H4).
  apply H4; [reflexivity | discriminate].
Defined.

Lemma exchange_rate_updates_one_pair_witness :
  outcome (handle_exchange_rate_msg sample_fill BTC_USD_attached) = Ok tt /\
  1%nat ≠ 0%nat /\
  Market.pair_store (state_after (handle_exchange_rate_msg sample_fill BTC_USD_attached))
    !! 1%nat = Market.pair_store BTC_USD_attached !! 1%nat /\
  handle_exchange_rate_msg sample_fill BTC_USD = (Raised AttributeError, BTC_USD).
Proof.
  pose proof (exchange_rate_updates_one_pair sample_fill BTC_USD_attached) as H.
  cbv zeta in H.
  change (Market.bot BTC_USD_attached) with (Some (Bot.make {[1 := 0%nat]})) in H.
  cbv iota beta in H. destruct H as [H1 H2].
  change (Bot.currency_pairs (Bot.make {[1 := 0%nat]}) !! Payload.currency_pair_id sample_fill)
    with (Some 0%nat) in H2.
  cbv iota beta in H2. destruct H2 as (_ & H2 & _).
  split; [exact H1|]. split; [discriminate|]. split; [apply H2; discriminate|].
  exact (exchange_rate_updates_one_pair sample_fill BTC_USD).
Defined.

Lemma BTC_USD_attached_consistent : book_consistent BTC_USD_attached.
Proof. unfold book_consistent. simpl. split; intros [? ?]; done. Qed.

Lemma BTC_USD_consistent : book_consistent BTC_USD.
Proof. unfold book_consistent. simpl. split; intros [? ?]; done. Qed.

Lemma snapshot_replaces_the_book_witness :
  book_consistent BTC_USD_attached /\
  outcome (handle_order_book_msg sample_snapshot BTC_USD_attached) = Ok tt /\
  Market.order_book BTC_USD_with_book =
    OrderBook.make (Some (populate_orderbook ∅ (Payload.bids sample_snapshot)))
      (Some (populate_orderbook ∅ (Payload.asks sample_snapshot))).
Proof.
  split; [apply BTC_USD_attached_consistent|].
  destruct (snapshot_replaces_the_book sample_snapshot BTC_USD_attached
              BTC_USD_attached_consistent) as (H1 & H2 & _).
  split; [exact H1 | exact H2].
Defined.

Lemma order_book_sides_stay_together_witness :
  book_consistent BTC_USD_attached /\
  book_consistent
    (state_after (handle_message (envelope (order_book_msg sample_snapshot))
                    BTC_USD_attached)).
Proof.
  split; [apply BTC_USD_attached_consistent|].
  apply order_book_sides_stay_together, BTC_USD_attached_consistent.
Defined.

Lemma messages_touch_their_own_state_witness :
  let message := envelope (trader_balance_msg sample_fill) in
  is_book_message (Message.kontent message) = false /\
  is_order_message (Message.kontent message) = false /\
  Market.order_book (state_after (handle_message message with_accepted_order)) =
    Market.order_book with_accepted_order /\
  Market.order_store (state_after (handle_message message with_accepted_order)) =
    Market.order_store with_accepted_order.
Proof.
  intros message. split; [reflexivity|]. split; [reflexivity|].
  destruct (messages_touch_their_own_state message with_accepted_order) as [H1 H2].
  split; [exact (H1 eq_refl) | exact (proj1 (H2 eq_refl))].
Defined.

Lemma handlers_raise_only_witness :
  let message := envelope (trader_status_msg
                   (payload_of partly_filled_report [anonymous_report])) in
  store_ok BTC_USD /\ book_consistent BTC_USD /\
  outcome (dispatch message BTC_USD) = Raised AttributeError /\
  (AttributeError = AttributeError \/ AttributeError = ValueError).
Proof.
  intros message.
  assert (Hr : outcome (dispatch message BTC_USD) = Raised AttributeError)
    by (vm_compute; reflexivity).
  split; [apply BTC_USD_ok|]. split; [apply BTC_USD_consistent|]. split; [exact Hr|].
  exact (handlers_raise_only message BTC_USD AttributeError BTC_USD_ok
           BTC_USD_consistent Hr).
Defined.

Lemma no_callback_twice_in_a_message_witness :
  let message := envelope (order_status_msg sample_fill) in
  NoDup (Market.scheduled_events BTC_USD) /\
  outcome (handle_message message BTC_USD) = Ok tt /\
  exists fired,
    Market.called (state_after (handle_message message BTC_USD)) =
      Market.called BTC_USD ++ fired /\
    NoDup fired /\
    fired = Market.scheduled_events (state_after (dispatch message BTC_USD)).
Proof.
  intros message.
  assert (Hnd : NoDup (Market.scheduled_events BTC_USD)) by apply NoDup_nil_2.
  assert (Hr : outcome (handle_message message BTC_USD) = Ok tt)
    by (vm_compute; reflexivity).
  split; [exact Hnd|]. split; [exact Hr|].
  destruct (no_callback_twice_in_a_message message BTC_USD Hnd)
    as (fired & H1 & H2 & _ & H3).
  exists fired. split; [exact H1|]. split; [exact H2|]. exact (proj1 (H3 Hr)).
Defined.

Lemma BTC_USD_poisoned_is : poisoned BTC_USD_poisoned.
Proof.
  exists position_on_update. split; [|reflexivity].
  assert (H : Market.scheduled_events BTC_USD_poisoned =
              [trader_on_update; position_on_update; orders_on_margins_update;
               order_on_update 0]) by (vm_compute; reflexivity).
  rewrite H. right. left.
Qed.

Lemma unsupported_return_blocks_later_messages_witness :
  poisoned BTC_USD_poisoned /\
  (exists e, outcome (handle_message (envelope unhandled_msg) BTC_USD_poisoned) = Raised e) /\
  poisoned (state_after (handle_message (envelope unhandled_msg) BTC_USD_poisoned)).
Proof.
  split; [apply BTC_USD_poisoned_is|].
  apply unsupported_return_blocks_later_messages, BTC_USD_poisoned_is.
Defined.

Lemma populate_orderbook_levels_witness :
  let target : gmap Decimal OrderBookEntry.t :=
    {[dec 2 := OrderBookEntry.make (dec 2) (dec 3)]} in
  let source := [OrderBookEntry.make (dec 1) (dec 5)] in
  (forall e, e ∈ source -> OrderBookEntry.price e ≠ dec 2) /\
  populate_orderbook target source !! dec 2 = target !! dec 2 /\
  (forall k e, target !! k = Some e -> OrderBookEntry.price e = k) /\
  (forall k e, populate_orderbook target source !! k = Some e ->
     OrderBookEntry.price e = k).
Proof.
  intros target source.
  assert (H1 : forall e, e ∈ source -> OrderBookEntry.price e ≠ dec 2).
  { intros e He. apply list_elem_of_singleton in He. rewrite He. discriminate. }
  assert (H2 : forall k e, target !! k = Some e -> OrderBookEntry.price e = k).
  { intros k e [<- <-]%lookup_singleton_Some. reflexivity. }
  destruct (populate_orderbook_levels target source) as (P1 & _ & P3).
  split; [exact H1|]. split; [exact (P1 _ H1)|]. split; [exact H2 | exact (P3 H2)].
Defined.

Lemma last_entry_decides_level_witness :
  let target : gmap Decimal OrderBookEntry.t :=
    {[dec 1 := OrderBookEntry.make (dec 1) (dec 3)]} in
  let entry := OrderBookEntry.make (dec 1) 0%Qc in
  (forall e, e ∈ [] -> OrderBookEntry.price e ≠ OrderBookEntry.price entry) /\
  populate_orderbook target ([] ++ entry :: []) !! dec 1 = None.
Proof.
  intros target entry.
  assert (H : forall e : OrderBookEntry.t,
            e ∈ [] -> OrderBookEntry.price e ≠ OrderBookEntry.price entry).
  { intros e He. by apply elem_of_nil in He. }
  split; [exact H|].
  pose proof (last_entry_decides_level target [] entry [] H) as E.
  change (OrderBookEntry.price entry) with (dec 1) in E. rewrite E.
  apply decide_True. split; [reflexivity|]. simpl.
  unfold target. rewrite lookup_singleton_eq. eauto.
Defined.

Lemma incremental_update_merges_both_sides_witness :
  OrderBook.bids (Market.order_book BTC_USD_with_book) =
    Some (populate_orderbook ∅ (Payload.bids sample_snapshot)) /\
  OrderBook.asks (Market.order_book BTC_USD_with_book) =
    Some (populate_orderbook ∅ (Payload.asks sample_snapshot)) /\
  outcome (handle_order_book_updated_msg sample_update BTC_USD_with_book) = Ok tt /\
  Market.tasks (state_after (handle_order_book_updated_msg sample_update BTC_USD_with_book))
    = Market.tasks BTC_USD_with_book.
Proof.
  assert (Hb : OrderBook.bids (Market.order_book BTC_USD_with_book) =
               Some (populate_orderbook ∅ (Payload.bids sample_snapshot))) by reflexivity.
  assert (Ha : OrderBook.asks (Market.order_book BTC_USD_with_book) =
               Some (populate_orderbook ∅ (Payload.asks sample_snapshot))) by reflexivity.
  split; [exact Hb|]. split; [exact Ha|].
  destruct (incremental_update_merges_both_sides sample_update BTC_USD_with_book _ _ Hb Ha)
    as (H1 & _ & H3).
  split; [exact H1 | exact H3].
Defined.
